(** * eput_utils: wire codec and NDEF record framing

    A shallow embedding of [src/eputgen/c/eput_utils.c] and of the
    declarations of [eput_utils.h].

    Data model of the embedding (LP64, two's complement):
    - every C integer is a [Z]; a conversion to a w-bit type is written out
      ([uint8_t], [uint32_t], [int16_t], ..., [size_t]); [int] and [unsigned]
      are 32 bits wide, [size_t] is 64 bits wide;
    - memory is a list of bytes, an address is an index into it; a load or a
      store outside the list stops the run with [OutOfBounds];
    - a [uint8_t *] argument is the address it points to, [p + n] is address
      arithmetic; the pointer fields of [ndef_record], which may be [NULL],
      have the type [pointer];
    - an out parameter ([ndef_record *record], [size_t *offset_p]) is passed
      in with its previous contents and handed back with the result. *)

From Stdlib Require Import ZArith Lia List String Ascii.
From stdpp Require Import base list.

Local Open Scope Z_scope.

(** ** C integer types *)

(** Conversion to an unsigned type of [w] bits. *)
Definition wrap (w : Z) (x : Z) : Z := x mod 2 ^ w.

(** Conversion to a signed type of [w] bits (two's complement). *)
Definition swrap (w : Z) (x : Z) : Z := (x + 2 ^ (w - 1)) mod 2 ^ w - 2 ^ (w - 1).

Definition uint8_t : Z -> Z := wrap 8.
Definition uint16_t : Z -> Z := wrap 16.
Definition uint32_t : Z -> Z := wrap 32.
Definition uint64_t : Z -> Z := wrap 64.
Definition size_t : Z -> Z := wrap 64.
Definition int8_t : Z -> Z := swrap 8.
Definition int16_t : Z -> Z := swrap 16.
Definition int32_t : Z -> Z := swrap 32.
Definition int64_t : Z -> Z := swrap 64.

(** The values of each type. *)
Definition is_unsigned (w : Z) (x : Z) : Prop := 0 <= x < 2 ^ w.
Definition is_signed (w : Z) (x : Z) : Prop := - 2 ^ (w - 1) <= x < 2 ^ (w - 1).

(** ** Constants of eput_utils.h *)

Definition TLV_TYPE_NULL : Z := 0x00.
Definition TLV_TYPE_TERMINATOR : Z := 0xFE.
Definition TLV_TYPE_NDEF : Z := 0x03.

Definition TNF_URI : Z := 0x03.

Definition SUCCESS : Z := 0.
Definition ERR_NO_NDEF_TLV : Z := -10.
Definition ERR_REC_BUF_TRUNCATED : Z := -20.
Definition ERR_REC_WRONG_TYPE : Z := -21.
Definition ERR_DATA_BUF_WRONG_LENGTH : Z := -30.

(** The characters of a string literal, without the terminating NUL. *)
Definition c_string (s : string) : list Z :=
  map (fun c => Z.of_N (N_of_ascii c)) (list_ascii_of_string s).

Definition RECORD_TYPE_SCHEME : list Z :=
  c_string "https://pma.inftech.hs-mannheim.de/eput".

(** ** Memory and the monad of runs *)

Record state : Type := State {
  mem : list Z;     (* the bytes, by address *)
  reads : list Z    (* the addresses loaded so far, oldest first *)
}.

(** A run starts on a memory with nothing read yet. *)
Definition init (m : list Z) : state := State m [].

Inductive outcome (A : Type) : Type :=
| Done (a : A)
| OutOfBounds (addr : Z)   (* a load or store outside the memory *)
| AssertFailed             (* assert() aborted the program *)
| OutOfFuel.               (* the loop did not finish within the fuel *)

Arguments Done {A} a.
Arguments OutOfBounds {A} addr.
Arguments AssertFailed {A}.
Arguments OutOfFuel {A}.

Definition M (A : Type) : Type := state -> outcome A * state.

Definition ret {A : Type} (a : A) : M A := fun s => (Done a, s).

Definition bind {A B : Type} (m : M A) (k : A -> M B) : M B :=
  fun s =>
    match m s with
    | (Done a, s') => k a s'
    | (OutOfBounds addr, s') => (OutOfBounds addr, s')
    | (AssertFailed, s') => (AssertFailed, s')
    | (OutOfFuel, s') => (OutOfFuel, s')
    end.

Notation "'let*' x ':=' m 'in' k" := (bind m (fun x => k))
  (at level 10, x pattern, m at level 100, k at level 200).
Notation "m1 ;; m2" := (bind m1 (fun _ => m2))
  (at level 100, m2 at level 200, right associativity).

(** [p[0]] for the address [p]: the load is logged, then checked. *)
Definition load (addr : Z) : M Z :=
  fun s =>
    let s' := State (mem s) (reads s ++ [addr]) in
    if addr <? 0 then (OutOfBounds addr, s')
    else match mem s !! Z.to_nat addr with
         | Some b => (Done b, s')
         | None => (OutOfBounds addr, s')
         end.

(** [p[0] = v] for the address [p]. *)
Definition store (addr : Z) (v : Z) : M unit :=
  fun s =>
    if (0 <=? addr) && (addr <? Z.of_nat (length (mem s)))
    then (Done tt, State (<[Z.to_nat addr := v]> (mem s)) (reads s))
    else (OutOfBounds addr, s).

(** [assert(c)]. *)
Definition assert (c : bool) : M unit :=
  fun s => if c then (Done tt, s) else (AssertFailed, s).

Definition out_of_fuel {A : Type} : M A := fun s => (OutOfFuel, s).

(** The result of a run, and the memory it leaves. *)
Definition result {A : Type} (r : outcome A * state) : outcome A := fst r.
Definition memory {A : Type} (r : outcome A * state) : list Z := mem (snd r).

(** ** Primitive codec: unsigned integers *)

Definition bytes_to_uint8 (bytes : Z) : M Z :=
  let* b0 := load bytes in
  ret (uint8_t b0).

Definition bytes_to_uint16 (bytes : Z) : M Z :=
  let* b0 := load bytes in
  let* b1 := load (bytes + 1) in
  ret (uint16_t (int32_t (int32_t (uint16_t b0 ≪ 8) + uint16_t b1))).

Definition bytes_to_uint32 (bytes : Z) : M Z :=
  let* b0 := load bytes in
  let* b1 := load (bytes + 1) in
  let* b2 := load (bytes + 2) in
  let* b3 := load (bytes + 3) in
  ret (uint32_t (uint32_t (uint32_t (uint32_t (uint32_t b0 ≪ 24)
                                     + uint32_t (uint32_t b1 ≪ 16))
                           + uint32_t (uint32_t b2 ≪ 8))
                 + uint32_t b3)).

Definition bytes_to_uint64 (bytes : Z) : M Z :=
  let* b0 := load bytes in
  let* b1 := load (bytes + 1) in
  let* b2 := load (bytes + 2) in
  let* b3 := load (bytes + 3) in
  let* b4 := load (bytes + 4) in
  let* b5 := load (bytes + 5) in
  let* b6 := load (bytes + 6) in
  let* b7 := load (bytes + 7) in
  ret (uint64_t (uint64_t (uint64_t (uint64_t (uint64_t (uint64_t (uint64_t
         (uint64_t (uint64_t b0 ≪ 56)
          + uint64_t (uint64_t b1 ≪ 48))
          + uint64_t (uint64_t b2 ≪ 40))
          + uint64_t (uint64_t b3 ≪ 32))
          + uint64_t (uint64_t b4 ≪ 24))
          + uint64_t (uint64_t b5 ≪ 16))
          + uint64_t (uint64_t b6 ≪ 8))
          + uint64_t b7)).

Definition uint8_to_bytes (val : Z) (bytes : Z) : M unit :=
  store bytes (uint8_t val).

Definition uint16_to_bytes (val : Z) (bytes : Z) : M unit :=
  store bytes (uint8_t (val ≫ 8));;
  store (bytes + 1) (uint8_t val).

Definition uint32_to_bytes (val : Z) (bytes : Z) : M unit :=
  store bytes (uint8_t (val ≫ 24));;
  store (bytes + 1) (uint8_t (val ≫ 16));;
  store (bytes + 2) (uint8_t (val ≫ 8));;
  store (bytes + 3) (uint8_t val).

Definition uint64_to_bytes (val : Z) (bytes : Z) : M unit :=
  store bytes (uint8_t (val ≫ 56));;
  store (bytes + 1) (uint8_t (val ≫ 48));;
  store (bytes + 2) (uint8_t (val ≫ 40));;
  store (bytes + 3) (uint8_t (val ≫ 32));;
  store (bytes + 4) (uint8_t (val ≫ 24));;
  store (bytes + 5) (uint8_t (val ≫ 16));;
  store (bytes + 6) (uint8_t (val ≫ 8));;
  store (bytes + 7) (uint8_t val).


(** ** Primitive codec: signed integers

    [i += b] and [i <<= 8] on an [intN_t] compute in [int] (or in [int64_t])
    and convert the result back to the type of [i]; a shift that leaves the
    range of the type wraps, as the compilers of the supported hosts do.
    [val >>= 8] on a negative value is the arithmetic shift. *)

Definition bytes_to_int8 (bytes : Z) : M Z :=
  let* b0 := load bytes in
  ret (int8_t b0).

Definition bytes_to_int16 (bytes : Z) : M Z :=
  let i := 0 in
  let* b0 := load bytes in
  let i := int16_t (i + b0) in
  let i := int16_t (i ≪ int16_t 8) in
  let* b1 := load (bytes + 1) in
  let i := int16_t (i + b1) in
  ret (int16_t i).

Definition bytes_to_int32 (bytes : Z) : M Z :=
  let i := 0 in
  let* b0 := load bytes in
  let i := int32_t (i + b0) in
  let i := int32_t (i ≪ int32_t 8) in
  let* b1 := load (bytes + 1) in
  let i := int32_t (i + b1) in
  let i := int32_t (i ≪ int32_t 8) in
  let* b2 := load (bytes + 2) in
  let i := int32_t (i + b2) in
  let i := int32_t (i ≪ int32_t 8) in
  let* b3 := load (bytes + 3) in
  let i := int32_t (i + b3) in
  ret (int32_t i).

Definition bytes_to_int64 (bytes : Z) : M Z :=
  let i := 0 in
  let* b0 := load bytes in
  let i := int64_t (i + b0) in
  let i := int64_t (i ≪ int64_t 8) in
  let* b1 := load (bytes + 1) in
  let i := int64_t (i + b1) in
  let i := int64_t (i ≪ int64_t 8) in
  let* b2 := load (bytes + 2) in
  let i := int64_t (i + b2) in
  let i := int64_t (i ≪ int64_t 8) in
  let* b3 := load (bytes + 3) in
  let i := int64_t (i + b3) in
  let i := int64_t (i ≪ int64_t 8) in
  let* b4 := load (bytes + 4) in
  let i := int64_t (i + b4) in
  let i := int64_t (i ≪ int64_t 8) in
  let* b5 := load (bytes + 5) in
  let i := int64_t (i + b5) in
  let i := int64_t (i ≪ int64_t 8) in
  let* b6 := load (bytes + 6) in
  let i := int64_t (i + b6) in
  let i := int64_t (i ≪ int64_t 8) in
  let* b7 := load (bytes + 7) in
  let i := int64_t (i + b7) in
  ret (int64_t i).

Definition int8_to_bytes (val : Z) (bytes : Z) : M unit :=
  store bytes (uint8_t val).

Definition int16_to_bytes (val : Z) (bytes : Z) : M unit :=
  store (bytes + 1) (uint8_t val);;
  let val := int16_t (val ≫ int16_t 8) in
  store bytes (uint8_t val).

Definition int32_to_bytes (val : Z) (bytes : Z) : M unit :=
  store (bytes + 3) (uint8_t val);;
  let val := int32_t (val ≫ int32_t 8) in
  store (bytes + 2) (uint8_t val);;
  let val := int32_t (val ≫ int32_t 8) in
  store (bytes + 1) (uint8_t val);;
  let val := int32_t (val ≫ int32_t 8) in
  store bytes (uint8_t val).

Definition int64_to_bytes (val : Z) (bytes : Z) : M unit :=
  store (bytes + 7) (uint8_t val);;
  let val := int64_t (val ≫ int64_t 8) in
  store (bytes + 6) (uint8_t val);;
  let val := int64_t (val ≫ int64_t 8) in
  store (bytes + 5) (uint8_t val);;
  let val := int64_t (val ≫ int64_t 8) in
  store (bytes + 4) (uint8_t val);;
  let val := int64_t (val ≫ int64_t 8) in
  store (bytes + 3) (uint8_t val);;
  let val := int64_t (val ≫ int64_t 8) in
  store (bytes + 2) (uint8_t val);;
  let val := int64_t (val ≫ int64_t 8) in
  store (bytes + 1) (uint8_t val);;
  let val := int64_t (val ≫ int64_t 8) in
  store bytes (uint8_t val).

(** ** Primitive codec: float, double and bool

    The codec never computes with a [float] or a [double]; it copies the
    bytes of its object representation. A floating-point value is therefore
    modelled by its IEEE-754 bit pattern, an unsigned integer of 32 or 64
    bits, and the host by the byte order of its object representations. *)

(** The scalar that a sequence of bytes, most significant first, denotes. *)
Definition be_combine (b : list Z) : Z :=
  fold_left (fun acc x => acc * 256 + x) b 0.

Section Host.

Variable host_big_endian : bool.

(** Byte [i] of the object representation of a scalar of [n] bytes with bit
    pattern [bits]: what [p[i]] reads once [p] points to the scalar. *)
Definition object_byte (n : Z) (bits : Z) (i : Z) : Z :=
  if host_big_endian
  then uint8_t (bits ≫ (8 * (n - 1 - i)))
  else uint8_t (bits ≫ (8 * i)).

(** The scalar that has the object representation [b]: what the cast of the
    array [b] to a pointer to the scalar type reads. *)
Definition object_value (b : list Z) : Z :=
  if host_big_endian then be_combine b else be_combine (rev b).

Definition is_big_endian : Z :=
  let i := 1 in
  if object_byte 4 i 0 =? 0 then 1 else 0.

Definition bytes_to_float (bytes : Z) : M Z :=
  if negb (is_big_endian =? 0) then
    let* b0 := load bytes in
    let* b1 := load (bytes + 1) in
    let* b2 := load (bytes + 2) in
    let* b3 := load (bytes + 3) in
    ret (object_value [b0; b1; b2; b3])
  else
    let* b0 := load (bytes + 3) in
    let* b1 := load (bytes + 2) in
    let* b2 := load (bytes + 1) in
    let* b3 := load bytes in
    ret (object_value [b0; b1; b2; b3]).

Definition bytes_to_double (bytes : Z) : M Z :=
  if negb (is_big_endian =? 0) then
    let* b0 := load bytes in
    let* b1 := load (bytes + 1) in
    let* b2 := load (bytes + 2) in
    let* b3 := load (bytes + 3) in
    let* b4 := load (bytes + 4) in
    let* b5 := load (bytes + 5) in
    let* b6 := load (bytes + 6) in
    let* b7 := load (bytes + 7) in
    ret (object_value [b0; b1; b2; b3; b4; b5; b6; b7])
  else
    let* b0 := load (bytes + 7) in
    let* b1 := load (bytes + 6) in
    let* b2 := load (bytes + 5) in
    let* b3 := load (bytes + 4) in
    let* b4 := load (bytes + 3) in
    let* b5 := load (bytes + 2) in
    let* b6 := load (bytes + 1) in
    let* b7 := load bytes in
    ret (object_value [b0; b1; b2; b3; b4; b5; b6; b7]).

Definition float_to_bytes (val : Z) (bytes : Z) : M unit :=
  let p := object_byte 4 val in
  if negb (is_big_endian =? 0) then
    store bytes (p 0);;
    store (bytes + 1) (p 1);;
    store (bytes + 2) (p 2);;
    store (bytes + 3) (p 3)
  else
    store bytes (p 3);;
    store (bytes + 1) (p 2);;
    store (bytes + 2) (p 1);;
    store (bytes + 3) (p 0).

Definition double_to_bytes (val : Z) (bytes : Z) : M unit :=
  let p := object_byte 8 val in
  if negb (is_big_endian =? 0) then
    store bytes (p 0);;
    store (bytes + 1) (p 1);;
    store (bytes + 2) (p 2);;
    store (bytes + 3) (p 3);;
    store (bytes + 4) (p 4);;
    store (bytes + 5) (p 5);;
    store (bytes + 6) (p 6);;
    store (bytes + 7) (p 7)
  else
    store bytes (p 7);;
    store (bytes + 1) (p 6);;
    store (bytes + 2) (p 5);;
    store (bytes + 3) (p 4);;
    store (bytes + 4) (p 3);;
    store (bytes + 5) (p 2);;
    store (bytes + 6) (p 1);;
    store (bytes + 7) (p 0).

End Host.

Definition bytes_to_bool (bytes : Z) : M Z :=
  let* b := load bytes in
  ret (if negb (b =? 0) then 1 else 0).

Definition bool_to_bytes (val : Z) (bytes : Z) : M unit :=
  store bytes val.

(** ** Domain codec *)

(** [time_point] is an [int64_t], [zone_offset] an [int16_t]. *)

Record zoned_time : Type := Zoned_time {
  time : Z;
  offset : Z
}.

Record hh_mm_ss : Type := Hh_mm_ss {
  hours : Z;
  minutes : Z;
  seconds : Z
}.

Record time_range : Type := Time_range {
  time_from : hh_mm_ss;
  time_to : hh_mm_ss
}.

Record date_range : Type := Date_range {
  date_from : Z;
  date_to : Z
}.

(** val = unscaled * 10 ^ -scale *)
Record fixp32 : Type := Fixp32 {
  unscaled32 : Z;
  scale32 : Z
}.

Record fixp64 : Type := Fixp64 {
  unscaled64 : Z;
  scale64 : Z
}.

Definition sizeof_time_point : Z := 8.

Definition bytes_to_time_point (bytes : Z) : M Z :=
  bytes_to_int64 bytes.

Definition time_point_to_bytes (val : Z) (bytes : Z) : M unit :=
  int64_to_bytes val bytes.

Definition bytes_to_hh_mm_ss (bytes : Z) : M hh_mm_ss :=
  let* h := bytes_to_uint8 bytes in
  let* m := bytes_to_uint8 (bytes + 1) in
  let* s := bytes_to_uint8 (bytes + 2) in
  ret (Hh_mm_ss h m s).

Definition hh_mm_ss_to_bytes (val : hh_mm_ss) (bytes : Z) : M unit :=
  uint8_to_bytes (hours val) bytes;;
  uint8_to_bytes (minutes val) (bytes + 1);;
  uint8_to_bytes (seconds val) (bytes + 2).

Definition bytes_to_date_range (bytes : Z) : M date_range :=
  let* f := bytes_to_time_point bytes in
  let* t := bytes_to_time_point (bytes + sizeof_time_point) in
  ret (Date_range f t).

Definition date_range_to_bytes (val : date_range) (bytes : Z) : M unit :=
  time_point_to_bytes (date_from val) bytes;;
  time_point_to_bytes (date_to val) (bytes + sizeof_time_point).

Definition bytes_to_time_range (bytes : Z) : M time_range :=
  let* f := bytes_to_hh_mm_ss bytes in
  let* t := bytes_to_hh_mm_ss (bytes + 3) in
  ret (Time_range f t).

Definition time_range_to_bytes (val : time_range) (bytes : Z) : M unit :=
  hh_mm_ss_to_bytes (time_from val) bytes;;
  hh_mm_ss_to_bytes (time_to val) (bytes + 3).

Definition bytes_to_zone_offset (bytes : Z) : M Z :=
  bytes_to_int16 bytes.

Definition zone_offset_to_bytes (val : Z) (bytes : Z) : M unit :=
  int16_to_bytes val bytes.

Definition bytes_to_zoned_time (bytes : Z) : M zoned_time :=
  let* t := bytes_to_time_point bytes in
  let* o := bytes_to_zone_offset (bytes + sizeof_time_point) in
  ret (Zoned_time t o).

Definition zoned_time_to_bytes (val : zoned_time) (bytes : Z) : M unit :=
  time_point_to_bytes (time val) bytes;;
  zone_offset_to_bytes (offset val) (bytes + sizeof_time_point).

Definition bytes_to_fixp32 (bytes : Z) (scale : Z) : M fixp32 :=
  let* u := bytes_to_int32 bytes in
  ret (Fixp32 u scale).

Definition fixp32_to_bytes (val : fixp32) (bytes : Z) : M unit :=
  int32_to_bytes (unscaled32 val) bytes.

Definition bytes_to_fixp64 (bytes : Z) (scale : Z) : M fixp64 :=
  let* u := bytes_to_int64 bytes in
  ret (Fixp64 u scale).

Definition fixp64_to_bytes (val : fixp64) (bytes : Z) : M unit :=
  int64_to_bytes (unscaled64 val) bytes.

(** ** Record type check *)

Inductive pointer : Type :=
| NULL
| Ptr (addr : Z).

(** [strlen] of a string literal: the characters before the first NUL. *)
Fixpoint strlen (s : list Z) : Z :=
  match s with
  | [] => 0
  | c :: s' => if c =? 0 then 0 else 1 + strlen s'
  end.

(** [strncmp(s1, s2, n)] for [s1] in memory and the string literal [s2]:
    characters are compared until they differ, a NUL is met in both, or [n]
    of them were equal. Past its characters a literal reads as NUL. *)
Fixpoint strncmp (s1 : Z) (s2 : list Z) (n : nat) : M Z :=
  match n with
  | O => ret 0
  | S n' =>
      let* c1 := load s1 in
      let c2 := hd 0 s2 in
      if negb (c1 =? c2) then ret (c1 - c2)
      else if c1 =? 0 then ret 0
      else strncmp (s1 + 1) (tl s2) n'
  end.

(** [suffix] is a C string given by its characters, [None] for [NULL];
    nothing in the repository calls [ends_with]. *)
Definition ends_with (str : pointer) (str_len : Z) (suffix : option (list Z))
  : M Z :=
  match str, suffix with
  | Ptr str, Some suffix =>
      let lensuffix := strlen suffix in
      if str_len <? lensuffix then ret 0
      else
        let* c := strncmp (str + str_len - lensuffix) suffix (Z.to_nat lensuffix) in
        ret (if c =? 0 then 1 else 0)
  | _, _ => ret 0
  end.

(** [prefix] is a string literal at the only call, never [NULL]. *)
Definition starts_with (str : pointer) (str_len : Z) (prefix : list Z) : M Z :=
  match str with
  | NULL => ret 0
  | Ptr str =>
      let prefix_len := strlen prefix in
      if str_len <? prefix_len then ret 0
      else
        let* c := strncmp str prefix (Z.to_nat prefix_len) in
        ret (if c =? 0 then 1 else 0)
  end.

Definition type_valid (bytes : pointer) (len : Z) : M Z :=
  starts_with bytes len RECORD_TYPE_SCHEME.

(** ** TLV scanner *)

(** The length field of an entry, read at [index]: [None] is a [break] out
    of the loop, otherwise the length and the index after the field. *)
Definition tlv_length (buf buf_len : Z) (index : Z) : M (option (Z * Z)) :=
  let length := 0 in
  if buf_len <? size_t (index + 1) then ret None
  else
    let* b := load (buf + index) in
    if b =? 0xFF then
      (* Size is 3 bytes, byte 2 + 3 are actual size *)
      if buf_len <? size_t (index + 2) then ret None
      else
        let* hi := load (buf + size_t (index + 1)) in
        let* lo := load (buf + size_t (index + 2)) in
        let length := uint16_t (int32_t (int32_t (uint16_t hi ≪ 8) + uint16_t lo)) in
        let index := size_t (index + 3) in
        if length =? 0xFFFF then
          (* Value is reserved - treat as invalid *)
          ret None
        else ret (Some (length, index))
    else
      (* Size is 1 byte *)
      let* b := load (buf + index) in
      let length := uint16_t b in
      let index := size_t (index + 1) in
      ret (Some (length, index)).

(** The loop of [get_ndef_tlv_offset], from [index] on; one unit of fuel per
    iteration. The result is the returned length and the contents of
    [*offset_p], [offset] before the call. *)
Fixpoint tlv_scan (fuel : nat) (buf buf_len : Z) (index : Z) (offset : Z)
  : M (Z * Z) :=
  match fuel with
  | O => out_of_fuel
  | S fuel' =>
      if index <? buf_len then
        let* type := load (buf + index) in
        if type =? TLV_TYPE_NULL then
          tlv_scan fuel' buf buf_len (size_t (index + 1)) offset
        else if type =? TLV_TYPE_TERMINATOR then
          ret (0, offset)
        else
          let index := size_t (index + 1) in
          let* len := tlv_length buf buf_len index in
          match len with
          | None => ret (0, offset)
          | Some (length, index) =>
              if type =? TLV_TYPE_NDEF then ret (length, index)
              else tlv_scan fuel' buf buf_len (size_t (index + length)) offset
          end
      else ret (0, offset)
  end.

Definition get_ndef_tlv_offset (fuel : nat) (buf buf_len : Z) (offset : Z)
  : M (Z * Z) :=
  let index := 0 in
  tlv_scan fuel buf buf_len index offset.

(** ** Record decoder *)

Record ndef_record : Type := Ndef_record {
  tnf : Z;
  type_length : Z;
  type : pointer;
  id_length : Z;
  id : pointer;
  payload_length : Z;
  payload : pointer
}.

Definition get_record (buf buf_len : Z) (record : ndef_record)
  : M (Z * ndef_record) :=
  let id := NULL in
  let id_length := 0 in
  if buf_len <? 2 then ret (ERR_REC_BUF_TRUNCATED, record)
  else
    let* flags := load buf in
    let tnf := uint8_t (Z.land flags 0x07) in
    let id_length_present := uint8_t (Z.land flags 0x08) in
    let short_record := uint8_t (Z.land flags 0x10) in
    let* type_length := load (buf + 1) in
    let* payload_length :=
      if 0 <? short_record then
        let* b := load (buf + 2) in ret (uint32_t b)
      else bytes_to_uint32 (buf + 2) in
    let pl_length := if 0 <? short_record then 1 else 4 in
    let idl_length := if 0 <? id_length_present then 1 else 0 in
    let* (id_length, id) :=
      if 0 <? id_length_present then
        let* id_length := load (buf + (2 + pl_length)) in
        if 0 <? id_length
        then ret (id_length, Ptr (buf + 2 + pl_length + idl_length + type_length))
        else ret (id_length, id)
      else ret (id_length, id) in
    let type := Ptr (buf + 2 + pl_length + idl_length) in
    let payload := Ptr (buf + 2 + pl_length + idl_length + type_length + id_length) in
    (* int + uint32_t is computed in unsigned *)
    let total :=
      uint32_t (uint32_t (int32_t (2 + pl_length + idl_length + type_length + id_length))
                + payload_length) in
    if buf_len <? total then ret (ERR_REC_BUF_TRUNCATED, record)
    else
      ret (int32_t total,
           Ndef_record tnf type_length type id_length id payload_length payload).

(** ** Message decoder *)

Definition get_records (buf buf_len : Z) (meta_rec data_rec : ndef_record)
  : M (Z * ndef_record * ndef_record) :=
  let* (r, data_rec) := get_record buf buf_len data_rec in
  if r <? 0 then ret (r, meta_rec, data_rec)
  else
    let* bad :=
      if negb (tnf data_rec =? TNF_URI) then ret true
      else
        let* v := type_valid (type data_rec) (type_length data_rec) in
        ret (v =? 0) in
    if bad : bool then ret (ERR_REC_WRONG_TYPE, meta_rec, data_rec)
    else
      let* (r, meta_rec) := get_record (buf + r) (size_t (buf_len - r)) meta_rec in
      if r <? 0 then ret (r, meta_rec, data_rec)
      else
        let* bad :=
          if negb (tnf meta_rec =? TNF_URI) then ret true
          else
            let* v := type_valid (type meta_rec) (type_length meta_rec) in
            ret (v =? 0) in
        if bad : bool then ret (ERR_REC_WRONG_TYPE, meta_rec, data_rec)
        else ret (SUCCESS, meta_rec, data_rec).

(** ** Bitmap option checker *)

Definition is_option_selected (bitmap bitmap_len : Z) (option : Z) : M Z :=
  assert (option <? size_t (bitmap_len * 8));;
  let map_index := size_t (option / 8) in
  let byte_index := size_t (option mod 8) in
  let* b := load (bitmap + map_index) in
  let mask := uint8_t (int32_t (0x01 ≪ byte_index)) in
  ret (if negb (Z.land b mask =? 0) then 1 else 0).

(** * Specification vocabulary *)

(** ** Byte sequences *)

(** The [n] low bytes of [v], most significant first. *)
Fixpoint be_split (n : nat) (v : Z) : list Z :=
  match n with
  | O => []
  | S n' => be_split n' (v ≫ 8) ++ [uint8_t v]
  end.

(** The values of a byte. *)
Definition byte (b : Z) : Prop := 0 <= b < 256.

(** The memory [m] holds the bytes [bs] from the address [p] on. *)
Definition bytes_at (m : list Z) (p : Z) (bs : list Z) : Prop :=
  0 <= p /\
  forall (k : nat) (b : Z), bs !! k = Some b -> m !! (Z.to_nat p + k)%nat = Some b.

(** [m'] is [m] with the bytes [bs] written from the address [p] on, and
    nothing else changed. *)
Definition writes (m : list Z) (p : Z) (bs : list Z) (m' : list Z) : Prop :=
  length m' = length m /\
  bytes_at m' p bs /\
  forall i : nat,
    (i < Z.to_nat p \/ Z.to_nat p + length bs <= i)%nat -> m' !! i = m !! i.

(** The region of [n] bytes at [p] lies inside the memory of [s]. *)
Definition in_bounds (s : state) (p : Z) (n : Z) : Prop :=
  0 <= p /\ p + n <= Z.of_nat (length (mem s)).

(** ** Values and wire layouts of the domain types *)

Definition hh_mm_ss_ok (v : hh_mm_ss) : Prop :=
  is_unsigned 8 (hours v) /\ is_unsigned 8 (minutes v) /\ is_unsigned 8 (seconds v).

Definition time_range_ok (v : time_range) : Prop :=
  hh_mm_ss_ok (time_from v) /\ hh_mm_ss_ok (time_to v).

Definition date_range_ok (v : date_range) : Prop :=
  is_signed 64 (date_from v) /\ is_signed 64 (date_to v).

Definition zoned_time_ok (v : zoned_time) : Prop :=
  is_signed 64 (time v) /\ is_signed 16 (offset v).

Definition wire_hh_mm_ss (v : hh_mm_ss) : list Z :=
  be_split 1 (hours v) ++ be_split 1 (minutes v) ++ be_split 1 (seconds v).

Definition wire_time_range (v : time_range) : list Z :=
  wire_hh_mm_ss (time_from v) ++ wire_hh_mm_ss (time_to v).

Definition wire_date_range (v : date_range) : list Z :=
  be_split 8 (date_from v) ++ be_split 8 (date_to v).

Definition wire_zoned_time (v : zoned_time) : list Z :=
  be_split 8 (time v) ++ be_split 2 (offset v).

Definition bool_ok (v : Z) : Prop := v = 0 \/ v = 1.

(** [dec] reads back every value of the type that [enc] wrote, wherever
    the [n] bytes of the type fit into the memory. *)
Definition roundtrips {A : Type} (ok : A -> Prop) (n : Z)
    (enc : A -> Z -> M unit) (dec : Z -> M A) : Prop :=
  forall (s : state) (p : Z) (v : A),
    in_bounds s p n -> ok v -> result ((enc v p ;; dec p) s) = Done v.

(** ** Records *)

(** The condition under which [get_records] rejects a record: the operand
    of both [else if] branches. *)
Definition wrong_type (rec : ndef_record) : M bool :=
  if negb (tnf rec =? TNF_URI) then ret true
  else
    let* v := type_valid (type rec) (type_length rec) in
    ret (v =? 0).

(** The record is of the URI type-name format and its type field starts,
    byte for byte, with the scheme. *)
Definition type_ok (m : list Z) (rec : ndef_record) : Prop :=
  tnf rec = TNF_URI /\
  exists a : Z,
    type rec = Ptr a /\
    Z.of_nat (length RECORD_TYPE_SCHEME) <= type_length rec /\
    bytes_at m a RECORD_TYPE_SCHEME.

(** The type field of the record lies inside the memory. *)
Definition type_in_memory (m : list Z) (rec : ndef_record) : Prop :=
  forall a : Z,
    type rec = Ptr a -> 0 <= a /\ a + type_length rec <= Z.of_nat (length m).

(** Two records of the URI format, each with the scheme as its type and a
    payload of one byte, in short form. *)
Definition two_records : list Z :=
  ([0x13; 0x27; 0x01] ++ RECORD_TYPE_SCHEME ++ [0xD0])
  ++ ([0x13; 0x27; 0x01] ++ RECORD_TYPE_SCHEME ++ [0xD1]).

(** The size of a record by its header fields, in unbounded arithmetic:
    flags and type length, the payload length field, the id length field,
    then type, id and payload. *)
Definition record_size (flags type_length id_length payload_length : Z) : Z :=
  2 + (if Z.testbit flags 4 then 1 else 4)
    + (if Z.testbit flags 3 then 1 else 0)
    + type_length + id_length + payload_length.

(** A record as a caller declares it before a call. *)
Definition empty_record : ndef_record := Ndef_record 0 0 NULL 0 NULL 0 NULL.

(** A buffer of 2^31 + 6 bytes: the header of a record in long form, of the
    URI format, with no type and no id, that declares a payload of 2^31
    bytes, and the payload. *)
Definition long_record : list Z :=
  0x03 :: 0x00 :: 0x80 :: 0x00 :: 0x00 :: 0x00 :: repeat 0 (Z.to_nat (2 ^ 31)).

(** A buffer of 45 bytes: the header of a record in long form, of the URI
    format, with no id, that declares a payload of [0xFFFFFFD3] bytes, and
    the scheme as its type. The record would take 2^32 bytes. *)
Definition wrapped_record : list Z :=
  [0x03; 0x27; 0xFF; 0xFF; 0xFF; 0xD3] ++ RECORD_TYPE_SCHEME.

(** ** TLV containers *)

(** An entry of a container: the null entry, or a type with a value, its
    length in one byte or, after [0xFF], in two. *)
Inductive tlv : Type :=
| TlvNull
| TlvShort (t : Z) (v : list Z)
| TlvLong (t : Z) (v : list Z).

Definition tlv_bytes (e : tlv) : list Z :=
  match e with
  | TlvNull => [TLV_TYPE_NULL]
  | TlvShort t v => t :: Z.of_nat (length v) :: v
  | TlvLong t v =>
      t :: 0xFF :: Z.of_nat (length v) / 256 :: Z.of_nat (length v) mod 256 :: v
  end.

Definition tlv_stream (es : list tlv) : list Z := flat_map tlv_bytes es.

(** A well-formed entry that is neither the terminator nor an NDEF entry:
    the scan passes over it. *)
Definition skipped (e : tlv) : Prop :=
  match e with
  | TlvNull => True
  | TlvShort t v =>
      t <> TLV_TYPE_NULL /\ t <> TLV_TYPE_TERMINATOR /\ t <> TLV_TYPE_NDEF
      /\ Z.of_nat (length v) < 0xFF
  | TlvLong t v =>
      t <> TLV_TYPE_NULL /\ t <> TLV_TYPE_TERMINATOR /\ t <> TLV_TYPE_NDEF
      /\ Z.of_nat (length v) < 0xFFFF
  end.

(** [get_ndef_tlv_offset] on a buffer that is a memory of its own. *)
Definition scan_buffer (fuel : nat) (offset : Z) (buf : list Z) : outcome (Z * Z) :=
  result (get_ndef_tlv_offset fuel 0 (Z.of_nat (length buf)) offset (init buf)).

(** A caller of [get_ndef_tlv_offset] cannot tell two buffers apart: every
    call returns the same length and leaves the same [*offset_p] on both. *)
Definition same_to_caller (buf1 buf2 : list Z) : Prop :=
  forall (fuel : nat) (offset : Z),
    scan_buffer fuel offset buf1 = scan_buffer fuel offset buf2.

(** ** Wire forms *)

(** [enc] writes the value [v] as the bytes [wire v] from the address it is
    given on, and changes no other byte. *)
Definition encodes {A : Type} (ok : A -> Prop) (enc : A -> Z -> M unit)
    (wire : A -> list Z) : Prop :=
  forall (s : state) (p : Z) (v : A),
    ok v -> in_bounds s p (Z.of_nat (length (wire v))) ->
    result (enc v p s) = Done tt /\ writes (mem s) p (wire v) (memory (enc v p s)).

(** [enc] writes back the [n] bytes that [dec] read: run one after the other
    on any [n] bytes of the memory, they leave the memory as it was. *)
Definition rewrites {A : Type} (n : nat) (dec : Z -> M A) (enc : A -> Z -> M unit)
  : Prop :=
  forall (s : state) (p : Z) (bs : list Z),
    length bs = n -> Forall byte bs -> bytes_at (mem s) p bs ->
    result ((let* v := dec p in enc v p) s) = Done tt
    /\ memory ((let* v := dec p in enc v p) s) = mem s.

Definition fixp32_ok (v : fixp32) : Prop :=
  is_signed 32 (unscaled32 v) /\ is_signed 32 (scale32 v).

Definition fixp64_ok (v : fixp64) : Prop :=
  is_signed 64 (unscaled64 v) /\ is_signed 32 (scale64 v).

(** The values that sequences of bytes denote, by type. *)
Definition unsigned_of (bs : list Z) : Z := be_combine bs.

Definition signed_of (bs : list Z) : Z :=
  swrap (8 * Z.of_nat (length bs)) (be_combine bs).

Definition hh_mm_ss_of (bs : list Z) : hh_mm_ss :=
  Hh_mm_ss (unsigned_of (take 1 bs)) (unsigned_of (take 1 (drop 1 bs)))
           (unsigned_of (take 1 (drop 2 bs))).

Definition time_range_of (bs : list Z) : time_range :=
  Time_range (hh_mm_ss_of (take 3 bs)) (hh_mm_ss_of (drop 3 bs)).

Definition date_range_of (bs : list Z) : date_range :=
  Date_range (signed_of (take 8 bs)) (signed_of (drop 8 bs)).

Definition zoned_time_of (bs : list Z) : zoned_time :=
  Zoned_time (signed_of (take 8 bs)) (signed_of (drop 8 bs)).

(** The signed decoder reads the two's complement of what the unsigned
    decoder reads from the same [n] bytes. *)
Definition decoders_agree (n : nat) (decu decs : Z -> M Z) : Prop :=
  forall (s : state) (p : Z) (bs : list Z),
    length bs = n -> Forall byte bs -> bytes_at (mem s) p bs ->
    exists u : Z,
      result (decu p s) = Done u
      /\ result (decs p s) = Done (swrap (8 * Z.of_nat n) u).

(** The signed encoder runs as the unsigned encoder does on the value
    converted to the unsigned type. *)
Definition encoders_agree (n : nat) (encu encs : Z -> Z -> M unit) : Prop :=
  forall (s : state) (p : Z) (v : Z),
    is_signed (8 * Z.of_nat n) v -> in_bounds s p (Z.of_nat n) ->
    encs v p s = encu (wrap (8 * Z.of_nat n) v) p s.

(** ** Footprints *)

(** From [s] to [s'] the memory is the same, and every address loaded in
    between lies in [lo .. hi]. *)
Definition reads_within (s s' : state) (lo hi : Z) : Prop :=
  mem s' = mem s
  /\ exists extra : list Z,
       reads s' = reads s ++ extra /\ Forall (fun a => lo <= a <= hi) extra.

(** ** Record headers *)

(** The header of a record: the flags, the type length, the payload length
    in one byte (a short record, bit 4 of the flags) or in four, and the id
    length when bit 3 of the flags announces one. *)
Definition record_header (flags type_length id_length payload_length : Z) : list Z :=
  [flags; type_length]
  ++ (if Z.testbit flags 4 then [payload_length] else be_split 4 payload_length)
  ++ (if Z.testbit flags 3 then [id_length] else []).

Definition header_size (flags : Z) : Z :=
  2 + (if Z.testbit flags 4 then 1 else 4) + (if Z.testbit flags 3 then 1 else 0).

(** The fields of a header are bytes, the payload length fits its field,
    and there is no id without an id length. *)
Definition header_ok (flags type_length id_length payload_length : Z) : Prop :=
  byte flags /\ byte type_length /\ byte id_length
  /\ (Z.testbit flags 3 = false -> id_length = 0)
  /\ 0 <= payload_length < (if Z.testbit flags 4 then 2 ^ 8 else 2 ^ 32).

(** The record that such a header at [buf] describes: type, id and payload
    follow the header in this order. *)
Definition record_at (buf flags type_length id_length payload_length : Z)
  : ndef_record :=
  let type := buf + header_size flags in
  Ndef_record (flags mod 8) type_length (Ptr type) id_length
    (if 0 <? id_length then Ptr (type + type_length) else NULL)
    payload_length (Ptr (type + type_length + id_length)).

(** A record in full: the header, then the type, the id and the payload. *)
Definition record_bytes (flags : Z) (type id payload : list Z) : list Z :=
  record_header flags (Z.of_nat (length type)) (Z.of_nat (length id))
    (Z.of_nat (length payload))
  ++ type ++ id ++ payload.

(** The record that [get_record] stores for a record in full at [buf]. *)
Definition record_of (buf flags : Z) (type id payload : list Z) : ndef_record :=
  record_at buf flags (Z.of_nat (length type)) (Z.of_nat (length id))
    (Z.of_nat (length payload)).

(** The type check of [get_records] on a record in full: the URI format,
    and a type that starts with the scheme. *)
Definition accepted (flags : Z) (type : list Z) : bool :=
  (flags mod 8 =? TNF_URI) && bool_decide (RECORD_TYPE_SCHEME `prefix_of` type).

(** A record in full whose fields have the lengths the header can hold. *)
Definition record_ok (flags : Z) (type id payload : list Z) : Prop :=
  header_ok flags (Z.of_nat (length type)) (Z.of_nat (length id))
    (Z.of_nat (length payload)).

(** ** C strings *)

(** The characters of a C string: none of them is NUL. *)
Definition c_chars (cs : list Z) : Prop := Forall (fun c => c <> 0) cs.

(** ** Bounds *)

(** [f p] completes exactly when the [n] bytes at [p] lie inside the
    memory; otherwise it stops at an access outside the memory. *)
Definition needs {A : Type} (n : Z) (f : Z -> M A) : Prop :=
  forall (s : state) (p : Z),
    (in_bounds s p n -> exists a, result (f p s) = Done a)
    /\ (~ in_bounds s p n ->
        exists a, result (f p s) = OutOfBounds a
                  /\ ~ (0 <= a < Z.of_nat (length (mem s)))).

(** Decoder and encoder of a type of [n] bytes need these [n] bytes, for
    every value that is encoded. *)
Definition codec_needs {A : Type} (n : Z) (dec : Z -> M A) (enc : A -> Z -> M unit)
  : Prop :=
  needs n dec /\ forall v : A, needs n (enc v).

(** [m] leaves the memory as it is, however it ends. *)
Definition read_only {A : Type} (m : M A) : Prop :=
  forall s : state, memory (m s) = mem s.

(** [m] keeps the length of the memory, completes when the [n] bytes at [p]
    are inside the memory, and otherwise stops at an access outside. *)
Definition touches {A : Type} (m : M A) (p n : Z) : Prop :=
  forall s : state,
    length (mem (snd (m s))) = length (mem s)
    /\ (in_bounds s p n -> exists a, fst (m s) = Done a)
    /\ (~ in_bounds s p n ->
        exists a, fst (m s) = OutOfBounds a /\ ~ (0 <= a < Z.of_nat (length (mem s)))).

(** * Properties *)

(** ** Integer conversions *)

Lemma wrap_small (w x : Z) : 0 <= x < 2 ^ w -> wrap w x = x.
Proof. intros H. unfold wrap. apply Z.mod_small. exact H. Qed.

Lemma wrap_range (w x : Z) : 0 <= w -> 0 <= wrap w x < 2 ^ w.
Proof. intros H. unfold wrap. apply Z.mod_pos_bound. apply Z.pow_pos_nonneg; lia. Qed.

Lemma uint8_t_range (x : Z) : 0 <= uint8_t x < 256.
Proof. apply (wrap_range 8 x). lia. Qed.

Lemma half_double (w : Z) : 0 < w -> 2 ^ w = 2 * 2 ^ (w - 1).
Proof.
  intros H. rewrite <- Z.pow_succ_r by lia. f_equal. lia.
Qed.

Lemma swrap_small (w x : Z) : 0 < w -> is_signed w x -> swrap w x = x.
Proof.
  intros Hw [Hlo Hhi]. unfold swrap.
  pose proof (half_double w Hw) as Hd.
  rewrite Z.mod_small by lia. lia.
Qed.

Lemma swrap_range (w x : Z) : 0 < w -> is_signed w (swrap w x).
Proof.
  intros Hw. unfold swrap, is_signed.
  pose proof (half_double w Hw) as Hd.
  assert (0 < 2 ^ (w - 1)) by (apply Z.pow_pos_nonneg; lia).
  pose proof (Z.mod_pos_bound (x + 2 ^ (w - 1)) (2 ^ w)). lia.
Qed.

(** A signed conversion keeps the value modulo [2 ^ w]. *)
Lemma swrap_mod (w x : Z) : swrap w x mod 2 ^ w = x mod 2 ^ w.
Proof.
  unfold swrap. rewrite Zminus_mod_idemp_l. f_equal. lia.
Qed.

Lemma swrap_congr (w x y : Z) : x mod 2 ^ w = y mod 2 ^ w -> swrap w x = swrap w y.
Proof.
  intros H. unfold swrap.
  rewrite <- (Zplus_mod_idemp_l x), <- (Zplus_mod_idemp_l y), H. reflexivity.
Qed.

Lemma swrap_add_l (w x b : Z) : swrap w (swrap w x + b) = swrap w (x + b).
Proof.
  apply swrap_congr.
  rewrite <- Zplus_mod_idemp_l, swrap_mod, Zplus_mod_idemp_l. reflexivity.
Qed.

Lemma swrap_idem (w x : Z) : swrap w (swrap w x) = swrap w x.
Proof. apply swrap_congr, swrap_mod. Qed.

Lemma swrap_wrap (w x : Z) : 0 < w -> is_signed w x -> swrap w (x mod 2 ^ w) = x.
Proof.
  intros Hw Hx. rewrite <- (swrap_small w x Hw Hx) at 2.
  apply swrap_congr. apply Z.mod_mod.
  apply Z.pow_nonzero; lia.
Qed.

(** ** Big-endian byte sequences *)

Lemma be_combine_snoc (l : list Z) (x : Z) :
  be_combine (l ++ [x]) = be_combine l * 256 + x.
Proof. unfold be_combine. rewrite fold_left_app. reflexivity. Qed.

Lemma be_split_length (n : nat) (v : Z) : length (be_split n v) = n.
Proof.
  revert v. induction n as [|n IH]; intros v; simpl.
  - reflexivity.
  - rewrite length_app, IH. simpl. lia.
Qed.

(** Splitting then combining keeps the [8 * n] low bits. *)
Lemma be_combine_split (n : nat) (v : Z) :
  be_combine (be_split n v) = v mod 2 ^ (8 * Z.of_nat n).
Proof.
  revert v. induction n as [|n IH]; intros v.
  - simpl. rewrite Z.mod_1_r. reflexivity.
  - cbn [be_split]. rewrite be_combine_snoc, IH.
    replace (8 * Z.of_nat (S n)) with (8 + 8 * Z.of_nat n) by lia.
    rewrite Z.pow_add_r by lia.
    rewrite Z.rem_mul_r by (try apply Z.pow_pos_nonneg; lia).
    rewrite Z.shiftr_div_pow2 by lia.
    unfold uint8_t, wrap. lia.
Qed.

Lemma be_split_unsigned (n : nat) (v : Z) :
  is_unsigned (8 * Z.of_nat n) v -> be_combine (be_split n v) = v.
Proof.
  intros H. rewrite be_combine_split. apply Z.mod_small. exact H.
Qed.

Lemma be_split_signed (n : nat) (v : Z) :
  (0 < n)%nat -> is_signed (8 * Z.of_nat n) v ->
  swrap (8 * Z.of_nat n) (be_combine (be_split n v)) = v.
Proof.
  intros Hn H. rewrite be_combine_split. apply swrap_wrap; [lia | exact H].
Qed.

Lemma shiftr8_signed (w v : Z) : 0 < w -> is_signed w v -> is_signed w (v ≫ 8).
Proof.
  intros Hw [Hlo Hhi]. unfold is_signed.
  rewrite Z.shiftr_div_pow2 by lia. change (2 ^ 8) with 256.
  assert (0 < 2 ^ (w - 1)) by (apply Z.pow_pos_nonneg; lia).
  split.
  - apply Z.div_le_lower_bound; lia.
  - apply Z.div_lt_upper_bound; lia.
Qed.

Lemma be_split_2 (v : Z) :
  be_split 2 v = [uint8_t (v ≫ 8); uint8_t v].
Proof. reflexivity. Qed.

Lemma be_split_4 (v : Z) :
  be_split 4 v = [uint8_t (v ≫ 24); uint8_t (v ≫ 16); uint8_t (v ≫ 8); uint8_t v].
Proof. cbn [be_split app]. rewrite !Z.shiftr_shiftr by lia. reflexivity. Qed.

Lemma be_split_8 (v : Z) :
  be_split 8 v =
  [uint8_t (v ≫ 56); uint8_t (v ≫ 48); uint8_t (v ≫ 40); uint8_t (v ≫ 32);
   uint8_t (v ≫ 24); uint8_t (v ≫ 16); uint8_t (v ≫ 8); uint8_t v].
Proof. cbn [be_split app]. rewrite !Z.shiftr_shiftr by lia. reflexivity. Qed.

(** The decoders' expressions on bytes. *)

Ltac drop_mods :=
  repeat match goal with
         | |- context [?a mod ?b] => rewrite (Z.mod_small a b) by lia
         end.

Lemma uint16_expr (b0 b1 : Z) :
  byte b0 -> byte b1 ->
  uint16_t (int32_t (int32_t (uint16_t b0 ≪ 8) + uint16_t b1)) = be_combine [b0; b1].
Proof.
  unfold byte. intros H0 H1.
  unfold uint16_t, int32_t, wrap, swrap. rewrite !Z.shiftl_mul_pow2 by lia.
  drop_mods. unfold be_combine. simpl. lia.
Qed.

Lemma uint32_expr (b0 b1 b2 b3 : Z) :
  byte b0 -> byte b1 -> byte b2 -> byte b3 ->
  uint32_t (uint32_t (uint32_t (uint32_t (uint32_t b0 ≪ 24)
                                + uint32_t (uint32_t b1 ≪ 16))
                      + uint32_t (uint32_t b2 ≪ 8))
            + uint32_t b3) = be_combine [b0; b1; b2; b3].
Proof.
  unfold byte. intros H0 H1 H2 H3.
  unfold uint32_t, wrap. rewrite !Z.shiftl_mul_pow2 by lia.
  drop_mods. unfold be_combine. simpl. lia.
Qed.

Lemma uint64_expr (b0 b1 b2 b3 b4 b5 b6 b7 : Z) :
  byte b0 -> byte b1 -> byte b2 -> byte b3 ->
  byte b4 -> byte b5 -> byte b6 -> byte b7 ->
  uint64_t (uint64_t (uint64_t (uint64_t (uint64_t (uint64_t (uint64_t
    (uint64_t (uint64_t b0 ≪ 56)
     + uint64_t (uint64_t b1 ≪ 48))
     + uint64_t (uint64_t b2 ≪ 40))
     + uint64_t (uint64_t b3 ≪ 32))
     + uint64_t (uint64_t b4 ≪ 24))
     + uint64_t (uint64_t b5 ≪ 16))
     + uint64_t (uint64_t b6 ≪ 8))
     + uint64_t b7) = be_combine [b0; b1; b2; b3; b4; b5; b6; b7].
Proof.
  unfold byte. intros H0 H1 H2 H3 H4 H5 H6 H7.
  unfold uint64_t, wrap. rewrite !Z.shiftl_mul_pow2 by lia.
  drop_mods. unfold be_combine. simpl. lia.
Qed.

(** A signed accumulation step keeps the value modulo [2 ^ w]. *)
Lemma swrap_step (w i x b : Z) :
  i = swrap w x ->
  swrap w (swrap w (i ≪ 8) + b) = swrap w (x * 256 + b).
Proof.
  intros ->. rewrite Z.shiftl_mul_pow2 by lia. change (2 ^ 8) with 256.
  rewrite swrap_add_l. apply swrap_congr.
  rewrite <- Zplus_mod_idemp_l, <- Zmult_mod_idemp_l, swrap_mod.
  rewrite Zmult_mod_idemp_l, Zplus_mod_idemp_l. reflexivity.
Qed.

Ltac signed_expr :=
  rewrite swrap_idem; cbn [be_combine fold_left Z.mul Z.add];
  repeat apply swrap_step; reflexivity.

Lemma int16_expr (b0 b1 : Z) :
  int16_t (int16_t (int16_t (int16_t (0 + b0) ≪ int16_t 8) + b1))
  = swrap 16 (be_combine [b0; b1]).
Proof. change (int16_t 8) with 8. unfold int16_t. signed_expr. Qed.

Lemma int32_expr (b0 b1 b2 b3 : Z) :
  int32_t (int32_t (int32_t (int32_t (int32_t (int32_t (int32_t (int32_t
    (0 + b0) ≪ int32_t 8) + b1) ≪ int32_t 8) + b2) ≪ int32_t 8) + b3))
  = swrap 32 (be_combine [b0; b1; b2; b3]).
Proof. change (int32_t 8) with 8. unfold int32_t. signed_expr. Qed.

Lemma int64_expr (b0 b1 b2 b3 b4 b5 b6 b7 : Z) :
  int64_t (int64_t (int64_t (int64_t (int64_t (int64_t (int64_t (int64_t
  (int64_t (int64_t (int64_t (int64_t (int64_t (int64_t (int64_t (int64_t
    (0 + b0) ≪ int64_t 8) + b1) ≪ int64_t 8) + b2) ≪ int64_t 8) + b3)
    ≪ int64_t 8) + b4) ≪ int64_t 8) + b5) ≪ int64_t 8) + b6) ≪ int64_t 8) + b7))
  = swrap 64 (be_combine [b0; b1; b2; b3; b4; b5; b6; b7]).
Proof. change (int64_t 8) with 8. unfold int64_t. signed_expr. Qed.

(** ** Runs: loads, stores and sequencing *)

Lemma bind_Done {A B : Type} (m : M A) (k : A -> M B) (s s' : state) (a : A) :
  m s = (Done a, s') -> bind m k s = k a s'.
Proof. intros H. unfold bind. rewrite H. reflexivity. Qed.

Lemma load_Done (m r : list Z) (a b : Z) :
  0 <= a -> m !! Z.to_nat a = Some b ->
  load a (State m r) = (Done b, State m (r ++ [a])).
Proof.
  intros Ha Hb. unfold load. cbn [mem reads].
  destruct (Z.ltb_spec a 0) as [Hlt|_]; [lia|].
  rewrite Hb. reflexivity.
Qed.

Lemma load_OutOfBounds (m r : list Z) (a : Z) :
  Z.of_nat (length m) <= a ->
  load a (State m r) = (OutOfBounds a, State m (r ++ [a])).
Proof.
  intros Ha. unfold load. cbn [mem reads].
  destruct (Z.ltb_spec a 0) as [Hlt|Hge]; [reflexivity|].
  assert (m !! Z.to_nat a = None) as -> by (apply lookup_ge_None; lia).
  reflexivity.
Qed.

Lemma store_Done (m r : list Z) (a v : Z) :
  0 <= a < Z.of_nat (length m) ->
  store a v (State m r) = (Done tt, State (<[Z.to_nat a := v]> m) r).
Proof.
  intros Ha. unfold store. cbn [mem reads].
  destruct (Z.leb_spec 0 a); [|lia].
  destruct (Z.ltb_spec a (Z.of_nat (length m))); [|lia].
  reflexivity.
Qed.

Lemma bytes_at_nil (m : list Z) (p : Z) : 0 <= p -> bytes_at m p [].
Proof. intros Hp. split; [exact Hp|]. intros k b H. discriminate. Qed.

Lemma bytes_at_app (m : list Z) (p : Z) (bs1 bs2 : list Z) :
  bytes_at m p (bs1 ++ bs2) <->
  bytes_at m p bs1 /\ bytes_at m (p + Z.of_nat (length bs1)) bs2.
Proof.
  unfold bytes_at. split.
  - intros [Hp H]. repeat split; try lia.
    + intros k b Hk. apply H. rewrite lookup_app_l; [exact Hk|].
      apply lookup_lt_Some in Hk. exact Hk.
    + intros k b Hk.
      replace (Z.to_nat (p + Z.of_nat (length bs1)) + k)%nat
        with (Z.to_nat p + (length bs1 + k))%nat by lia.
      apply H. rewrite lookup_app_r by lia.
      replace (length bs1 + k - length bs1)%nat with k by lia. exact Hk.
  - intros [[Hp H1] [_ H2]]. split; [exact Hp|].
    intros k b Hk. destruct (Nat.lt_ge_cases k (length bs1)) as [Hlt|Hge].
    + rewrite lookup_app_l in Hk by exact Hlt. apply H1, Hk.
    + rewrite lookup_app_r in Hk by exact Hge.
      apply H2 in Hk. rewrite <- Hk. f_equal. lia.
Qed.

Lemma bytes_at_load (m r : list Z) (p : Z) (bs : list Z) (k : nat) (b a : Z) :
  bytes_at m p bs -> bs !! k = Some b -> a = p + Z.of_nat k ->
  load a (State m r) = (Done b, State m (r ++ [a])).
Proof.
  intros [Hp H] Hk ->. apply load_Done; [lia|].
  rewrite <- (H k b Hk). f_equal. lia.
Qed.

Lemma writes_one (m : list Z) (p b : Z) :
  0 <= p < Z.of_nat (length m) -> writes m p [b] (<[Z.to_nat p := b]> m).
Proof.
  intros Hp. unfold writes, bytes_at. rewrite length_insert.
  repeat split; try lia.
  - intros [|k] b' Hk; [|discriminate]. injection Hk as <-.
    rewrite Nat.add_0_r. apply list_lookup_insert_eq. lia.
  - intros i Hi. cbn [length] in Hi. apply list_lookup_insert_ne. lia.
Qed.

Lemma writes_cons (m : list Z) (p q : Z) (bs : list Z) (m' : list Z) (b : Z) :
  writes m q bs m' -> q = p + 1 -> 0 <= p < Z.of_nat (length m) ->
  writes m p (b :: bs) (<[Z.to_nat p := b]> m').
Proof.
  intros (Hlen & [Hq Hin] & Hout) -> Hp. unfold writes, bytes_at.
  rewrite length_insert. cbn [length].
  repeat split; try lia.
  - intros [|k] b' Hk.
    + injection Hk as <-. rewrite Nat.add_0_r.
      apply list_lookup_insert_eq. lia.
    + cbn in Hk. rewrite list_lookup_insert_ne by lia.
      replace (Z.to_nat p + S k)%nat with (Z.to_nat (p + 1) + k)%nat by lia.
      apply Hin, Hk.
  - intros i Hi. rewrite list_lookup_insert_ne by lia. apply Hout. lia.
Qed.

Lemma writes_app (m : list Z) (p q : Z) (bs1 bs2 : list Z) (m1 m2 : list Z) :
  writes m p bs1 m1 -> writes m1 q bs2 m2 -> q = p + Z.of_nat (length bs1) ->
  writes m p (bs1 ++ bs2) m2.
Proof.
  intros (Hlen1 & [Hp Hin1] & Hout1) (Hlen2 & [Hq Hin2] & Hout2) ->.
  unfold writes. rewrite length_app. split; [lia|]. split.
  - apply bytes_at_app. split; split; try lia.
    + intros k b Hk. rewrite Hout2.
      * apply Hin1, Hk.
      * apply lookup_lt_Some in Hk. lia.
    + exact Hin2.
  - intros i Hi. rewrite Hout2 by lia. apply Hout1. lia.
Qed.

Lemma writes_cons_after (m : list Z) (p q : Z) (bs : list Z) (m' : list Z) (b : Z) :
  writes (<[Z.to_nat p := b]> m) q bs m' -> q = p + 1 ->
  0 <= p < Z.of_nat (length m) ->
  writes m p (b :: bs) m'.
Proof.
  intros (Hlen & [Hq Hin] & Hout) -> Hp. unfold writes, bytes_at.
  rewrite length_insert in Hlen. cbn [length].
  repeat split; try lia.
  - intros [|k] b' Hk.
    + injection Hk as <-. rewrite Nat.add_0_r.
      rewrite Hout by lia. apply list_lookup_insert_eq. lia.
    + cbn in Hk.
      replace (Z.to_nat p + S k)%nat with (Z.to_nat (p + 1) + k)%nat by lia.
      apply Hin, Hk.
  - intros i Hi. rewrite Hout by lia. apply list_lookup_insert_ne. lia.
Qed.

Lemma writes_bytes_at (m : list Z) (p : Z) (bs : list Z) (m' : list Z) :
  writes m p bs m' -> bytes_at m' p bs.
Proof. intros (_ & H & _). exact H. Qed.

(** Stepping through a run. *)
Ltac step_load H k :=
  erewrite bind_Done
    by (eapply (bytes_at_load _ _ _ _ k); [exact H | reflexivity | simpl; lia]);
  cbv beta zeta.

Ltac store_bounds := rewrite ?length_insert; lia.

Ltac step_store :=
  erewrite bind_Done by (apply store_Done; store_bounds);
  cbv beta zeta.

Ltac last_store :=
  rewrite store_Done by store_bounds.

(** The memory after stores in ascending and in descending order. *)
Ltac writes_up :=
  first [ apply writes_one; store_bounds
        | eapply writes_cons_after; [ writes_up | lia | store_bounds ] ].

Ltac writes_down :=
  first [ apply writes_one; store_bounds
        | eapply writes_cons; [ writes_down | lia | store_bounds ] ].

(** ** Runs of the primitive codec *)

Lemma byte_uint8_t (x : Z) : byte (uint8_t x).
Proof. apply uint8_t_range. Qed.

Section PrimitiveRuns.

Variables (m r : list Z) (p : Z).

Lemma bytes_to_uint8_run (b0 : Z) :
  bytes_at m p [b0] ->
  exists r', bytes_to_uint8 p (State m r) = (Done (uint8_t b0), State m r').
Proof.
  intros H. unfold bytes_to_uint8. step_load H 0%nat. eexists. reflexivity.
Qed.

Lemma bytes_to_uint16_run (b0 b1 : Z) :
  bytes_at m p [b0; b1] -> byte b0 -> byte b1 ->
  exists r', bytes_to_uint16 p (State m r) = (Done (be_combine [b0; b1]), State m r').
Proof.
  intros H B0 B1. unfold bytes_to_uint16.
  step_load H 0%nat. step_load H 1%nat.
  rewrite uint16_expr by assumption. eexists. reflexivity.
Qed.

Lemma bytes_to_uint32_run (b0 b1 b2 b3 : Z) :
  bytes_at m p [b0; b1; b2; b3] -> byte b0 -> byte b1 -> byte b2 -> byte b3 ->
  exists r',
    bytes_to_uint32 p (State m r) = (Done (be_combine [b0; b1; b2; b3]), State m r').
Proof.
  intros H B0 B1 B2 B3. unfold bytes_to_uint32.
  step_load H 0%nat. step_load H 1%nat. step_load H 2%nat. step_load H 3%nat.
  rewrite uint32_expr by assumption. eexists. reflexivity.
Qed.

Lemma bytes_to_uint64_run (b0 b1 b2 b3 b4 b5 b6 b7 : Z) :
  bytes_at m p [b0; b1; b2; b3; b4; b5; b6; b7] ->
  byte b0 -> byte b1 -> byte b2 -> byte b3 ->
  byte b4 -> byte b5 -> byte b6 -> byte b7 ->
  exists r',
    bytes_to_uint64 p (State m r)
    = (Done (be_combine [b0; b1; b2; b3; b4; b5; b6; b7]), State m r').
Proof.
  intros H B0 B1 B2 B3 B4 B5 B6 B7. unfold bytes_to_uint64.
  step_load H 0%nat. step_load H 1%nat. step_load H 2%nat. step_load H 3%nat.
  step_load H 4%nat. step_load H 5%nat. step_load H 6%nat. step_load H 7%nat.
  rewrite uint64_expr by assumption. eexists. reflexivity.
Qed.

Lemma bytes_to_int8_run (b0 : Z) :
  bytes_at m p [b0] ->
  exists r', bytes_to_int8 p (State m r) = (Done (int8_t b0), State m r').
Proof.
  intros H. unfold bytes_to_int8. step_load H 0%nat. eexists. reflexivity.
Qed.

Lemma bytes_to_int16_run (b0 b1 : Z) :
  bytes_at m p [b0; b1] ->
  exists r',
    bytes_to_int16 p (State m r) = (Done (swrap 16 (be_combine [b0; b1])), State m r').
Proof.
  intros H. unfold bytes_to_int16.
  step_load H 0%nat. step_load H 1%nat.
  rewrite int16_expr. eexists. reflexivity.
Qed.

Lemma bytes_to_int32_run (b0 b1 b2 b3 : Z) :
  bytes_at m p [b0; b1; b2; b3] ->
  exists r',
    bytes_to_int32 p (State m r)
    = (Done (swrap 32 (be_combine [b0; b1; b2; b3])), State m r').
Proof.
  intros H. unfold bytes_to_int32.
  step_load H 0%nat. step_load H 1%nat. step_load H 2%nat. step_load H 3%nat.
  rewrite int32_expr. eexists. reflexivity.
Qed.

Lemma bytes_to_int64_run (b0 b1 b2 b3 b4 b5 b6 b7 : Z) :
  bytes_at m p [b0; b1; b2; b3; b4; b5; b6; b7] ->
  exists r',
    bytes_to_int64 p (State m r)
    = (Done (swrap 64 (be_combine [b0; b1; b2; b3; b4; b5; b6; b7])), State m r').
Proof.
  intros H. unfold bytes_to_int64.
  step_load H 0%nat. step_load H 1%nat. step_load H 2%nat. step_load H 3%nat.
  step_load H 4%nat. step_load H 5%nat. step_load H 6%nat. step_load H 7%nat.
  rewrite int64_expr. eexists. reflexivity.
Qed.

Lemma uint8_to_bytes_run (v : Z) :
  0 <= p -> p + 1 <= Z.of_nat (length m) ->
  exists m', uint8_to_bytes v p (State m r) = (Done tt, State m' r)
             /\ writes m p [uint8_t v] m'.
Proof.
  intros Hp Hlen. unfold uint8_to_bytes. last_store.
  eexists. split; [reflexivity|]. writes_up.
Qed.

Lemma uint16_to_bytes_run (v : Z) :
  0 <= p -> p + 2 <= Z.of_nat (length m) ->
  exists m', uint16_to_bytes v p (State m r) = (Done tt, State m' r)
             /\ writes m p (be_split 2 v) m'.
Proof.
  intros Hp Hlen. unfold uint16_to_bytes. step_store. last_store.
  eexists. split; [reflexivity|]. rewrite be_split_2. writes_up.
Qed.

Lemma uint32_to_bytes_run (v : Z) :
  0 <= p -> p + 4 <= Z.of_nat (length m) ->
  exists m', uint32_to_bytes v p (State m r) = (Done tt, State m' r)
             /\ writes m p (be_split 4 v) m'.
Proof.
  intros Hp Hlen. unfold uint32_to_bytes. do 3 step_store. last_store.
  eexists. split; [reflexivity|]. rewrite be_split_4. writes_up.
Qed.

Lemma uint64_to_bytes_run (v : Z) :
  0 <= p -> p + 8 <= Z.of_nat (length m) ->
  exists m', uint64_to_bytes v p (State m r) = (Done tt, State m' r)
             /\ writes m p (be_split 8 v) m'.
Proof.
  intros Hp Hlen. unfold uint64_to_bytes. do 7 step_store. last_store.
  eexists. split; [reflexivity|]. rewrite be_split_8. writes_up.
Qed.

(** In range, [val >>= 8] needs no conversion. *)
Ltac unwrap_shifts H :=
  repeat match goal with
         | |- context [swrap ?w (?x ≫ 8)] =>
             rewrite (swrap_small w (x ≫ 8))
               by (try lia; repeat apply shiftr8_signed; try lia; exact H)
         end.

Lemma int8_to_bytes_run (v : Z) :
  0 <= p -> p + 1 <= Z.of_nat (length m) ->
  exists m', int8_to_bytes v p (State m r) = (Done tt, State m' r)
             /\ writes m p (be_split 1 v) m'.
Proof.
  intros Hp Hlen. unfold int8_to_bytes. last_store.
  eexists. split; [reflexivity|]. cbn [be_split app]. writes_up.
Qed.

Lemma int16_to_bytes_run (v : Z) :
  is_signed 16 v -> 0 <= p -> p + 2 <= Z.of_nat (length m) ->
  exists m', int16_to_bytes v p (State m r) = (Done tt, State m' r)
             /\ writes m p (be_split 2 v) m'.
Proof.
  intros Hv Hp Hlen. unfold int16_to_bytes. change (int16_t 8) with 8.
  unfold int16_t. step_store. last_store.
  eexists. split; [reflexivity|]. cbn [be_split app].
  unwrap_shifts Hv. writes_down.
Qed.

Lemma int32_to_bytes_run (v : Z) :
  is_signed 32 v -> 0 <= p -> p + 4 <= Z.of_nat (length m) ->
  exists m', int32_to_bytes v p (State m r) = (Done tt, State m' r)
             /\ writes m p (be_split 4 v) m'.
Proof.
  intros Hv Hp Hlen. unfold int32_to_bytes. change (int32_t 8) with 8.
  unfold int32_t. do 3 step_store. last_store.
  eexists. split; [reflexivity|]. cbn [be_split app].
  unwrap_shifts Hv. writes_down.
Qed.

Lemma int64_to_bytes_run (v : Z) :
  is_signed 64 v -> 0 <= p -> p + 8 <= Z.of_nat (length m) ->
  exists m', int64_to_bytes v p (State m r) = (Done tt, State m' r)
             /\ writes m p (be_split 8 v) m'.
Proof.
  intros Hv Hp Hlen. unfold int64_to_bytes. change (int64_t 8) with 8.
  unfold int64_t. do 7 step_store. last_store.
  eexists. split; [reflexivity|]. cbn [be_split app].
  unwrap_shifts Hv. writes_down.
Qed.

Lemma bytes_to_bool_run (b0 : Z) :
  bytes_at m p [b0] ->
  exists r',
    bytes_to_bool p (State m r) = (Done (if negb (b0 =? 0) then 1 else 0), State m r').
Proof.
  intros H. unfold bytes_to_bool. step_load H 0%nat. eexists. reflexivity.
Qed.

Lemma bool_to_bytes_run (v : Z) :
  0 <= p -> p + 1 <= Z.of_nat (length m) ->
  exists m', bool_to_bytes v p (State m r) = (Done tt, State m' r)
             /\ writes m p [v] m'.
Proof.
  intros Hp Hlen. unfold bool_to_bytes. last_store.
  eexists. split; [reflexivity|]. writes_up.
Qed.

Section HostRuns.

Variable host_big_endian : bool.

Lemma is_big_endian_host :
  is_big_endian host_big_endian = if host_big_endian then 1 else 0.
Proof. destruct host_big_endian; reflexivity. Qed.

Lemma bytes_to_float_run (b0 b1 b2 b3 : Z) :
  bytes_at m p [b0; b1; b2; b3] ->
  exists r',
    bytes_to_float host_big_endian p (State m r)
    = (Done (be_combine [b0; b1; b2; b3]), State m r').
Proof.
  intros H. unfold bytes_to_float. rewrite is_big_endian_host.
  destruct host_big_endian; cbn [Z.eqb negb].
  - step_load H 0%nat. step_load H 1%nat. step_load H 2%nat. step_load H 3%nat.
    eexists. reflexivity.
  - step_load H 3%nat. step_load H 2%nat. step_load H 1%nat. step_load H 0%nat.
    eexists. reflexivity.
Qed.

Lemma bytes_to_double_run (b0 b1 b2 b3 b4 b5 b6 b7 : Z) :
  bytes_at m p [b0; b1; b2; b3; b4; b5; b6; b7] ->
  exists r',
    bytes_to_double host_big_endian p (State m r)
    = (Done (be_combine [b0; b1; b2; b3; b4; b5; b6; b7]), State m r').
Proof.
  intros H. unfold bytes_to_double. rewrite is_big_endian_host.
  destruct host_big_endian; cbn [Z.eqb negb].
  - step_load H 0%nat. step_load H 1%nat. step_load H 2%nat. step_load H 3%nat.
    step_load H 4%nat. step_load H 5%nat. step_load H 6%nat. step_load H 7%nat.
    eexists. reflexivity.
  - step_load H 7%nat. step_load H 6%nat. step_load H 5%nat. step_load H 4%nat.
    step_load H 3%nat. step_load H 2%nat. step_load H 1%nat. step_load H 0%nat.
    eexists. reflexivity.
Qed.

(** On either host the wire bytes are the bit pattern, most significant
    byte first. *)
Lemma float_to_bytes_run (v : Z) :
  0 <= p -> p + 4 <= Z.of_nat (length m) ->
  exists m', float_to_bytes host_big_endian v p (State m r) = (Done tt, State m' r)
             /\ writes m p (be_split 4 v) m'.
Proof.
  intros Hp Hlen. unfold float_to_bytes, object_byte. rewrite is_big_endian_host.
  rewrite be_split_4.
  destruct host_big_endian; cbn [Z.eqb negb Z.mul Z.sub Z.add Z.opp Z.pos_sub Pos.mul];
    rewrite Z.shiftr_0_r; do 3 step_store; last_store; (eexists; split; [reflexivity|]); writes_up.
Qed.

Lemma double_to_bytes_run (v : Z) :
  0 <= p -> p + 8 <= Z.of_nat (length m) ->
  exists m', double_to_bytes host_big_endian v p (State m r) = (Done tt, State m' r)
             /\ writes m p (be_split 8 v) m'.
Proof.
  intros Hp Hlen. unfold double_to_bytes, object_byte. rewrite is_big_endian_host.
  rewrite be_split_8.
  destruct host_big_endian; cbn [Z.eqb negb Z.mul Z.sub Z.add Z.opp Z.pos_sub Pos.mul];
    rewrite Z.shiftr_0_r; do 7 step_store; last_store; (eexists; split; [reflexivity|]); writes_up.
Qed.

End HostRuns.

End PrimitiveRuns.

(** ** Sequencing of runs *)

Lemma seq_writes (e1 e2 : M unit) (m r : list Z) (p q : Z) (bs1 bs2 : list Z) :
  (exists m1, e1 (State m r) = (Done tt, State m1 r) /\ writes m p bs1 m1) ->
  (forall m1, length m1 = length m ->
     exists m2, e2 (State m1 r) = (Done tt, State m2 r) /\ writes m1 q bs2 m2) ->
  q = p + Z.of_nat (length bs1) ->
  exists m2, (e1 ;; e2) (State m r) = (Done tt, State m2 r)
             /\ writes m p (bs1 ++ bs2) m2.
Proof.
  intros (m1 & E1 & W1) H2 Hq.
  destruct (H2 m1 (proj1 W1)) as (m2 & E2 & W2).
  exists m2. split.
  - rewrite (bind_Done _ _ _ _ _ E1). exact E2.
  - eapply writes_app; eassumption.
Qed.

(** Decoding what was just encoded. *)
Lemma decode_encoded {A : Type} (enc : M unit) (dec : M A)
      (s : state) (p : Z) (bs : list Z) (v : A) :
  (exists m', enc (State (mem s) (reads s)) = (Done tt, State m' (reads s))
              /\ writes (mem s) p bs m') ->
  (forall m' r, bytes_at m' p bs -> exists r', dec (State m' r) = (Done v, State m' r')) ->
  result ((enc ;; dec) s) = Done v.
Proof.
  intros (m' & E & W) D. destruct s as [m r]. cbn [mem reads] in *.
  destruct (D m' r (writes_bytes_at _ _ _ _ W)) as (r' & Hd).
  rewrite (bind_Done _ _ _ _ _ E), Hd. reflexivity.
Qed.

Lemma bytes_at_split (m : list Z) (p q : Z) (bs : list Z) (n : nat) :
  bytes_at m p bs -> q = p + Z.of_nat n -> (n <= length bs)%nat ->
  bytes_at m p (take n bs) /\ bytes_at m q (drop n bs).
Proof.
  intros H -> Hn. rewrite <- (take_drop n bs) in H.
  apply bytes_at_app in H. rewrite length_take in H.
  replace (n `min` length bs)%nat with n in H by lia. exact H.
Qed.

(** Splits [H : bytes_at m p bs] after [n] bytes, at the address [q]. *)
Ltac split_bytes H n q H1 H2 :=
  apply (bytes_at_split _ _ q _ n) in H as [H1 H2];
  [ cbn [take drop] in H1, H2 | simpl; lia | simpl; lia ].

Ltac run E := rewrite (bind_Done _ _ _ _ _ E); cbv beta.

(** ** Decoding the wire form of a value *)

Section Wire.

Variables (m r : list Z) (p : Z).

Lemma bytes_to_uint8_wire (v : Z) :
  is_unsigned 8 v -> bytes_at m p (be_split 1 v) ->
  exists r', bytes_to_uint8 p (State m r) = (Done v, State m r').
Proof.
  intros Hv H. destruct (bytes_to_uint8_run m r p _ H) as [r' E].
  exists r'. rewrite E. unfold uint8_t. rewrite (wrap_small 8 v Hv), (wrap_small 8 v Hv).
  reflexivity.
Qed.

Lemma bytes_to_uint16_wire (v : Z) :
  is_unsigned 16 v -> bytes_at m p (be_split 2 v) ->
  exists r', bytes_to_uint16 p (State m r) = (Done v, State m r').
Proof.
  intros Hv H. rewrite be_split_2 in H.
  destruct (bytes_to_uint16_run m r p _ _ H) as [r' E]; try apply byte_uint8_t.
  exists r'. rewrite E, <- be_split_2, (be_split_unsigned 2); [reflexivity|exact Hv].
Qed.

Lemma bytes_to_uint32_wire (v : Z) :
  is_unsigned 32 v -> bytes_at m p (be_split 4 v) ->
  exists r', bytes_to_uint32 p (State m r) = (Done v, State m r').
Proof.
  intros Hv H. rewrite be_split_4 in H.
  destruct (bytes_to_uint32_run m r p _ _ _ _ H) as [r' E]; try apply byte_uint8_t.
  exists r'. rewrite E, <- be_split_4, (be_split_unsigned 4); [reflexivity|exact Hv].
Qed.

Lemma bytes_to_uint64_wire (v : Z) :
  is_unsigned 64 v -> bytes_at m p (be_split 8 v) ->
  exists r', bytes_to_uint64 p (State m r) = (Done v, State m r').
Proof.
  intros Hv H. rewrite be_split_8 in H.
  destruct (bytes_to_uint64_run m r p _ _ _ _ _ _ _ _ H) as [r' E];
    try apply byte_uint8_t.
  exists r'. rewrite E, <- be_split_8, (be_split_unsigned 8); [reflexivity|exact Hv].
Qed.

Lemma bytes_to_int8_wire (v : Z) :
  is_signed 8 v -> bytes_at m p (be_split 1 v) ->
  exists r', bytes_to_int8 p (State m r) = (Done v, State m r').
Proof.
  intros Hv H. destruct (bytes_to_int8_run m r p _ H) as [r' E].
  exists r'. rewrite E. unfold int8_t, uint8_t, wrap.
  rewrite swrap_wrap; [reflexivity|lia|exact Hv].
Qed.

Lemma bytes_to_int16_wire (v : Z) :
  is_signed 16 v -> bytes_at m p (be_split 2 v) ->
  exists r', bytes_to_int16 p (State m r) = (Done v, State m r').
Proof.
  intros Hv H. rewrite be_split_2 in H.
  destruct (bytes_to_int16_run m r p _ _ H) as [r' E].
  exists r'. rewrite E, <- be_split_2.
  rewrite (be_split_signed 2); [reflexivity|lia|exact Hv].
Qed.

Lemma bytes_to_int32_wire (v : Z) :
  is_signed 32 v -> bytes_at m p (be_split 4 v) ->
  exists r', bytes_to_int32 p (State m r) = (Done v, State m r').
Proof.
  intros Hv H. rewrite be_split_4 in H.
  destruct (bytes_to_int32_run m r p _ _ _ _ H) as [r' E].
  exists r'. rewrite E, <- be_split_4.
  rewrite (be_split_signed 4); [reflexivity|lia|exact Hv].
Qed.

Lemma bytes_to_int64_wire (v : Z) :
  is_signed 64 v -> bytes_at m p (be_split 8 v) ->
  exists r', bytes_to_int64 p (State m r) = (Done v, State m r').
Proof.
  intros Hv H. rewrite be_split_8 in H.
  destruct (bytes_to_int64_run m r p _ _ _ _ _ _ _ _ H) as [r' E].
  exists r'. rewrite E, <- be_split_8.
  rewrite (be_split_signed 8); [reflexivity|lia|exact Hv].
Qed.

Lemma bytes_to_float_wire (be : bool) (v : Z) :
  is_unsigned 32 v -> bytes_at m p (be_split 4 v) ->
  exists r', bytes_to_float be p (State m r) = (Done v, State m r').
Proof.
  intros Hv H. rewrite be_split_4 in H.
  destruct (bytes_to_float_run m r p be _ _ _ _ H) as [r' E].
  exists r'. rewrite E, <- be_split_4, (be_split_unsigned 4); [reflexivity|exact Hv].
Qed.

Lemma bytes_to_double_wire (be : bool) (v : Z) :
  is_unsigned 64 v -> bytes_at m p (be_split 8 v) ->
  exists r', bytes_to_double be p (State m r) = (Done v, State m r').
Proof.
  intros Hv H. rewrite be_split_8 in H.
  destruct (bytes_to_double_run m r p be _ _ _ _ _ _ _ _ H) as [r' E].
  exists r'. rewrite E, <- be_split_8, (be_split_unsigned 8); [reflexivity|exact Hv].
Qed.

End Wire.

(** ** Runs of the domain codec *)

Lemma bytes_at_app_at (m : list Z) (p q : Z) (bs1 bs2 : list Z) :
  bytes_at m p (bs1 ++ bs2) -> q = p + Z.of_nat (length bs1) ->
  bytes_at m p bs1 /\ bytes_at m q bs2.
Proof. intros H ->. apply bytes_at_app, H. Qed.

Lemma wire_hh_mm_ss_length (v : hh_mm_ss) : length (wire_hh_mm_ss v) = 3%nat.
Proof. reflexivity. Qed.

Ltac wire_length :=
  rewrite ?length_app, ?wire_hh_mm_ss_length, ?be_split_length; simpl; lia.

(** Splits [H : bytes_at m p (bs1 ++ bs2)], the second part at [q]. *)
Ltac split_wire H q H1 H2 :=
  apply (bytes_at_app_at _ _ q) in H as [H1 H2]; [ | wire_length ].

Lemma bytes_to_hh_mm_ss_wire (m r : list Z) (p : Z) (v : hh_mm_ss) :
  hh_mm_ss_ok v -> bytes_at m p (wire_hh_mm_ss v) ->
  exists r', bytes_to_hh_mm_ss p (State m r) = (Done v, State m r').
Proof.
  intros (Hh & Hm & Hs) H. unfold wire_hh_mm_ss in H.
  split_wire H (p + 1) H0 H. split_wire H (p + 2) H1 H2.
  unfold bytes_to_hh_mm_ss.
  destruct (bytes_to_uint8_wire m r p _ Hh H0) as [r0 E0]. run E0.
  destruct (bytes_to_uint8_wire m r0 _ _ Hm H1) as [r1 E1]. run E1.
  destruct (bytes_to_uint8_wire m r1 _ _ Hs H2) as [r2 E2]. run E2.
  exists r2. destruct v. reflexivity.
Qed.

Lemma hh_mm_ss_to_bytes_run (m r : list Z) (p : Z) (v : hh_mm_ss) :
  0 <= p -> p + 3 <= Z.of_nat (length m) ->
  exists m', hh_mm_ss_to_bytes v p (State m r) = (Done tt, State m' r)
             /\ writes m p (wire_hh_mm_ss v) m'.
Proof.
  intros Hp Hlen. unfold hh_mm_ss_to_bytes, wire_hh_mm_ss.
  apply (seq_writes _ _ m r p (p + 1)); [| |wire_length].
  - apply uint8_to_bytes_run; lia.
  - intros m1 L1.
    apply (seq_writes _ _ m1 r (p + 1) (p + 2)); [| |wire_length].
    + apply uint8_to_bytes_run; lia.
    + intros m2 L2. apply uint8_to_bytes_run; lia.
Qed.

Lemma bytes_to_time_range_wire (m r : list Z) (p : Z) (v : time_range) :
  time_range_ok v -> bytes_at m p (wire_time_range v) ->
  exists r', bytes_to_time_range p (State m r) = (Done v, State m r').
Proof.
  intros (Hf & Ht) H. unfold wire_time_range in H.
  split_wire H (p + 3) H0 H1.
  unfold bytes_to_time_range.
  destruct (bytes_to_hh_mm_ss_wire m r p _ Hf H0) as [r0 E0]. run E0.
  destruct (bytes_to_hh_mm_ss_wire m r0 _ _ Ht H1) as [r1 E1]. run E1.
  exists r1. destruct v. reflexivity.
Qed.

Lemma time_range_to_bytes_run (m r : list Z) (p : Z) (v : time_range) :
  0 <= p -> p + 6 <= Z.of_nat (length m) ->
  exists m', time_range_to_bytes v p (State m r) = (Done tt, State m' r)
             /\ writes m p (wire_time_range v) m'.
Proof.
  intros Hp Hlen. unfold time_range_to_bytes, wire_time_range.
  apply (seq_writes _ _ m r p (p + 3)); [| |wire_length].
  - apply hh_mm_ss_to_bytes_run; lia.
  - intros m1 L1. apply hh_mm_ss_to_bytes_run; lia.
Qed.

Lemma bytes_to_date_range_wire (m r : list Z) (p : Z) (v : date_range) :
  date_range_ok v -> bytes_at m p (wire_date_range v) ->
  exists r', bytes_to_date_range p (State m r) = (Done v, State m r').
Proof.
  intros (Hf & Ht) H. unfold wire_date_range in H.
  split_wire H (p + 8) H0 H1.
  unfold bytes_to_date_range, bytes_to_time_point, sizeof_time_point.
  destruct (bytes_to_int64_wire m r p _ Hf H0) as [r0 E0]. run E0.
  destruct (bytes_to_int64_wire m r0 _ _ Ht H1) as [r1 E1]. run E1.
  exists r1. destruct v. reflexivity.
Qed.

Lemma date_range_to_bytes_run (m r : list Z) (p : Z) (v : date_range) :
  date_range_ok v -> 0 <= p -> p + 16 <= Z.of_nat (length m) ->
  exists m', date_range_to_bytes v p (State m r) = (Done tt, State m' r)
             /\ writes m p (wire_date_range v) m'.
Proof.
  intros (Hf & Ht) Hp Hlen.
  unfold date_range_to_bytes, time_point_to_bytes, sizeof_time_point, wire_date_range.
  apply (seq_writes _ _ m r p (p + 8)); [| |wire_length].
  - apply int64_to_bytes_run; [exact Hf|lia..].
  - intros m1 L1. apply int64_to_bytes_run; [exact Ht|lia..].
Qed.

Lemma bytes_to_zoned_time_wire (m r : list Z) (p : Z) (v : zoned_time) :
  zoned_time_ok v -> bytes_at m p (wire_zoned_time v) ->
  exists r', bytes_to_zoned_time p (State m r) = (Done v, State m r').
Proof.
  intros (Ht & Ho) H. unfold wire_zoned_time in H.
  split_wire H (p + 8) H0 H1.
  unfold bytes_to_zoned_time, bytes_to_time_point, bytes_to_zone_offset,
    sizeof_time_point.
  destruct (bytes_to_int64_wire m r p _ Ht H0) as [r0 E0]. run E0.
  destruct (bytes_to_int16_wire m r0 _ _ Ho H1) as [r1 E1]. run E1.
  exists r1. destruct v. reflexivity.
Qed.

Lemma zoned_time_to_bytes_run (m r : list Z) (p : Z) (v : zoned_time) :
  zoned_time_ok v -> 0 <= p -> p + 10 <= Z.of_nat (length m) ->
  exists m', zoned_time_to_bytes v p (State m r) = (Done tt, State m' r)
             /\ writes m p (wire_zoned_time v) m'.
Proof.
  intros (Ht & Ho) Hp Hlen.
  unfold zoned_time_to_bytes, time_point_to_bytes, zone_offset_to_bytes,
    sizeof_time_point, wire_zoned_time.
  apply (seq_writes _ _ m r p (p + 8)); [| |wire_length].
  - apply int64_to_bytes_run; [exact Ht|lia..].
  - intros m1 L1. apply int16_to_bytes_run; [exact Ho|lia..].
Qed.

(** Fixed point: only [unscaled] is on the wire. *)
Lemma bytes_to_fixp32_wire (m r : list Z) (p : Z) (u scale : Z) :
  is_signed 32 u -> bytes_at m p (be_split 4 u) ->
  exists r', bytes_to_fixp32 p scale (State m r) = (Done (Fixp32 u scale), State m r').
Proof.
  intros Hu H. unfold bytes_to_fixp32.
  destruct (bytes_to_int32_wire m r p _ Hu H) as [r0 E0]. run E0.
  exists r0. reflexivity.
Qed.

Lemma fixp32_to_bytes_run (m r : list Z) (p : Z) (v : fixp32) :
  is_signed 32 (unscaled32 v) -> 0 <= p -> p + 4 <= Z.of_nat (length m) ->
  exists m', fixp32_to_bytes v p (State m r) = (Done tt, State m' r)
             /\ writes m p (be_split 4 (unscaled32 v)) m'.
Proof. intros Hu Hp Hlen. unfold fixp32_to_bytes. apply int32_to_bytes_run; assumption. Qed.

Lemma bytes_to_fixp64_wire (m r : list Z) (p : Z) (u scale : Z) :
  is_signed 64 u -> bytes_at m p (be_split 8 u) ->
  exists r', bytes_to_fixp64 p scale (State m r) = (Done (Fixp64 u scale), State m r').
Proof.
  intros Hu H. unfold bytes_to_fixp64.
  destruct (bytes_to_int64_wire m r p _ Hu H) as [r0 E0]. run E0.
  exists r0. reflexivity.
Qed.

Lemma fixp64_to_bytes_run (m r : list Z) (p : Z) (v : fixp64) :
  is_signed 64 (unscaled64 v) -> 0 <= p -> p + 8 <= Z.of_nat (length m) ->
  exists m', fixp64_to_bytes v p (State m r) = (Done tt, State m' r)
             /\ writes m p (be_split 8 (unscaled64 v)) m'.
Proof. intros Hu Hp Hlen. unfold fixp64_to_bytes. apply int64_to_bytes_run; assumption. Qed.

(** ** Round trips *)

(** From a run of the encoder and a run of the decoder on its wire form. *)
Lemma roundtrips_intro {A : Type} (ok : A -> Prop) (n : Z)
      (enc : A -> Z -> M unit) (dec : Z -> M A) (wire : A -> list Z) :
  (forall m r p v, ok v -> 0 <= p -> p + n <= Z.of_nat (length m) ->
     exists m', enc v p (State m r) = (Done tt, State m' r) /\ writes m p (wire v) m') ->
  (forall m r p v, ok v -> bytes_at m p (wire v) ->
     exists r', dec p (State m r) = (Done v, State m r')) ->
  roundtrips ok n enc dec.
Proof.
  intros Henc Hdec s p v [Hp Hn] Hv.
  apply (decode_encoded _ _ s p (wire v)).
  - apply Henc; assumption.
  - intros m' r. apply Hdec. exact Hv.
Qed.

Lemma uint8_roundtrip : roundtrips (is_unsigned 8) 1 uint8_to_bytes bytes_to_uint8.
Proof.
  apply (roundtrips_intro _ _ _ _ (be_split 1)); intros.
  - apply uint8_to_bytes_run; lia.
  - apply bytes_to_uint8_wire; assumption.
Qed.

Lemma uint16_roundtrip : roundtrips (is_unsigned 16) 2 uint16_to_bytes bytes_to_uint16.
Proof.
  apply (roundtrips_intro _ _ _ _ (be_split 2)); intros.
  - apply uint16_to_bytes_run; lia.
  - apply bytes_to_uint16_wire; assumption.
Qed.

Lemma uint32_roundtrip : roundtrips (is_unsigned 32) 4 uint32_to_bytes bytes_to_uint32.
Proof.
  apply (roundtrips_intro _ _ _ _ (be_split 4)); intros.
  - apply uint32_to_bytes_run; lia.
  - apply bytes_to_uint32_wire; assumption.
Qed.

Lemma uint64_roundtrip : roundtrips (is_unsigned 64) 8 uint64_to_bytes bytes_to_uint64.
Proof.
  apply (roundtrips_intro _ _ _ _ (be_split 8)); intros.
  - apply uint64_to_bytes_run; lia.
  - apply bytes_to_uint64_wire; assumption.
Qed.

Lemma int8_roundtrip : roundtrips (is_signed 8) 1 int8_to_bytes bytes_to_int8.
Proof.
  apply (roundtrips_intro _ _ _ _ (be_split 1)); intros.
  - apply int8_to_bytes_run; lia.
  - apply bytes_to_int8_wire; assumption.
Qed.

Lemma int16_roundtrip : roundtrips (is_signed 16) 2 int16_to_bytes bytes_to_int16.
Proof.
  apply (roundtrips_intro _ _ _ _ (be_split 2)); intros.
  - apply int16_to_bytes_run; [assumption|lia..].
  - apply bytes_to_int16_wire; assumption.
Qed.

Lemma int32_roundtrip : roundtrips (is_signed 32) 4 int32_to_bytes bytes_to_int32.
Proof.
  apply (roundtrips_intro _ _ _ _ (be_split 4)); intros.
  - apply int32_to_bytes_run; [assumption|lia..].
  - apply bytes_to_int32_wire; assumption.
Qed.

Lemma int64_roundtrip : roundtrips (is_signed 64) 8 int64_to_bytes bytes_to_int64.
Proof.
  apply (roundtrips_intro _ _ _ _ (be_split 8)); intros.
  - apply int64_to_bytes_run; [assumption|lia..].
  - apply bytes_to_int64_wire; assumption.
Qed.

Lemma bool_roundtrip : roundtrips bool_ok 1 bool_to_bytes bytes_to_bool.
Proof.
  apply (roundtrips_intro _ _ _ _ (fun v => [v])); intros m r p v Hv.
  - intros. apply bool_to_bytes_run; lia.
  - intros H. destruct (bytes_to_bool_run m r p v H) as [r' E].
    exists r'. rewrite E. destruct Hv as [-> | ->]; reflexivity.
Qed.

Lemma float_roundtrip (host_big_endian : bool) :
  roundtrips (is_unsigned 32) 4
    (float_to_bytes host_big_endian) (bytes_to_float host_big_endian).
Proof.
  apply (roundtrips_intro _ _ _ _ (be_split 4)); intros.
  - apply float_to_bytes_run; lia.
  - apply bytes_to_float_wire; assumption.
Qed.

Lemma double_roundtrip (host_big_endian : bool) :
  roundtrips (is_unsigned 64) 8
    (double_to_bytes host_big_endian) (bytes_to_double host_big_endian).
Proof.
  apply (roundtrips_intro _ _ _ _ (be_split 8)); intros.
  - apply double_to_bytes_run; lia.
  - apply bytes_to_double_wire; assumption.
Qed.

Lemma time_point_roundtrip :
  roundtrips (is_signed 64) 8 time_point_to_bytes bytes_to_time_point.
Proof. exact int64_roundtrip. Qed.

Lemma zone_offset_roundtrip :
  roundtrips (is_signed 16) 2 zone_offset_to_bytes bytes_to_zone_offset.
Proof. exact int16_roundtrip. Qed.

Lemma hh_mm_ss_roundtrip : roundtrips hh_mm_ss_ok 3 hh_mm_ss_to_bytes bytes_to_hh_mm_ss.
Proof.
  apply (roundtrips_intro _ _ _ _ wire_hh_mm_ss); intros.
  - apply hh_mm_ss_to_bytes_run; lia.
  - apply bytes_to_hh_mm_ss_wire; assumption.
Qed.

Lemma time_range_roundtrip :
  roundtrips time_range_ok 6 time_range_to_bytes bytes_to_time_range.
Proof.
  apply (roundtrips_intro _ _ _ _ wire_time_range); intros.
  - apply time_range_to_bytes_run; lia.
  - apply bytes_to_time_range_wire; assumption.
Qed.

Lemma date_range_roundtrip :
  roundtrips date_range_ok 16 date_range_to_bytes bytes_to_date_range.
Proof.
  apply (roundtrips_intro _ _ _ _ wire_date_range); intros.
  - apply date_range_to_bytes_run; [assumption|lia..].
  - apply bytes_to_date_range_wire; assumption.
Qed.

Lemma zoned_time_roundtrip :
  roundtrips zoned_time_ok 10 zoned_time_to_bytes bytes_to_zoned_time.
Proof.
  apply (roundtrips_intro _ _ _ _ wire_zoned_time); intros.
  - apply zoned_time_to_bytes_run; [assumption|lia..].
  - apply bytes_to_zoned_time_wire; assumption.
Qed.

(** ** Claims on the codec *)

(** C6. Decoding the bytes written by the encoder gives the value back, for
    every value of every primitive and domain type: unsigned and signed
    integers of 8, 16, 32 and 64 bits, bool, float and double (as bit
    patterns, on a host of either byte order), time_point, hh_mm_ss,
    date_range, time_range, zone_offset and zoned_time. The fields of an
    hh_mm_ss are any bytes; no calendar range is imposed. *)
Theorem codec_roundtrip (host_big_endian : bool) :
  roundtrips (is_unsigned 8) 1 uint8_to_bytes bytes_to_uint8 /\
  roundtrips (is_unsigned 16) 2 uint16_to_bytes bytes_to_uint16 /\
  roundtrips (is_unsigned 32) 4 uint32_to_bytes bytes_to_uint32 /\
  roundtrips (is_unsigned 64) 8 uint64_to_bytes bytes_to_uint64 /\
  roundtrips (is_signed 8) 1 int8_to_bytes bytes_to_int8 /\
  roundtrips (is_signed 16) 2 int16_to_bytes bytes_to_int16 /\
  roundtrips (is_signed 32) 4 int32_to_bytes bytes_to_int32 /\
  roundtrips (is_signed 64) 8 int64_to_bytes bytes_to_int64 /\
  roundtrips bool_ok 1 bool_to_bytes bytes_to_bool /\
  roundtrips (is_unsigned 32) 4
    (float_to_bytes host_big_endian) (bytes_to_float host_big_endian) /\
  roundtrips (is_unsigned 64) 8
    (double_to_bytes host_big_endian) (bytes_to_double host_big_endian) /\
  roundtrips (is_signed 64) 8 time_point_to_bytes bytes_to_time_point /\
  roundtrips hh_mm_ss_ok 3 hh_mm_ss_to_bytes bytes_to_hh_mm_ss /\
  roundtrips date_range_ok 16 date_range_to_bytes bytes_to_date_range /\
  roundtrips time_range_ok 6 time_range_to_bytes bytes_to_time_range /\
  roundtrips (is_signed 16) 2 zone_offset_to_bytes bytes_to_zone_offset /\
  roundtrips zoned_time_ok 10 zoned_time_to_bytes bytes_to_zoned_time.
Proof.
  repeat apply conj.
  - exact uint8_roundtrip.
  - exact uint16_roundtrip.
  - exact uint32_roundtrip.
  - exact uint64_roundtrip.
  - exact int8_roundtrip.
  - exact int16_roundtrip.
  - exact int32_roundtrip.
  - exact int64_roundtrip.
  - exact bool_roundtrip.
  - exact (float_roundtrip host_big_endian).
  - exact (double_roundtrip host_big_endian).
  - exact time_point_roundtrip.
  - exact hh_mm_ss_roundtrip.
  - exact date_range_roundtrip.
  - exact time_range_roundtrip.
  - exact zone_offset_roundtrip.
  - exact zoned_time_roundtrip.
Qed.

Lemma codec_roundtrip_witness :
  result ((int64_to_bytes (- 2 ^ 63) 0 ;; bytes_to_int64 0) (init (repeat 0 8%nat)))
  = Done (- 2 ^ 63)
  /\ result ((uint32_to_bytes (2 ^ 32 - 1) 1 ;; bytes_to_uint32 1) (init [7; 7; 7; 7; 7]))
     = Done (2 ^ 32 - 1)
  /\ result ((hh_mm_ss_to_bytes (Hh_mm_ss 24 60 60) 0 ;; bytes_to_hh_mm_ss 0)
               (init [0; 0; 0]))
     = Done (Hh_mm_ss 24 60 60)
  /\ result ((hh_mm_ss_to_bytes (Hh_mm_ss 255 255 255) 0 ;; bytes_to_hh_mm_ss 0)
               (init [0; 0; 0]))
     = Done (Hh_mm_ss 255 255 255)
  /\ result ((float_to_bytes false 0x7FC00001 0 ;; bytes_to_float false 0)
               (init [0; 0; 0; 0]))
     = Done 0x7FC00001.
Proof.
  destruct (codec_roundtrip false)
    as (_ & _ & U32 & _ & _ & _ & _ & I64 & _ & F & _ & _ & T & _).
  repeat apply conj.
  - apply I64; unfold in_bounds, is_signed; simpl; lia.
  - apply U32; unfold in_bounds, is_unsigned; simpl; lia.
  - apply T; unfold in_bounds, hh_mm_ss_ok, is_unsigned; simpl; lia.
  - apply T; unfold in_bounds, hh_mm_ss_ok, is_unsigned; simpl; lia.
  - apply F; unfold in_bounds, is_unsigned; simpl; lia.
Defined.

(** C7. A fixed-point value is encoded as its [unscaled] field alone, and
    decoded with the scale of the call: encoding [{u, s1}] and decoding with
    [s2] gives [{u, s2}], for fixp32 and for fixp64, and the run of the
    encoder is the same whatever the scale field holds. At [u = 5],
    [s1 = 2], [s2 = 7] the result is [{5, 7}]. *)
Theorem fixp_scale_out_of_band (s : state) (p : Z) (u s1 s2 : Z) :
  (in_bounds s p 4 -> is_signed 32 u ->
   result ((fixp32_to_bytes (Fixp32 u s1) p ;; bytes_to_fixp32 p s2) s)
   = Done (Fixp32 u s2))
  /\ (in_bounds s p 8 -> is_signed 64 u ->
      result ((fixp64_to_bytes (Fixp64 u s1) p ;; bytes_to_fixp64 p s2) s)
      = Done (Fixp64 u s2))
  /\ fixp32_to_bytes (Fixp32 u s1) p s = fixp32_to_bytes (Fixp32 u s2) p s
  /\ fixp64_to_bytes (Fixp64 u s1) p s = fixp64_to_bytes (Fixp64 u s2) p s.
Proof.
  repeat apply conj.
  - intros [Hp Hn] Hu. apply (decode_encoded _ _ s p (be_split 4 u)).
    + apply fixp32_to_bytes_run; [exact Hu|lia..].
    + intros m' r. apply bytes_to_fixp32_wire. exact Hu.
  - intros [Hp Hn] Hu. apply (decode_encoded _ _ s p (be_split 8 u)).
    + apply fixp64_to_bytes_run; [exact Hu|lia..].
    + intros m' r. apply bytes_to_fixp64_wire. exact Hu.
  - reflexivity.
  - reflexivity.
Qed.

Lemma fixp_scale_out_of_band_witness :
  result ((fixp32_to_bytes (Fixp32 5 2) 0 ;; bytes_to_fixp32 0 7) (init [0; 0; 0; 0]))
  = Done (Fixp32 5 7)
  /\ result ((fixp64_to_bytes (Fixp64 5 2) 0 ;; bytes_to_fixp64 0 7)
               (init (repeat 0 8%nat)))
     = Done (Fixp64 5 7)
  /\ result ((fixp64_to_bytes (Fixp64 (- 2 ^ 63) (-1)) 0 ;; bytes_to_fixp64 0 7)
               (init (repeat 0 8%nat)))
     = Done (Fixp64 (- 2 ^ 63) 7).
Proof.
  repeat apply conj.
  - apply (fixp_scale_out_of_band (init [0; 0; 0; 0]) 0 5 2 7).
    + unfold in_bounds. simpl. lia.
    + unfold is_signed. lia.
  - apply (fixp_scale_out_of_band (init (repeat 0 8%nat)) 0 5 2 7).
    + unfold in_bounds. simpl. lia.
    + unfold is_signed. lia.
  - apply (fixp_scale_out_of_band (init (repeat 0 8%nat)) 0 (- 2 ^ 63) (-1) 7).
    + unfold in_bounds. simpl. lia.
    + unfold is_signed. lia.
Defined.

(** ** Bitmap option checker *)

Lemma land_pow2_testbit (b k : Z) :
  0 <= k -> (Z.land b (2 ^ k) =? 0) = negb (Z.testbit b k).
Proof.
  intros Hk. destruct (Z.testbit b k) eqn:E; cbn [negb].
  - apply Z.eqb_neq. intros H0.
    assert (Z.testbit (Z.land b (2 ^ k)) k = true) as Hbit
      by (rewrite Z.land_spec, E, Z.pow2_bits_true by exact Hk; reflexivity).
    rewrite H0, Z.bits_0 in Hbit. discriminate.
  - apply Z.eqb_eq. apply Z.bits_inj'. intros n Hn.
    rewrite Z.land_spec, Z.bits_0, Z.pow2_bits_eqb by exact Hk.
    destruct (Z.eqb_spec k n) as [<-|Hne].
    + rewrite E. reflexivity.
    + apply andb_false_r.
Qed.

Lemma option_mask (k : Z) :
  0 <= k < 8 -> uint8_t (int32_t (0x01 ≪ size_t k)) = 2 ^ k.
Proof.
  intros Hk. unfold size_t. rewrite (wrap_small 64 k) by lia.
  rewrite Z.shiftl_mul_pow2, Z.mul_1_l by lia.
  assert (2 ^ k <= 2 ^ 7) by (apply Z.pow_le_mono_r; lia).
  assert (0 < 2 ^ k) by (apply Z.pow_pos_nonneg; lia).
  unfold int32_t. rewrite swrap_small by (unfold is_signed; lia).
  unfold uint8_t. apply wrap_small. lia.
Qed.

Lemma wrap_le (w x : Z) : 0 <= w -> 0 <= x -> wrap w x <= x.
Proof.
  intros Hw Hx. unfold wrap.
  apply Z.mod_le; [exact Hx | apply Z.pow_pos_nonneg; lia].
Qed.

(** C9. When [option < bitmap_len * 8] holds as the assertion states it,
    [is_option_selected] reads byte [option / 8] of the bitmap and returns 1
    exactly when its bit [option mod 8] is set, 0 otherwise; the test is the
    mask [1 << (option mod 8)]. *)
Theorem is_option_selected_bit (s : state) (bitmap bitmap_len option : Z) :
  is_unsigned 8 option ->
  0 <= bitmap_len ->
  in_bounds s bitmap bitmap_len ->
  option < size_t (bitmap_len * 8) ->
  exists b : Z,
    mem s !! Z.to_nat (bitmap + option / 8) = Some b
    /\ result (is_option_selected bitmap bitmap_len option s)
       = Done (Z.b2z (Z.testbit b (option mod 8)))
    /\ (Z.testbit b (option mod 8) = true <-> Z.land b (1 ≪ (option mod 8)) <> 0).
Proof.
  intros [Ho0 Ho] Hlen [Hb Hin] Hpre. destruct s as [m r]. cbn [mem] in *.
  assert (size_t (bitmap_len * 8) <= bitmap_len * 8) as Hw
    by (apply wrap_le; lia).
  assert (0 <= option / 8 < bitmap_len) as Hidx.
  { split; [apply Z.div_pos; lia|]. apply Z.div_lt_upper_bound; lia. }
  assert (0 <= option mod 8 < 8) as Hbit by (apply Z.mod_pos_bound; lia).
  assert (Z.to_nat (bitmap + option / 8) < length m)%nat as Hlt by lia.
  destruct (lookup_lt_is_Some_2 m _ Hlt) as [b Hlook].
  exists b. split; [exact Hlook|]. split.
  - unfold is_option_selected, assert.
    destruct (Z.ltb_spec option (size_t (bitmap_len * 8))) as [_|Hge]; [|lia].
    unfold bind at 1. cbv beta iota.
    assert (option / 8 < 256) by (apply Z.div_lt_upper_bound; lia).
    assert (size_t (option / 8) = option / 8) as ->
      by (apply wrap_small; lia).
    assert (0 <= bitmap + option / 8) as Ha by lia.
    rewrite (bind_Done _ _ _ _ _ (load_Done m r _ b Ha Hlook)).
    cbv beta zeta. unfold ret, result. cbn [fst].
    rewrite option_mask by exact Hbit.
    rewrite land_pow2_testbit by lia.
    destruct (Z.testbit b (option mod 8)); reflexivity.
  - rewrite Z.shiftl_mul_pow2, Z.mul_1_l by lia.
    pose proof (land_pow2_testbit b (option mod 8) ltac:(lia)) as Hl.
    destruct (Z.testbit b (option mod 8)); cbn [negb] in Hl.
    + apply Z.eqb_neq in Hl. split; [intros _; exact Hl | reflexivity].
    + apply Z.eqb_eq in Hl. split; [discriminate | intros Hne; contradiction].
Qed.

Lemma is_option_selected_bit_witness :
  result (is_option_selected 0 1 0 (init [5])) = Done 1
  /\ result (is_option_selected 0 1 1 (init [5])) = Done 0
  /\ result (is_option_selected 0 1 2 (init [5])) = Done 1.
Proof.
  assert (forall o, 0 <= o < 8 ->
            result (is_option_selected 0 1 o (init [5])) = Done (Z.b2z (Z.testbit 5 o)))
    as H.
  { intros o Ho.
    destruct (is_option_selected_bit (init [5]) 0 1 o) as (b & Hb & R & _).
    - unfold is_unsigned. lia.
    - lia.
    - unfold in_bounds. simpl. lia.
    - change (size_t (1 * 8)) with 8. lia.
    - rewrite R. rewrite Z.mod_small by lia.
      replace (0 + o / 8) with 0 in Hb by (rewrite Z.div_small; lia).
      simpl in Hb. injection Hb as <-. reflexivity. }
  repeat apply conj.
  - apply (H 0). lia.
  - apply (H 1). lia.
  - apply (H 2). lia.
Defined.

(** ** Inversion of runs *)

Lemma bind_inv {A B : Type} (m : M A) (k : A -> M B) (s s' : state) (b : B) :
  bind m k s = (Done b, s') ->
  exists a s1, m s = (Done a, s1) /\ k a s1 = (Done b, s').
Proof.
  unfold bind. destruct (m s) as [[a| | |] s1]; intros H; try discriminate.
  exists a, s1. split; [reflexivity | exact H].
Qed.

Lemma ret_inv {A : Type} (a b : A) (s s' : state) :
  ret a s = (Done b, s') -> a = b /\ s = s'.
Proof. unfold ret. intros H. injection H as -> ->. split; reflexivity. Qed.

Lemma load_inv (a b : Z) (s s' : state) :
  load a s = (Done b, s') ->
  0 <= a /\ mem s !! Z.to_nat a = Some b /\ s' = State (mem s) (reads s ++ [a]).
Proof.
  unfold load. destruct (Z.ltb_spec a 0) as [Hlt|Hge]; [discriminate|].
  destruct (mem s !! Z.to_nat a) as [c|]; [|discriminate].
  intros H. injection H as -> <-. repeat split. exact Hge.
Qed.

Lemma load_mem (a b : Z) (s s' : state) :
  load a s = (Done b, s') -> mem s' = mem s.
Proof. intros H. apply load_inv in H as (_ & _ & ->). reflexivity. Qed.

(** Takes [H : bind m k s = (Done b, s')] apart. *)
Ltac inv_bind H a s1 H1 :=
  apply bind_inv in H as (a & s1 & H1 & H).

Ltac inv_ret H :=
  apply ret_inv in H as [H ?]; simplify_eq.

(** ** The decoders only read *)

Lemma bytes_to_uint32_mem (p v : Z) (s s' : state) :
  bytes_to_uint32 p s = (Done v, s') -> mem s' = mem s.
Proof.
  unfold bytes_to_uint32. intros H.
  inv_bind H b0 s0 H0. inv_bind H b1 s1 H1. inv_bind H b2 s2 H2. inv_bind H b3 s3 H3.
  inv_ret H.
  rewrite (load_mem _ _ _ _ H3), (load_mem _ _ _ _ H2),
    (load_mem _ _ _ _ H1), (load_mem _ _ _ _ H0).
  reflexivity.
Qed.

Lemma strncmp_mem (n : nat) (s2 : list Z) (s1 c : Z) (s s' : state) :
  strncmp s1 s2 n s = (Done c, s') -> mem s' = mem s.
Proof.
  revert s2 s1 s. induction n as [|n IH]; intros s2 s1 s H; cbn [strncmp] in H.
  - inv_ret H. reflexivity.
  - inv_bind H c1 s0 H0. apply load_mem in H0.
    destruct (negb (c1 =? hd 0 s2)); [inv_ret H; exact H0|].
    destruct (c1 =? 0); [inv_ret H; exact H0|].
    apply IH in H. congruence.
Qed.

Lemma type_valid_mem (p : pointer) (len v : Z) (s s' : state) :
  type_valid p len s = (Done v, s') -> mem s' = mem s.
Proof.
  unfold type_valid, starts_with. destruct p as [|a]; intros H.
  - inv_ret H. reflexivity.
  - destruct (len <? strlen RECORD_TYPE_SCHEME); [inv_ret H; reflexivity|].
    inv_bind H c s0 H0. inv_ret H. eapply strncmp_mem, H0.
Qed.

Lemma wrong_type_mem (rec : ndef_record) (b : bool) (s s' : state) :
  wrong_type rec s = (Done b, s') -> mem s' = mem s.
Proof.
  unfold wrong_type. intros H.
  destruct (negb (tnf rec =? TNF_URI)); [inv_ret H; reflexivity|].
  inv_bind H v s0 H0. inv_ret H. eapply type_valid_mem, H0.
Qed.

(** ** The type check *)

Lemma bytes_at_cons (m : list Z) (p b : Z) (bs : list Z) :
  bytes_at m p (b :: bs) <->
  0 <= p /\ m !! Z.to_nat p = Some b /\ bytes_at m (p + 1) bs.
Proof.
  change (b :: bs) with ([b] ++ bs). rewrite bytes_at_app.
  change (Z.of_nat (length [b])) with 1. unfold bytes_at. split.
  - intros [[Hp H0] H]. repeat split; try lia.
    + specialize (H0 0%nat b eq_refl). rewrite Nat.add_0_r in H0. exact H0.
    + apply H.
  - intros (Hp & H0 & H). repeat split; try lia.
    + intros [|k] c Hk; [|discriminate]. injection Hk as <-.
      rewrite Nat.add_0_r. exact H0.
    + apply H.
Qed.

(** [strncmp] against a literal without NUL, over its whole length, is 0
    exactly when the memory holds the literal. *)
Lemma strncmp_spec (s2 : list Z) (s1 c : Z) (s s' : state) :
  Forall (fun x => x <> 0) s2 ->
  strncmp s1 s2 (length s2) s = (Done c, s') ->
  (c = 0 <-> s2 = [] \/ bytes_at (mem s) s1 s2).
Proof.
  revert s1 s. induction s2 as [|x s2 IH]; intros s1 s Hnz H; cbn [strncmp length] in H.
  - inv_ret H. split; [left; reflexivity | reflexivity].
  - inv_bind H c1 s0 H0. apply load_inv in H0 as (Hs1 & Hc1 & ->).
    apply Forall_cons in Hnz as [Hx Hnz]. cbn [hd tl] in H.
    destruct (Z.eqb_spec c1 x) as [->|Hne]; cbn [negb] in H.
    + destruct (Z.eqb_spec x 0) as [E|_]; [contradiction|].
      apply IH in H; [|exact Hnz]. cbn [mem] in H. rewrite H.
      rewrite bytes_at_cons. split.
      * intros Hor. right. split; [exact Hs1|]. split; [exact Hc1|].
        destruct Hor as [->|Hat]; [apply bytes_at_nil; lia | exact Hat].
      * intros [Hnil|(_ & _ & Hat)]; [discriminate | right; exact Hat].
    + inv_ret H. split; [lia|].
      intros [Hnil|Hat]; [discriminate|].
      apply bytes_at_cons in Hat as (_ & Hat & _). congruence.
Qed.

Lemma scheme_no_nul : Forall (fun x => x <> 0) RECORD_TYPE_SCHEME.
Proof.
  vm_compute.
  repeat (apply Forall_cons; split; [intros E; discriminate E|]).
  constructor.
Qed.

(** [type_valid] answers non-zero exactly when the [len] bytes at the
    pointer start with the scheme. *)
Lemma type_valid_spec (p : pointer) (len v : Z) (s s' : state) :
  type_valid p len s = (Done v, s') ->
  (v <> 0 <->
   exists a, p = Ptr a /\ Z.of_nat (length RECORD_TYPE_SCHEME) <= len
             /\ bytes_at (mem s) a RECORD_TYPE_SCHEME).
Proof.
  unfold type_valid, starts_with. destruct p as [|a]; intros H.
  - inv_ret H. split; [lia|]. intros (a & Ha & _). discriminate.
  - change (strlen RECORD_TYPE_SCHEME) with (Z.of_nat (length RECORD_TYPE_SCHEME)) in H.
    rewrite Nat2Z.id in H.
    destruct (Z.ltb_spec len (Z.of_nat (length RECORD_TYPE_SCHEME))) as [Hlt|Hge].
    + inv_ret H. split; [lia|]. intros (a' & _ & Hlen & _). lia.
    + inv_bind H c s0 H0. inv_ret H.
      apply strncmp_spec in H0; [|exact scheme_no_nul].
      split.
      * intros Hv. exists a. split; [reflexivity|]. split; [exact Hge|].
        destruct (Z.eqb_spec c 0) as [Hc|Hc]; [|contradiction].
        apply H0 in Hc as [Hnil|Hat]; [discriminate | exact Hat].
      * intros (a' & Ha & _ & Hat). injection Ha as <-.
        assert (c = 0) as -> by (apply H0; right; exact Hat). discriminate.
Qed.

Lemma wrong_type_spec (rec : ndef_record) (b : bool) (s s' : state) :
  wrong_type rec s = (Done b, s') -> (b = false <-> type_ok (mem s) rec).
Proof.
  unfold wrong_type, type_ok. intros H.
  destruct (Z.eqb_spec (tnf rec) TNF_URI) as [Htnf|Htnf]; cbn [negb] in H.
  - inv_bind H v s0 H0. inv_ret H. apply type_valid_spec in H0.
    rewrite <- H0. destruct (Z.eqb_spec v 0) as [Hv|Hv].
    + split; [discriminate|]. intros [_ Hne]. contradiction.
    + split; [intros _; split; assumption | reflexivity].
  - inv_ret H. split; [discriminate|]. intros [Heq _]. contradiction.
Qed.

(** The type check runs to its end when the type field is in memory. *)
Lemma strncmp_total (n : nat) (s2 : list Z) (s1 : Z) (m r : list Z) :
  0 <= s1 -> s1 + Z.of_nat n <= Z.of_nat (length m) ->
  exists c r', strncmp s1 s2 n (State m r) = (Done c, State m r').
Proof.
  revert s2 s1 r. induction n as [|n IH]; intros s2 s1 r Hs1 Hlen; cbn [strncmp].
  - exists 0, r. reflexivity.
  - assert (Z.to_nat s1 < length m)%nat as Hlt by lia.
    destruct (lookup_lt_is_Some_2 m _ Hlt) as [c1 Hc1].
    rewrite (bind_Done _ _ _ _ _ (load_Done m r s1 c1 Hs1 Hc1)).
    destruct (negb (c1 =? hd 0 s2)); [eexists _, _; reflexivity|].
    destruct (c1 =? 0); [eexists _, _; reflexivity|].
    apply IH; lia.
Qed.

Lemma type_valid_total (p : pointer) (len : Z) (m r : list Z) :
  (forall a, p = Ptr a -> 0 <= a /\ a + len <= Z.of_nat (length m)) ->
  exists v r', type_valid p len (State m r) = (Done v, State m r').
Proof.
  intros Hin. unfold type_valid, starts_with. destruct p as [|a].
  - eexists _, _. reflexivity.
  - destruct (Hin a eq_refl) as [Ha Hlen].
    change (strlen RECORD_TYPE_SCHEME) with (Z.of_nat (length RECORD_TYPE_SCHEME)).
    rewrite Nat2Z.id.
    destruct (Z.ltb_spec len (Z.of_nat (length RECORD_TYPE_SCHEME)))
      as [Hlt|Hge]; [eexists _, _; reflexivity|].
    destruct (strncmp_total (length RECORD_TYPE_SCHEME) RECORD_TYPE_SCHEME a m r)
      as (c & r' & E); [exact Ha | lia |].
    rewrite (bind_Done _ _ _ _ _ E). eexists _, _. reflexivity.
Qed.

Lemma wrong_type_total (rec : ndef_record) (m r : list Z) :
  type_in_memory m rec ->
  exists b r', wrong_type rec (State m r) = (Done b, State m r').
Proof.
  intros Hin. unfold wrong_type.
  destruct (negb (tnf rec =? TNF_URI)); [eexists _, _; reflexivity|].
  destruct (type_valid_total (type rec) (type_length rec) m r Hin) as (v & r' & E).
  rewrite (bind_Done _ _ _ _ _ E). eexists _, _. reflexivity.
Qed.

(** ** The record decoder *)

Lemma get_record_mem (buf buf_len : Z) (rec rec' : ndef_record) (n : Z) (s s' : state) :
  get_record buf buf_len rec s = (Done (n, rec'), s') -> mem s' = mem s.
Proof.
  unfold get_record. intros H.
  destruct (buf_len <? 2); [inv_ret H; reflexivity|].
  inv_bind H flags s0 H0. inv_bind H tyl s1 H1. inv_bind H pl s2 H2.
  inv_bind H idp s3 H3. destruct idp as [idl idptr].
  assert (mem s' = mem s3) as -> by (destruct (buf_len <? _); inv_ret H; reflexivity).
  assert (mem s3 = mem s2) as ->.
  { destruct (0 <? uint8_t (Z.land flags 8)); [|inv_ret H3; reflexivity].
    inv_bind H3 b s4 H4. apply load_mem in H4.
    destruct (0 <? b); inv_ret H3; exact H4. }
  assert (mem s2 = mem s1) as ->.
  { destruct (0 <? uint8_t (Z.land flags 16)).
    - inv_bind H2 b s4 H4. inv_ret H2. eapply load_mem, H4.
    - eapply bytes_to_uint32_mem, H2. }
  rewrite (load_mem _ _ _ _ H1). eapply load_mem, H0.
Qed.

(** [get_record] leaves by an error return with the record untouched, or
    stores the record and returns the 32-bit sum converted to [int]. *)
Lemma get_record_cases (buf buf_len : Z) (rec rec' : ndef_record) (n : Z) (s s' : state) :
  get_record buf buf_len rec s = (Done (n, rec'), s') ->
  (n = ERR_REC_BUF_TRUNCATED /\ rec' = rec)
  \/ (exists total, n = int32_t total /\ 0 <= total < 2 ^ 32 /\ total <= buf_len).
Proof.
  unfold get_record. intros H.
  destruct (buf_len <? 2); [inv_ret H; left; split; reflexivity|].
  inv_bind H flags s0 H0. inv_bind H tyl s1 H1. inv_bind H pl s2 H2.
  inv_bind H idp s3 H3. destruct idp as [idl idptr].
  match type of H with
  | context [buf_len <? ?t] => destruct (Z.ltb_spec buf_len t) as [Hlt|Hge]
  end; inv_ret H.
  - left. split; reflexivity.
  - right. eexists. split; [reflexivity|]. split; [|exact Hge].
    apply wrap_range. lia.
Qed.

(** Below 2 GiB a negative result is the truncation error, and the record
    is as it was. *)
Lemma get_record_error_keeps_record
      (buf buf_len : Z) (rec rec' : ndef_record) (n : Z) (s s' : state) :
  buf_len < 2 ^ 31 ->
  get_record buf buf_len rec s = (Done (n, rec'), s') ->
  n < 0 -> n = ERR_REC_BUF_TRUNCATED /\ rec' = rec.
Proof.
  intros Hlen H Hn. apply get_record_cases in H as [H|(total & -> & Ht & Hle)].
  - exact H.
  - unfold int32_t in Hn. rewrite swrap_small in Hn by (unfold is_signed; lia). lia.
Qed.

(** ** The message decoder *)

Lemma get_records_unfold (buf buf_len : Z) (meta_rec data_rec : ndef_record) :
  get_records buf buf_len meta_rec data_rec =
  (let* (r, data_rec) := get_record buf buf_len data_rec in
   if r <? 0 then ret (r, meta_rec, data_rec)
   else
     let* bad := wrong_type data_rec in
     if bad : bool then ret (ERR_REC_WRONG_TYPE, meta_rec, data_rec)
     else
       let* (r, meta_rec) := get_record (buf + r) (size_t (buf_len - r)) meta_rec in
       if r <? 0 then ret (r, meta_rec, data_rec)
       else
         let* bad := wrong_type meta_rec in
         if bad : bool then ret (ERR_REC_WRONG_TYPE, meta_rec, data_rec)
         else ret (SUCCESS, meta_rec, data_rec)).
Proof. reflexivity. Qed.

(** The order of [get_records], in terms of what its calls of [get_record]
    return. When the first decode returns an error, that error is returned;
    when the first record is not of the URI format or its type does not
    start with the scheme, [ERR_REC_WRONG_TYPE] is returned; in both cases
    the run ends in the state the first record and its check left, so
    nothing of a second record is read, and the metadata record is as it
    was. [SUCCESS] is returned exactly when both calls returned a length,
    the second one for the address the first length gives, and both records
    passed the type check. *)
Lemma get_records_order (buf buf_len : Z) (meta0 data0 : ndef_record) (s : state) :
  (forall e d s1,
     get_record buf buf_len data0 s = (Done (e, d), s1) -> e < 0 ->
     get_records buf buf_len meta0 data0 s = (Done (e, meta0, d), s1))
  /\ (forall n d s1,
        get_record buf buf_len data0 s = (Done (n, d), s1) -> 0 <= n ->
        type_in_memory (mem s) d -> ~ type_ok (mem s) d ->
        exists s2,
          wrong_type d s1 = (Done true, s2)
          /\ get_records buf buf_len meta0 data0 s
             = (Done (ERR_REC_WRONG_TYPE, meta0, d), s2))
  /\ (forall n d s1 s2,
        get_record buf buf_len data0 s = (Done (n, d), s1) -> 0 <= n ->
        wrong_type d s1 = (Done true, s2) ->
        ~ type_ok (mem s) d
        /\ get_records buf buf_len meta0 data0 s
           = (Done (ERR_REC_WRONG_TYPE, meta0, d), s2))
  /\ (forall meta data s',
        get_records buf buf_len meta0 data0 s = (Done (SUCCESS, meta, data), s') <->
        exists n k s1 s2 s3,
          get_record buf buf_len data0 s = (Done (n, data), s1) /\ 0 <= n
          /\ wrong_type data s1 = (Done false, s2)
          /\ get_record (buf + n) (size_t (buf_len - n)) meta0 s2 = (Done (k, meta), s3)
          /\ 0 <= k
          /\ wrong_type meta s3 = (Done false, s')
          /\ type_ok (mem s) data /\ type_ok (mem s) meta).
Proof.
  assert (forall n d s1 s2,
            get_record buf buf_len data0 s = (Done (n, d), s1) -> 0 <= n ->
            wrong_type d s1 = (Done true, s2) ->
            ~ type_ok (mem s) d
            /\ get_records buf buf_len meta0 data0 s
               = (Done (ERR_REC_WRONG_TYPE, meta0, d), s2)) as Hwrong.
  { intros n d s1 s2 H Hn Hw. rewrite get_records_unfold. split.
    - intros Hok. apply wrong_type_spec in Hw.
      rewrite (get_record_mem _ _ _ _ _ _ _ H) in Hw. apply Hw in Hok. discriminate.
    - rewrite (bind_Done _ _ _ _ _ H). cbv beta iota.
      destruct (Z.ltb_spec n 0) as [Hlt|_]; [lia|].
      rewrite (bind_Done _ _ _ _ _ Hw). reflexivity. }
  split; [|split; [|split; [exact Hwrong|]]].
  - intros e d s1 H He. rewrite get_records_unfold.
    rewrite (bind_Done _ _ _ _ _ H). cbv beta iota.
    destruct (Z.ltb_spec e 0) as [_|Hge]; [reflexivity | lia].
  - intros n d s1 H Hn Hin Hnok.
    pose proof (get_record_mem _ _ _ _ _ _ _ H) as Hmem.
    destruct s1 as [m1 r1]. cbn [mem] in Hmem. subst m1.
    destruct (wrong_type_total d (mem s) r1 Hin) as (b & r2 & Hw).
    destruct b.
    + exists (State (mem s) r2). split; [exact Hw|].
      eapply Hwrong; eassumption.
    + exfalso. apply Hnok. apply wrong_type_spec in Hw. apply Hw. reflexivity.
  - intros meta data s'. rewrite get_records_unfold. split.
    + intros H.
      inv_bind H r1 s1 H1. destruct r1 as [n d].
      destruct (Z.ltb_spec n 0) as [Hlt|Hn].
      { inv_ret H. unfold SUCCESS in Hlt. lia. }
      inv_bind H bad1 s2 H2. destruct bad1.
      { inv_ret H. }
      inv_bind H r2 s3 H3. destruct r2 as [k me].
      destruct (Z.ltb_spec k 0) as [Hlt|Hk].
      { inv_ret H. unfold SUCCESS in Hlt. lia. }
      inv_bind H bad2 s4 H4. destruct bad2.
      { inv_ret H. }
      inv_ret H.
      exists n, k, s1, s2, s3. do 6 (split; [assumption|]). split.
      * apply wrong_type_spec in H2 as Hok.
        rewrite (get_record_mem _ _ _ _ _ _ _ H1) in Hok. apply Hok. reflexivity.
      * apply wrong_type_spec in H4 as Hok.
        rewrite (get_record_mem _ _ _ _ _ _ _ H3) in Hok.
        rewrite (wrong_type_mem _ _ _ _ H2) in Hok.
        rewrite (get_record_mem _ _ _ _ _ _ _ H1) in Hok. apply Hok. reflexivity.
    + intros (n & k & s1 & s2 & s3 & H1 & Hn & H2 & H3 & Hk & H4 & _).
      rewrite (bind_Done _ _ _ _ _ H1). cbv beta iota.
      destruct (Z.ltb_spec n 0) as [Hlt|_]; [lia|].
      rewrite (bind_Done _ _ _ _ _ H2). cbv beta iota.
      rewrite (bind_Done _ _ _ _ _ H3). cbv beta iota.
      destruct (Z.ltb_spec k 0) as [Hlt|_]; [lia|].
      rewrite (bind_Done _ _ _ _ _ H4). reflexivity.
Qed.

Lemma get_records_order_witness :
  result (get_records 0 1 empty_record empty_record (init [0x13]))
  = Done (ERR_REC_BUF_TRUNCATED, empty_record, empty_record)
  /\ result (get_records 0 6 empty_record empty_record
               (init [0x13; 0x01; 0x02; 0x55; 0xAA; 0xBB]))
     = Done (ERR_REC_WRONG_TYPE, empty_record, Ndef_record 3 1 (Ptr 3) 0 NULL 2 (Ptr 4))
  /\ reads (snd (get_records 0 6 empty_record empty_record
                   (init [0x13; 0x01; 0x02; 0x55; 0xAA; 0xBB])))
     = [0; 1; 2]
  /\ result (get_records 0 86 empty_record empty_record (init two_records))
     = Done (SUCCESS, Ndef_record 3 39 (Ptr 46) 0 NULL 1 (Ptr 85),
             Ndef_record 3 39 (Ptr 3) 0 NULL 1 (Ptr 42))
  /\ type_ok two_records (Ndef_record 3 39 (Ptr 3) 0 NULL 1 (Ptr 42))
  /\ type_ok two_records (Ndef_record 3 39 (Ptr 46) 0 NULL 1 (Ptr 85)).
Proof.
  split; [|split; [|split; [|split]]].
  - destruct (get_records_order 0 1 empty_record empty_record (init [0x13]))
      as (H1 & _).
    erewrite H1; [reflexivity | vm_compute; reflexivity | reflexivity].
  - destruct (get_records_order 0 6 empty_record empty_record
                (init [0x13; 0x01; 0x02; 0x55; 0xAA; 0xBB])) as (_ & _ & H2 & _).
    edestruct H2 as [_ E]; [vm_compute; reflexivity | lia | vm_compute; reflexivity |].
    rewrite E. reflexivity.
  - destruct (get_records_order 0 6 empty_record empty_record
                (init [0x13; 0x01; 0x02; 0x55; 0xAA; 0xBB])) as (_ & _ & H2 & _).
    edestruct H2 as [_ E]; [vm_compute; reflexivity | lia | vm_compute; reflexivity |].
    rewrite E. reflexivity.
  - vm_compute. reflexivity.
  - destruct (get_records_order 0 86 empty_record empty_record (init two_records))
      as (_ & _ & _ & H3).
    destruct (proj1 (H3 (Ndef_record 3 39 (Ptr 46) 0 NULL 1 (Ptr 85))
                        (Ndef_record 3 39 (Ptr 3) 0 NULL 1 (Ptr 42))
                        (snd (get_records 0 86 empty_record empty_record
                                (init two_records)))))
      as (n & k & s1 & s2 & s3 & _ & _ & _ & _ & _ & _ & Hd & Hm);
      [vm_compute; reflexivity|].
    split; [exact Hd | exact Hm].
Defined.

(** ** Where the decoders leave their contract *)

(** C3. [get_record] reads header bytes that a short buffer does not have.
    On every buffer of 2 bytes it loads [buf[2]], whatever the flags; with 3
    bytes, the short-record and the id-length bit set it loads [buf[3]];
    with 5 bytes and the short-record bit clear it loads [buf[5]]. Each
    index is at or past [buf_len]. *)
Theorem get_record_reads_past_end :
  (forall flags tlen : Z,
     get_record 0 2 empty_record (init [flags; tlen])
     = (OutOfBounds 2, State [flags; tlen] [0; 1; 2]))
  /\ get_record 0 2 empty_record (init [0x03; 0x00])
     = (OutOfBounds 2, State [0x03; 0x00] [0; 1; 2])
  /\ get_record 0 3 empty_record (init [0x1B; 0x00; 0x00])
     = (OutOfBounds 3, State [0x1B; 0x00; 0x00] [0; 1; 2; 3])
  /\ get_record 0 5 empty_record (init [0x03; 0x00; 0x00; 0x00; 0x00])
     = (OutOfBounds 5, State [0x03; 0x00; 0x00; 0x00; 0x00] [0; 1; 2; 3; 4; 5]).
Proof.
  split; [|repeat apply conj; reflexivity].
  intros flags tlen. unfold get_record, init. cbn [Z.ltb Z.compare Pos.compare Pos.compare_cont].
  rewrite (bind_Done _ _ _ _ _ (load_Done [flags; tlen] [] 0 flags (Z.le_refl 0) eq_refl)).
  cbv beta zeta.
  assert (0 <= 0 + 1) as H1 by lia.
  rewrite (bind_Done _ _ _ _ _ (load_Done [flags; tlen] _ (0 + 1) tlen H1 eq_refl)).
  cbv beta.
  assert (Z.of_nat (length [flags; tlen]) <= 0 + 2) as H2 by (simpl; lia).
  destruct (0 <? uint8_t (Z.land flags 16)).
  - unfold bind at 1. unfold bind at 1. rewrite (load_OutOfBounds _ _ _ H2). reflexivity.
  - unfold bind at 1. unfold bytes_to_uint32. unfold bind at 1.
    rewrite (load_OutOfBounds _ _ _ H2). reflexivity.
Qed.

(** C2. The length check of [get_record] adds in 32 bits: for a buffer of 6
    bytes whose header declares a payload of [0xFFFFFFFF] bytes the sum wraps
    to 5, the call succeeds and returns 5, although the record would take
    4294967301 bytes. On the short-form example (flags [0x13], type length
    1, payload length 2) the call returns the 6 bytes of the record. *)
Theorem get_record_length_wraps :
  get_record 0 6 empty_record (init [0x03; 0x00; 0xFF; 0xFF; 0xFF; 0xFF])
  = (Done (5, Ndef_record 3 0 (Ptr 6) 0 NULL 0xFFFFFFFF (Ptr 6)),
     State [0x03; 0x00; 0xFF; 0xFF; 0xFF; 0xFF] [0; 1; 2; 3; 4; 5])
  /\ record_size 0x03 0 0 0xFFFFFFFF = 4294967301
  /\ 6 < record_size 0x03 0 0 0xFFFFFFFF
  /\ get_record 0 6 empty_record (init [0x13; 0x01; 0x02; 0x55; 0xAA; 0xBB])
     = (Done (6, Ndef_record 3 1 (Ptr 3) 0 NULL 2 (Ptr 4)),
        State [0x13; 0x01; 0x02; 0x55; 0xAA; 0xBB] [0; 1; 2])
  /\ record_size 0x13 1 0 2 = 6.
Proof. repeat apply conj; reflexivity. Qed.

(** C4. [get_records] takes a first record that the buffer does not hold:
    on the 45 bytes of a header that declares a payload of [0xFFFFFFD3]
    bytes and the scheme as type, the 32-bit sum of the lengths wraps to 0,
    [get_record] stores the record and returns 0, and [get_records] decodes
    the same bytes again as the second record: it returns [SUCCESS] with the
    metadata record equal to the data record, although the first record
    would take 2^32 bytes. On the 2 bytes [03 00] it ends in the load of
    [buf[2]] instead of an error. *)
Theorem get_records_takes_truncated_record :
  Z.of_nat (length wrapped_record) = 45
  /\ record_size 0x03 39 0 0xFFFFFFD3 = 2 ^ 32
  /\ result (get_record 0 45 empty_record (init wrapped_record))
     = Done (0, Ndef_record 3 39 (Ptr 6) 0 NULL 0xFFFFFFD3 (Ptr 45))
  /\ result (get_records 0 45 empty_record empty_record (init wrapped_record))
     = Done (SUCCESS, Ndef_record 3 39 (Ptr 6) 0 NULL 0xFFFFFFD3 (Ptr 45),
             Ndef_record 3 39 (Ptr 6) 0 NULL 0xFFFFFFD3 (Ptr 45))
  /\ memory (get_records 0 45 empty_record empty_record (init wrapped_record))
     = wrapped_record
  /\ get_records 0 2 empty_record empty_record (init [0x03; 0x00])
     = (OutOfBounds 2, State [0x03; 0x00] [0; 1; 2]).
Proof. repeat apply conj; vm_compute; reflexivity. Qed.

(** C1. [get_ndef_tlv_offset] loads [buf[3]] of a 3-byte buffer whose NDEF
    entry starts an extended length, as it does for every 3-byte buffer
    whose entry has [0xFF] as its length byte; and it reports an NDEF entry
    of length 2 at offset 2 for the 3-byte buffer [03 02 AA], which holds
    one value byte. *)
Theorem get_ndef_tlv_offset_past_end (fuel : nat) (offset : Z) :
  get_ndef_tlv_offset (S fuel) 0 3 offset (init [0x03; 0xFF; 0x00])
  = (OutOfBounds 3, State [0x03; 0xFF; 0x00] [0; 1; 2; 3])
  /\ (forall t x : Z,
        t <> TLV_TYPE_NULL -> t <> TLV_TYPE_TERMINATOR ->
        get_ndef_tlv_offset (S fuel) 0 3 offset (init [t; 0xFF; x])
        = (OutOfBounds 3, State [t; 0xFF; x] [0; 1; 2; 3]))
  /\ get_ndef_tlv_offset (S fuel) 0 3 offset (init [0x03; 0x02; 0xAA])
     = (Done (2, 2), State [0x03; 0x02; 0xAA] [0; 1; 1]).
Proof.
  split; [reflexivity|]. split; [|reflexivity].
  intros t x Hn Ht. unfold get_ndef_tlv_offset, init. cbn [tlv_scan Z.ltb Z.compare].
  rewrite (bind_Done _ _ _ _ _ (load_Done [t; 0xFF; x] [] (0 + 0) t (Z.le_refl 0) eq_refl)).
  cbv beta.
  destruct (Z.eqb_spec t TLV_TYPE_NULL) as [E|_]; [contradiction|].
  destruct (Z.eqb_spec t TLV_TYPE_TERMINATOR) as [E|_]; [contradiction|].
  reflexivity.
Qed.

Lemma get_record_long_header (rest : list Z) :
  get_record 0 2147483654 empty_record
    (init (0x03 :: 0x00 :: 0x80 :: 0x00 :: 0x00 :: 0x00 :: rest))
  = (Done (-2147483642, Ndef_record 3 0 (Ptr 6) 0 NULL 0x80000000 (Ptr 6)),
     State (0x03 :: 0x00 :: 0x80 :: 0x00 :: 0x00 :: 0x00 :: rest) [0; 1; 2; 3; 4; 5]).
Proof. reflexivity. Qed.

Lemma long_header_length (n : nat) :
  Z.of_nat (length (0x03 :: 0x00 :: 0x80 :: 0x00 :: 0x00 :: 0x00 :: repeat 0 n))
  = Z.of_nat n + 6.
Proof. cbn [length]. rewrite repeat_length. lia. Qed.

Lemma long_record_length : Z.of_nat (length long_record) = 2 ^ 31 + 6.
Proof.
  unfold long_record. rewrite long_header_length.
  rewrite Z2Nat.id; [reflexivity|]. apply Z.pow_nonneg. lia.
Qed.

(** C5. On a buffer of 2^31 + 6 bytes whose record declares a payload of
    2^31 bytes, [get_record] stores the record and returns the sum
    [0x80000006] converted to [int], which is negative: a negative result
    with the record written. *)
Theorem get_record_negative_with_record :
  Z.of_nat (length long_record) = 2 ^ 31 + 6
  /\ result (get_record 0 (2 ^ 31 + 6) empty_record (init long_record))
     = Done (-2147483642, Ndef_record 3 0 (Ptr 6) 0 NULL 0x80000000 (Ptr 6))
  /\ -2147483642 < 0
  /\ Ndef_record 3 0 (Ptr 6) 0 NULL 0x80000000 (Ptr 6) <> empty_record.
Proof.
  split; [exact long_record_length|]. split; [|split].
  - change (2 ^ 31 + 6) with 2147483654. unfold long_record.
    rewrite get_record_long_header. reflexivity.
  - lia.
  - discriminate.
Qed.

(** ** The TLV scanner *)

Lemma bytes_at_middle (front bs back : list Z) :
  bytes_at (front ++ bs ++ back) (Z.of_nat (length front)) bs.
Proof.
  split; [lia|]. intros k b Hk. rewrite Nat2Z.id.
  rewrite lookup_app_r by lia.
  replace (length front + k - length front)%nat with k by lia.
  rewrite lookup_app_l by (apply lookup_lt_Some in Hk; exact Hk). exact Hk.
Qed.

Lemma size_t_small (x : Z) : 0 <= x < 2 ^ 64 -> size_t x = x.
Proof. apply wrap_small. Qed.

Section Scan.

Variables (buf buf_len : Z) (m : list Z).
Hypothesis buf_len_size_t : buf_len < 2 ^ 64.

(** The length field in short form. *)
Lemma tlv_length_short (r : list Z) (j len : Z) :
  0 <= j -> j + 1 <= buf_len ->
  bytes_at m (buf + j) [len] -> 0 <= len < 0xFF ->
  exists r',
    tlv_length buf buf_len j (State m r) = (Done (Some (len, j + 1)), State m r').
Proof.
  intros Hj Hle H Hlen. unfold tlv_length.
  rewrite !size_t_small by lia.
  destruct (Z.ltb_spec buf_len (j + 1)) as [Hlt|_]; [lia|].
  step_load H 0%nat.
  destruct (Z.eqb_spec len 255) as [E|_]; [lia|].
  step_load H 0%nat.
  unfold uint16_t. rewrite wrap_small by lia.
  eexists. reflexivity.
Qed.

(** The length field in extended form. *)
Lemma tlv_length_long (r : list Z) (j len : Z) :
  0 <= j -> j + 3 <= buf_len ->
  bytes_at m (buf + j) [0xFF; len / 256; len mod 256] -> 0 <= len < 0xFFFF ->
  exists r',
    tlv_length buf buf_len j (State m r) = (Done (Some (len, j + 3)), State m r').
Proof.
  intros Hj Hle H Hlen. unfold tlv_length.
  rewrite !size_t_small by lia.
  destruct (Z.ltb_spec buf_len (j + 1)) as [Hlt|_]; [lia|].
  step_load H 0%nat. cbn [Z.eqb Pos.eqb].
  destruct (Z.ltb_spec buf_len (j + 2)) as [Hlt|_]; [lia|].
  step_load H 1%nat. step_load H 2%nat.
  assert (byte (len / 256)) as Bhi.
  { split; [apply Z.div_pos; lia | apply Z.div_lt_upper_bound; lia]. }
  assert (byte (len mod 256)) as Blo by (apply Z.mod_pos_bound; lia).
  rewrite uint16_expr by assumption.
  assert (be_combine [len / 256; len mod 256] = len) as ->.
  { unfold be_combine. cbn [fold_left]. pose proof (Z.div_mod len 256). lia. }
  destruct (Z.eqb_spec len 65535) as [E|_]; [lia|].
  eexists. reflexivity.
Qed.

(** One iteration over an entry that is passed over. *)
Lemma tlv_scan_skip (e : tlv) (f : nat) (r : list Z) (i off : Z) :
  skipped e -> 0 <= i ->
  bytes_at m (buf + i) (tlv_bytes e) ->
  i + Z.of_nat (length (tlv_bytes e)) <= buf_len ->
  exists r',
    tlv_scan (S f) buf buf_len i off (State m r)
    = tlv_scan f buf buf_len (i + Z.of_nat (length (tlv_bytes e))) off (State m r').
Proof.
  intros He Hi H Hle. destruct e as [|t v|t v]; cbn [tlv_bytes length] in *.
  - cbn [tlv_scan]. destruct (Z.ltb_spec i buf_len) as [_|Hge]; [|lia].
    step_load H 0%nat. cbn [Z.eqb TLV_TYPE_NULL].
    rewrite size_t_small by lia. eexists. reflexivity.
  - destruct He as (Hn & Ht & Hd & Hlen).
    cbn [tlv_scan]. destruct (Z.ltb_spec i buf_len) as [_|Hge]; [|lia].
    step_load H 0%nat.
    destruct (Z.eqb_spec t TLV_TYPE_NULL) as [E|_]; [contradiction|].
    destruct (Z.eqb_spec t TLV_TYPE_TERMINATOR) as [E|_]; [contradiction|].
    rewrite size_t_small by lia.
    split_bytes H 1%nat (buf + (i + 1)) H0 H1. split_bytes H1 1%nat (buf + (i + 2)) H1 H2.
    destruct (tlv_length_short (r ++ [buf + i]) (i + 1) (Z.of_nat (length v)))
      as [r' E]; try lia; [exact H1|].
    run E.
    destruct (Z.eqb_spec t TLV_TYPE_NDEF) as [E'|_]; [contradiction|].
    rewrite size_t_small by lia.
    exists r'. f_equal. lia.
  - destruct He as (Hn & Ht & Hd & Hlen).
    cbn [tlv_scan]. destruct (Z.ltb_spec i buf_len) as [_|Hge]; [|lia].
    step_load H 0%nat.
    destruct (Z.eqb_spec t TLV_TYPE_NULL) as [E|_]; [contradiction|].
    destruct (Z.eqb_spec t TLV_TYPE_TERMINATOR) as [E|_]; [contradiction|].
    rewrite size_t_small by lia.
    split_bytes H 1%nat (buf + (i + 1)) H0 H1. split_bytes H1 3%nat (buf + (i + 4)) H1 H2.
    destruct (tlv_length_long (r ++ [buf + i]) (i + 1) (Z.of_nat (length v)))
      as [r' E]; try lia; [exact H1|].
    run E.
    destruct (Z.eqb_spec t TLV_TYPE_NDEF) as [E'|_]; [contradiction|].
    rewrite size_t_small by lia.
    exists r'. f_equal. lia.
Qed.

(** The iterations over a run of entries that are passed over. *)
Lemma tlv_scan_skip_all (es : list tlv) (f : nat) (r : list Z) (i off : Z) :
  Forall skipped es -> 0 <= i ->
  bytes_at m (buf + i) (tlv_stream es) ->
  i + Z.of_nat (length (tlv_stream es)) <= buf_len ->
  exists r',
    tlv_scan (length es + f) buf buf_len i off (State m r)
    = tlv_scan f buf buf_len (i + Z.of_nat (length (tlv_stream es))) off (State m r').
Proof.
  revert r i. induction es as [|e es IH]; intros r i Hes Hi H Hle.
  - exists r. cbn [tlv_stream flat_map length Nat.add Z.of_nat].
    rewrite Z.add_0_r. reflexivity.
  - apply Forall_cons in Hes as [He Hes].
    cbn [tlv_stream flat_map] in *. fold (tlv_stream es) in *.
    rewrite length_app, Nat2Z.inj_add in *.
    apply (bytes_at_app_at _ _ (buf + (i + Z.of_nat (length (tlv_bytes e))))) in H
      as [H1 H2]; [|lia].
    destruct (tlv_scan_skip e (length es + f) r i off He Hi H1) as [r1 E1]; [lia|].
    destruct (IH r1 (i + Z.of_nat (length (tlv_bytes e))) Hes) as [r2 E2];
      [lia | exact H2 | lia |].
    exists r2. cbn [length Nat.add]. rewrite E1, E2. f_equal. lia.
Qed.

End Scan.

(** The scan of a buffer that starts with entries that are passed over. *)
Lemma scan_buffer_skip (es : list tlv) (back : list Z) (f : nat) (off : Z) :
  Forall skipped es ->
  Z.of_nat (length (tlv_stream es ++ back)) < 2 ^ 64 ->
  exists r',
    scan_buffer (length es + f) off (tlv_stream es ++ back)
    = result (tlv_scan f 0 (Z.of_nat (length (tlv_stream es ++ back)))
                (Z.of_nat (length (tlv_stream es))) off
                (State (tlv_stream es ++ back) r')).
Proof.
  intros Hes Hlen. unfold scan_buffer, get_ndef_tlv_offset, init.
  destruct (tlv_scan_skip_all 0 (Z.of_nat (length (tlv_stream es ++ back)))
              (tlv_stream es ++ back) Hlen es f [] 0 off Hes) as [r' E].
  - lia.
  - apply (bytes_at_middle [] (tlv_stream es) back).
  - rewrite length_app. lia.
  - exists r'. rewrite E. reflexivity.
Qed.

(** C10. Whatever entries the scan passes over first, an NDEF entry that
    declares the length 0, in short or in extended form, makes
    [get_ndef_tlv_offset] return 0, as do a terminator and the end of the
    buffer. Only [*offset_p] tells the cases apart: it is set for the empty
    NDEF entry and keeps its contents otherwise. *)
Theorem empty_ndef_returns_zero
        (es : list tlv) (rest : list Z) (offset : Z) (fuel : nat) :
  Forall skipped es ->
  (length es < fuel)%nat ->
  Z.of_nat (length (tlv_stream es)) + 4 + Z.of_nat (length rest) < 2 ^ 64 ->
  scan_buffer fuel offset (tlv_stream es ++ [TLV_TYPE_NDEF; 0x00] ++ rest)
  = Done (0, Z.of_nat (length (tlv_stream es)) + 2)
  /\ scan_buffer fuel offset (tlv_stream es ++ [TLV_TYPE_NDEF; 0xFF; 0x00; 0x00] ++ rest)
     = Done (0, Z.of_nat (length (tlv_stream es)) + 4)
  /\ scan_buffer fuel offset (tlv_stream es ++ TLV_TYPE_TERMINATOR :: rest)
     = Done (0, offset)
  /\ scan_buffer fuel offset (tlv_stream es ++ [])
     = Done (0, offset).
Proof.
  intros Hes Hfuel Hlen.
  destruct fuel as [|f0]; [lia|].
  replace (S f0) with (length es + S (f0 - length es))%nat by lia.
  set (f := (f0 - length es)%nat).
  repeat apply conj.
  - destruct (scan_buffer_skip es ([TLV_TYPE_NDEF; 0x00] ++ rest) (S f) offset Hes)
      as [r' ->];
      set (pre := tlv_stream es) in *; set (j := Z.of_nat (length pre)) in *.
    { rewrite length_app, length_app. cbn [length]. lia. }
    pose proof (bytes_at_middle pre [TLV_TYPE_NDEF; 0x00] rest) as H. fold j in H.
    set (m := pre ++ [TLV_TYPE_NDEF; 0] ++ rest) in *.
    assert (Z.of_nat (length m) = j + 2 + Z.of_nat (length rest)) as Hm
      by (subst m j; rewrite !length_app; cbn [length]; lia).
    rewrite Hm. cbn [tlv_scan].
    destruct (Z.ltb_spec j (j + 2 + Z.of_nat (length rest))) as [_|Hge]; [|lia].
    step_load H 0%nat. cbn [Z.eqb Pos.eqb TLV_TYPE_NDEF TLV_TYPE_NULL TLV_TYPE_TERMINATOR].
    rewrite size_t_small by lia.
    split_bytes H 1%nat (0 + (j + 1)) H0 H1.
    destruct (tlv_length_short 0 (j + 2 + Z.of_nat (length rest)) m ltac:(lia)
                (r' ++ [0 + j]) (j + 1) 0) as [r2 E]; try lia; [exact H1|].
    run E. unfold ret, result. cbn [fst]. do 2 f_equal. lia.
  - destruct (scan_buffer_skip es ([TLV_TYPE_NDEF; 0xFF; 0x00; 0x00] ++ rest) (S f)
                offset Hes) as [r' ->];
      set (pre := tlv_stream es) in *; set (j := Z.of_nat (length pre)) in *.
    { rewrite length_app, length_app. cbn [length]. lia. }
    pose proof (bytes_at_middle pre [TLV_TYPE_NDEF; 0xFF; 0x00; 0x00] rest) as H.
    fold j in H.
    set (m := pre ++ [TLV_TYPE_NDEF; 0xFF; 0; 0] ++ rest) in *.
    assert (Z.of_nat (length m) = j + 4 + Z.of_nat (length rest)) as Hm
      by (subst m j; rewrite !length_app; cbn [length]; lia).
    rewrite Hm. cbn [tlv_scan].
    destruct (Z.ltb_spec j (j + 4 + Z.of_nat (length rest))) as [_|Hge]; [|lia].
    step_load H 0%nat. cbn [Z.eqb Pos.eqb TLV_TYPE_NDEF TLV_TYPE_NULL TLV_TYPE_TERMINATOR].
    rewrite size_t_small by lia.
    split_bytes H 1%nat (0 + (j + 1)) H0 H1.
    destruct (tlv_length_long 0 (j + 4 + Z.of_nat (length rest)) m ltac:(lia)
                (r' ++ [0 + j]) (j + 1) 0) as [r2 E]; try lia; [exact H1|].
    run E. unfold ret, result. cbn [fst]. do 2 f_equal. lia.
  - destruct (scan_buffer_skip es (TLV_TYPE_TERMINATOR :: rest) (S f) offset Hes)
      as [r' ->];
      set (pre := tlv_stream es) in *; set (j := Z.of_nat (length pre)) in *.
    { rewrite length_app. cbn [length]. lia. }
    pose proof (bytes_at_middle pre [TLV_TYPE_TERMINATOR] rest) as H. fold j in H.
    change ([TLV_TYPE_TERMINATOR] ++ rest) with (TLV_TYPE_TERMINATOR :: rest) in H.
    set (m := pre ++ TLV_TYPE_TERMINATOR :: rest) in *.
    assert (Z.of_nat (length m) = j + 1 + Z.of_nat (length rest)) as Hm
      by (subst m j; rewrite !length_app; cbn [length]; lia).
    rewrite Hm. cbn [tlv_scan].
    destruct (Z.ltb_spec j (j + 1 + Z.of_nat (length rest))) as [_|Hge]; [|lia].
    step_load H 0%nat. reflexivity.
  - destruct (scan_buffer_skip es [] (S f) offset Hes) as [r' ->];
      set (pre := tlv_stream es) in *; set (j := Z.of_nat (length pre)) in *.
    { rewrite length_app. cbn [length]. lia. }
    rewrite length_app. cbn [length tlv_scan]. rewrite Nat.add_0_r. fold j.
    rewrite Z.ltb_irrefl. reflexivity.
Qed.

Lemma empty_ndef_returns_zero_witness :
  scan_buffer 5 99 [0x01; 0x00; 0x03; 0x00; 0xFE] = Done (0, 4)
  /\ scan_buffer 5 99 [0x01; 0x00; 0x03; 0xFF; 0x00; 0x00; 0xFE] = Done (0, 6)
  /\ scan_buffer 5 99 [0x01; 0x00; 0xFE; 0xFE] = Done (0, 99)
  /\ scan_buffer 5 99 [0x01; 0x00] = Done (0, 99).
Proof.
  apply (empty_ndef_returns_zero [TlvShort 0x01 []] [0xFE] 99 5).
  - apply Forall_cons. split; [|apply Forall_nil; exact I].
    unfold skipped, TLV_TYPE_NULL, TLV_TYPE_TERMINATOR, TLV_TYPE_NDEF. simpl. lia.
  - simpl. lia.
  - simpl. lia.
Defined.

(** C10, counterexample. A caller can tell an empty NDEF entry from the
    absence of an NDEF entry: both calls return 0, but the first leaves the
    index after the length field in [*offset_p] and the second leaves
    [*offset_p] as it was. *)
Lemma empty_ndef_tells_apart :
  scan_buffer 3 99 [0x03; 0x00] = Done (0, 2)
  /\ scan_buffer 3 99 [0x00; 0x00] = Done (0, 99)
  /\ scan_buffer 3 99 [] = Done (0, 99)
  /\ ~ same_to_caller [0x03; 0x00] [0x00; 0x00]
  /\ ~ same_to_caller [0x03; 0x00] [].
Proof.
  repeat apply conj; try reflexivity.
  - intros H. specialize (H 3%nat 99). discriminate H.
  - intros H. specialize (H 3%nat 99). discriminate H.
Qed.

(** ** The scan ends *)

(** A load ends with a byte or out of bounds. *)
Lemma load_outcome (a : Z) (s : state) :
  (exists b, load a s = (Done b, State (mem s) (reads s ++ [a])))
  \/ load a s = (OutOfBounds a, State (mem s) (reads s ++ [a])).
Proof.
  unfold load. destruct (a <? 0); [right; reflexivity|].
  destruct (mem s !! Z.to_nat a) as [b|]; [left; exists b; reflexivity | right; reflexivity].
Qed.

(** The length field: a break, a length of 16 bits with the index moved
    past the field, or a load out of bounds. *)
Lemma tlv_length_outcome (buf buf_len j : Z) (s : state) :
  0 <= j -> j + 3 < 2 ^ 64 ->
  match result (tlv_length buf buf_len j s) with
  | Done None => True
  | Done (Some (len, j')) => 0 <= len < 2 ^ 16 /\ j < j' <= j + 3
  | OutOfBounds _ => True
  | AssertFailed | OutOfFuel => False
  end.
Proof.
  intros Hj Hmax. unfold tlv_length, result.
  rewrite !size_t_small by lia.
  destruct (buf_len <? j + 1); [exact I|].
  destruct (load_outcome (buf + j) s) as [[b E]|E];
    [rewrite (bind_Done _ _ _ _ _ E) | unfold bind; rewrite E; exact I].
  destruct (b =? 255).
  - destruct (buf_len <? j + 2); [exact I|].
    destruct (load_outcome (buf + (j + 1)) (State (mem s) (reads s ++ [buf + j])))
      as [[hi E1]|E1];
      [rewrite (bind_Done _ _ _ _ _ E1) | unfold bind; rewrite E1; exact I].
    cbn [mem reads].
    match goal with
    | |- context [bind (load ?a) _ ?st] =>
        destruct (load_outcome a st) as [[lo E2]|E2];
        [rewrite (bind_Done _ _ _ _ _ E2) | unfold bind; rewrite E2; exact I]
    end.
    cbv beta zeta.
    match goal with |- context [?l =? 65535] => destruct (l =? 65535) end;
      [exact I|].
    cbn [fst ret]. split; [apply (wrap_range 16); lia | lia].
  - match goal with
    | |- context [bind (load ?a) _ ?st] =>
        destruct (load_outcome a st) as [[b' E1]|E1];
        [rewrite (bind_Done _ _ _ _ _ E1) | unfold bind; rewrite E1; exact I]
    end.
    cbn [fst ret]. split; [apply (wrap_range 16); lia | lia].
Qed.

(** With more fuel than bytes left, the scan does not run out of fuel:
    every iteration that goes on moves the index forward. *)
Lemma tlv_scan_ends (fuel : nat) (buf buf_len index off : Z) (s : state) :
  0 <= index -> buf_len + 2 ^ 16 + 3 < 2 ^ 64 ->
  (Z.to_nat (buf_len - index) < fuel)%nat ->
  result (tlv_scan fuel buf buf_len index off s) <> OutOfFuel.
Proof.
  revert index s. induction fuel as [|fuel IH]; intros index s Hi Hmax Hfuel; [lia|].
  cbn [tlv_scan].
  destruct (Z.ltb_spec index buf_len) as [Hlt|Hge]; [|discriminate].
  destruct (load_outcome (buf + index) s) as [[t E]|E];
    [rewrite (bind_Done _ _ _ _ _ E) | unfold bind; rewrite E; discriminate].
  destruct (t =? TLV_TYPE_NULL).
  { rewrite size_t_small by lia. apply IH; lia. }
  destruct (t =? TLV_TYPE_TERMINATOR); [discriminate|].
  rewrite size_t_small by lia.
  pose proof (tlv_length_outcome buf buf_len (index + 1)
                (State (mem s) (reads s ++ [buf + index])) ltac:(lia) ltac:(lia)) as Hl.
  unfold result in Hl. unfold bind at 1.
  destruct (tlv_length buf buf_len (index + 1)
              (State (mem s) (reads s ++ [buf + index]))) as [[[[len j']|]| | |] s1];
    cbn [fst] in Hl; try discriminate; try contradiction.
  destruct Hl as [Hlen Hj].
  destruct (t =? TLV_TYPE_NDEF); [discriminate|].
  rewrite size_t_small by lia. apply IH; lia.
Qed.

(** X12. The loop of [get_ndef_tlv_offset] ends, whatever the memory holds:
    with more fuel than the buffer has bytes a call returns or stops at a
    load out of bounds, and never for lack of fuel, since every pass of the
    loop that does not leave it moves the index forward. *)
Lemma get_ndef_tlv_offset_ends (fuel : nat) (buf buf_len off : Z) (s : state) :
  buf_len + 2 ^ 16 + 3 < 2 ^ 64 ->
  (Z.to_nat buf_len < fuel)%nat ->
  result (get_ndef_tlv_offset fuel buf buf_len off s) <> OutOfFuel.
Proof.
  intros Hmax Hfuel. unfold get_ndef_tlv_offset.
  apply tlv_scan_ends; [lia | exact Hmax |].
  rewrite Z.sub_0_r. exact Hfuel.
Qed.

(** ** Without an NDEF entry *)

Lemma tlv_length_mem (buf buf_len j : Z) (r : option (Z * Z)) (s s' : state) :
  tlv_length buf buf_len j s = (Done r, s') -> mem s' = mem s.
Proof.
  unfold tlv_length. intros H.
  destruct (buf_len <? size_t (j + 1)); [inv_ret H; reflexivity|].
  inv_bind H b s0 H0. apply load_mem in H0.
  destruct (b =? 255).
  - destruct (buf_len <? size_t (j + 2)); [inv_ret H; exact H0|].
    inv_bind H hi s1 H1. inv_bind H lo s2 H2.
    apply load_mem in H1. apply load_mem in H2.
    assert (mem s' = mem s2) as ->
        by (match type of H with
            | context [?l =? 65535] => destruct (l =? 65535)
            end; inv_ret H; reflexivity).
    congruence.
  - inv_bind H b' s1 H1. apply load_mem in H1. inv_ret H. congruence.
Qed.

(** Only an entry of type NDEF makes the scan return anything but 0 with
    [*offset_p] untouched: in a memory without the byte [0x03] every scan
    that returns reports not-found. *)
Lemma tlv_scan_without_ndef (fuel : nat) (buf buf_len index off : Z)
      (res : Z * Z) (s s' : state) :
  (forall a : nat, mem s !! a <> Some TLV_TYPE_NDEF) ->
  tlv_scan fuel buf buf_len index off s = (Done res, s') ->
  res = (0, off).
Proof.
  revert index s. induction fuel as [|fuel IH]; intros index s Hno H;
    cbn [tlv_scan] in H; [discriminate|].
  destruct (index <? buf_len); [|inv_ret H; reflexivity].
  inv_bind H t s0 H0. apply load_inv in H0 as (_ & Ht & ->).
  destruct (t =? TLV_TYPE_NULL); [eapply IH; [|exact H]; exact Hno|].
  destruct (t =? TLV_TYPE_TERMINATOR); [inv_ret H; reflexivity|].
  inv_bind H len s1 H1. apply tlv_length_mem in H1 as Hm. cbn [mem] in Hm.
  destruct len as [[len j]|]; [|inv_ret H; reflexivity].
  destruct (Z.eqb_spec t TLV_TYPE_NDEF) as [->|_].
  - exfalso. exact (Hno _ Ht).
  - eapply IH; [|exact H]. rewrite Hm. exact Hno.
Qed.

(** ** Bytes and the values they denote *)

Lemma be_combine_range (bs : list Z) :
  Forall byte bs -> is_unsigned (8 * Z.of_nat (length bs)) (be_combine bs).
Proof.
  induction bs as [|b bs IH] using rev_ind; intros H.
  - cbn. unfold is_unsigned. cbn. lia.
  - apply Forall_app in H as [H1 H2%Forall_inv].
    rewrite be_combine_snoc, length_app. cbn [length].
    specialize (IH H1). unfold is_unsigned, byte in *.
    replace (8 * Z.of_nat (length bs + 1)) with (8 * Z.of_nat (length bs) + 8) by lia.
    rewrite Z.pow_add_r by lia. change (2 ^ 8) with 256. lia.
Qed.

(** The bytes of a scalar depend on its low bits only. *)
Lemma be_split_mod (n : nat) (v w : Z) :
  v mod 2 ^ (8 * Z.of_nat n) = w mod 2 ^ (8 * Z.of_nat n) ->
  be_split n v = be_split n w.
Proof.
  revert v w. induction n as [|n IH]; intros v w H; [reflexivity|].
  cbn [be_split]. replace (8 * Z.of_nat (S n)) with (8 + 8 * Z.of_nat n) in H by lia.
  rewrite Z.pow_add_r in H by lia. change (2 ^ 8) with 256 in H.
  assert (Hpos : 0 < 2 ^ (8 * Z.of_nat n)) by (apply Z.pow_pos_nonneg; lia).
  rewrite !Z.rem_mul_r in H by lia.
  pose proof (Z.mod_pos_bound v 256 ltac:(lia)).
  pose proof (Z.mod_pos_bound w 256 ltac:(lia)).
  f_equal.
  - apply IH. rewrite !Z.shiftr_div_pow2 by lia. change (2 ^ 8) with 256. lia.
  - f_equal. unfold uint8_t, wrap. change (2 ^ 8) with 256. lia.
Qed.

(** The bytes of the scalar that a sequence of bytes denotes are the
    sequence. *)
Lemma be_split_combine (bs : list Z) :
  Forall byte bs -> be_split (length bs) (be_combine bs) = bs.
Proof.
  induction bs as [|b bs IH] using rev_ind; intros H; [reflexivity|].
  apply Forall_app in H as [H1 H2%Forall_inv].
  rewrite length_app, be_combine_snoc. cbn [length]. rewrite Nat.add_1_r.
  cbn [be_split]. unfold byte in H2. f_equal.
  - etrans; [|exact (IH H1)]. f_equal.
    rewrite Z.shiftr_div_pow2 by lia. change (2 ^ 8) with 256.
    symmetry. apply (Z.div_unique _ _ _ b); lia.
  - f_equal. unfold uint8_t, wrap. change (2 ^ 8) with 256.
    rewrite Z.add_comm, Z.mod_add by lia. apply Z.mod_small. lia.
Qed.

Lemma be_split_swrap (n : nat) (v : Z) :
  be_split n (swrap (8 * Z.of_nat n) v) = be_split n v.
Proof. apply be_split_mod, swrap_mod. Qed.

Lemma be_split_signed_combine (bs : list Z) :
  Forall byte bs ->
  be_split (length bs) (swrap (8 * Z.of_nat (length bs)) (be_combine bs)) = bs.
Proof. intros H. rewrite be_split_swrap. apply be_split_combine, H. Qed.

(** ** Writing what is there *)

(** Writing the bytes that the memory holds changes nothing. *)
Lemma writes_same (m : list Z) (p : Z) (bs : list Z) (m' : list Z) :
  writes m p bs m' -> bytes_at m p bs -> m' = m.
Proof.
  intros (Hlen & [_ Hat'] & Hout) [Hp Hat].
  apply list_eq. intros i.
  destruct (decide (i < Z.to_nat p \/ Z.to_nat p + length bs <= i)%nat) as [Ho|Hi].
  - apply Hout, Ho.
  - assert (Hk : (i - Z.to_nat p < length bs)%nat) by lia.
    apply lookup_lt_is_Some_2 in Hk as [b Hb].
    pose proof (Hat' _ _ Hb) as E1. pose proof (Hat _ _ Hb) as E2.
    replace (Z.to_nat p + (i - Z.to_nat p))%nat with i in E1, E2 by lia.
    congruence.
Qed.

(** The bytes that the memory holds lie inside it. *)
Lemma bytes_at_in_bounds (m : list Z) (p : Z) (bs : list Z) :
  bytes_at m p bs -> 0 <= p /\ (bs <> [] -> p + Z.of_nat (length bs) <= Z.of_nat (length m)).
Proof.
  intros [Hp Hat]. split; [exact Hp|]. intros Hne.
  destruct (lookup_lt_is_Some_2 bs (length bs - 1)) as [b Hb].
  { destruct bs; [congruence | cbn; lia]. }
  apply Hat in Hb. apply lookup_lt_Some in Hb.
  destruct bs; [congruence | cbn [length] in *; lia].
Qed.

(** ** Wire forms of the encoders *)

Lemma encodes_intro {A : Type} (ok : A -> Prop) (enc : A -> Z -> M unit)
      (wire : A -> list Z) (n : Z) :
  (forall v, ok v -> Z.of_nat (length (wire v)) = n) ->
  (forall m r p v, ok v -> 0 <= p -> p + n <= Z.of_nat (length m) ->
     exists m', enc v p (State m r) = (Done tt, State m' r) /\ writes m p (wire v) m') ->
  encodes ok enc wire.
Proof.
  intros Hn Henc [m r] p v Hv [Hp Hlen]. cbn [mem] in Hlen.
  rewrite (Hn v Hv) in Hlen.
  destruct (Henc m r p v Hv Hp Hlen) as (m' & E & W).
  unfold result, memory. rewrite E. split; [reflexivity | exact W].
Qed.

Lemma rewrites_intro {A : Type} (ok : A -> Prop) (n : nat)
      (enc : A -> Z -> M unit) (dec : Z -> M A)
      (wire : A -> list Z) (val : list Z -> A) :
  (forall m r p v, ok v -> 0 <= p -> p + Z.of_nat n <= Z.of_nat (length m) ->
     exists m', enc v p (State m r) = (Done tt, State m' r) /\ writes m p (wire v) m') ->
  (forall m r p v, ok v -> bytes_at m p (wire v) ->
     exists r', dec p (State m r) = (Done v, State m r')) ->
  (forall bs, length bs = n -> Forall byte bs -> ok (val bs) /\ wire (val bs) = bs) ->
  n <> 0%nat ->
  rewrites n dec enc.
Proof.
  intros Henc Hdec Hval Hn [m r] p bs Hlen Hb Hat. cbn [mem] in *.
  destruct (Hval bs Hlen Hb) as [Hok Hw].
  destruct (Hdec m r p (val bs) Hok) as [r' E]; [rewrite Hw; exact Hat|].
  destruct (bytes_at_in_bounds _ _ _ Hat) as [Hp Hin].
  destruct (Henc m r' p (val bs) Hok Hp) as (m' & E' & W).
  { rewrite <- Hlen. apply Hin. intros ->. cbn in Hlen. congruence. }
  rewrite Hw in W. apply writes_same in W; [|exact Hat]. subst m'.
  unfold result, memory. rewrite (bind_Done _ _ _ _ _ E), E'. split; reflexivity.
Qed.

(** Byte [k] of the [n] bytes of [v] holds the bits [8 (n - k) - 1 .. 8 (n - 1 - k)]. *)
Lemma be_split_lookup (n : nat) (v : Z) (k : nat) :
  (k < n)%nat ->
  be_split n v !! k = Some ((v / 2 ^ (8 * (Z.of_nat n - 1 - Z.of_nat k))) mod 256).
Proof.
  revert v. induction n as [|n IH]; intros v Hk; [lia|].
  cbn [be_split]. destruct (decide (k < n)%nat) as [Hlt|Hge].
  - rewrite lookup_app_l by (rewrite be_split_length; exact Hlt).
    rewrite (IH _ Hlt). f_equal. f_equal.
    rewrite Z.shiftr_div_pow2 by lia. rewrite Z.div_div by (try apply Z.pow_pos_nonneg; lia).
    rewrite <- Z.pow_add_r by lia. f_equal. f_equal. lia.
  - assert (k = n) as -> by lia.
    rewrite lookup_app_r by (rewrite be_split_length; lia).
    rewrite be_split_length, Nat.sub_diag. cbn [lookup list_lookup].
    replace (8 * (Z.of_nat (S n) - 1 - Z.of_nat n)) with 0 by lia.
    rewrite Z.pow_0_r, Z.div_1_r. reflexivity.
Qed.

Lemma unsigned_of_ok (n : nat) (bs : list Z) :
  length bs = n -> Forall byte bs ->
  is_unsigned (8 * Z.of_nat n) (unsigned_of bs) /\ be_split n (unsigned_of bs) = bs.
Proof.
  intros <- Hb. split; [apply be_combine_range | apply be_split_combine]; exact Hb.
Qed.

Lemma signed_of_ok (n : nat) (bs : list Z) :
  length bs = n -> n <> 0%nat -> Forall byte bs ->
  is_signed (8 * Z.of_nat n) (signed_of bs) /\ be_split n (signed_of bs) = bs.
Proof.
  intros <- Hn Hb. split.
  - apply swrap_range. lia.
  - apply be_split_signed_combine, Hb.
Qed.

Lemma hh_mm_ss_of_ok (bs : list Z) :
  length bs = 3%nat -> Forall byte bs ->
  hh_mm_ss_ok (hh_mm_ss_of bs) /\ wire_hh_mm_ss (hh_mm_ss_of bs) = bs.
Proof.
  intros Hlen Hb.
  destruct bs as [|a [|b [|c [|? ?]]]]; try discriminate.
  apply Forall_cons in Hb as [Ha Hb]. apply Forall_cons in Hb as [Hb Hc].
  apply Forall_cons in Hc as [Hc _]. unfold byte in *.
  split.
  - unfold hh_mm_ss_ok, is_unsigned. cbn. lia.
  - cbn. unfold uint8_t, wrap. change (2 ^ 8) with 256.
    rewrite !Z.mod_small by lia. reflexivity.
Qed.

Lemma time_range_of_ok (bs : list Z) :
  length bs = 6%nat -> Forall byte bs ->
  time_range_ok (time_range_of bs) /\ wire_time_range (time_range_of bs) = bs.
Proof.
  intros Hlen Hb.
  destruct (hh_mm_ss_of_ok (take 3 bs)) as [H1 W1];
    [rewrite length_take; lia | apply Forall_take, Hb |].
  destruct (hh_mm_ss_of_ok (drop 3 bs)) as [H2 W2];
    [rewrite length_drop; lia | apply Forall_drop, Hb |].
  split; [split; assumption|].
  unfold wire_time_range, time_range_of. cbn [time_from time_to].
  rewrite W1, W2. apply take_drop.
Qed.

Lemma date_range_of_ok (bs : list Z) :
  length bs = 16%nat -> Forall byte bs ->
  date_range_ok (date_range_of bs) /\ wire_date_range (date_range_of bs) = bs.
Proof.
  intros Hlen Hb.
  destruct (signed_of_ok 8 (take 8 bs)) as [H1 W1];
    [rewrite length_take; lia | lia | apply Forall_take, Hb |].
  destruct (signed_of_ok 8 (drop 8 bs)) as [H2 W2];
    [rewrite length_drop; lia | lia | apply Forall_drop, Hb |].
  split; [split; assumption|].
  unfold wire_date_range, date_range_of. cbn [date_from date_to].
  rewrite W1, W2. apply take_drop.
Qed.

Lemma zoned_time_of_ok (bs : list Z) :
  length bs = 10%nat -> Forall byte bs ->
  zoned_time_ok (zoned_time_of bs) /\ wire_zoned_time (zoned_time_of bs) = bs.
Proof.
  intros Hlen Hb.
  destruct (signed_of_ok 8 (take 8 bs)) as [H1 W1];
    [rewrite length_take; lia | lia | apply Forall_take, Hb |].
  destruct (signed_of_ok 2 (drop 8 bs)) as [H2 W2];
    [rewrite length_drop; lia | lia | apply Forall_drop, Hb |].
  split; [split; assumption|].
  unfold wire_zoned_time, zoned_time_of. cbn [time offset].
  rewrite W1, W2. apply take_drop.
Qed.

(** ** Decoding, then encoding *)

Ltac rewrites_with ok wire val enc_run dec_wire val_ok :=
  apply (rewrites_intro ok _ _ _ wire val);
  [ intros; apply enc_run; first [assumption | lia]
  | intros; apply dec_wire; assumption
  | intros bs Hl Hb; apply val_ok; first [assumption | lia]
  | lia ].

Lemma fixp32_rewrites (scale : Z) :
  rewrites 4 (fun p => bytes_to_fixp32 p scale) fixp32_to_bytes.
Proof.
  apply (rewrites_intro (fun v => is_signed 32 (unscaled32 v) /\ scale32 v = scale)
           _ _ _ (fun v => be_split 4 (unscaled32 v))
           (fun bs => Fixp32 (signed_of bs) scale)).
  - intros m r p v [Hv _] Hp Hn. apply fixp32_to_bytes_run; [assumption|lia..].
  - intros m r p [u sc] [Hv Hs] Hat. cbn in Hv, Hs, Hat. subst sc.
    apply bytes_to_fixp32_wire; assumption.
  - intros bs Hl Hb. cbn [unscaled32 scale32].
    destruct (signed_of_ok 4 bs Hl ltac:(lia) Hb) as [H1 H2]. auto.
  - lia.
Qed.

Lemma fixp64_rewrites (scale : Z) :
  rewrites 8 (fun p => bytes_to_fixp64 p scale) fixp64_to_bytes.
Proof.
  apply (rewrites_intro (fun v => is_signed 64 (unscaled64 v) /\ scale64 v = scale)
           _ _ _ (fun v => be_split 8 (unscaled64 v))
           (fun bs => Fixp64 (signed_of bs) scale)).
  - intros m r p v [Hv _] Hp Hn. apply fixp64_to_bytes_run; [assumption|lia..].
  - intros m r p [u sc] [Hv Hs] Hat. cbn in Hv, Hs, Hat. subst sc.
    apply bytes_to_fixp64_wire; assumption.
  - intros bs Hl Hb. cbn [unscaled64 scale64].
    destruct (signed_of_ok 8 bs Hl ltac:(lia) Hb) as [H1 H2]. auto.
  - lia.
Qed.

(** X1. A decoder followed by its encoder, run in place on any bytes of the
    width of the type, leaves the memory as it was: the encoder writes back
    exactly the bytes the value was read from. This holds for the integers
    of every width, for float and double on a host of either byte order, for
    the domain types and for the fixed-point types under any scale; it does
    not hold for bool, whose decoder maps every non-zero byte to 1. *)
Theorem codec_rewrites (host_big_endian : bool) (scale : Z) :
  rewrites 1 bytes_to_uint8 uint8_to_bytes /\
  rewrites 2 bytes_to_uint16 uint16_to_bytes /\
  rewrites 4 bytes_to_uint32 uint32_to_bytes /\
  rewrites 8 bytes_to_uint64 uint64_to_bytes /\
  rewrites 1 bytes_to_int8 int8_to_bytes /\
  rewrites 2 bytes_to_int16 int16_to_bytes /\
  rewrites 4 bytes_to_int32 int32_to_bytes /\
  rewrites 8 bytes_to_int64 int64_to_bytes /\
  rewrites 4 (bytes_to_float host_big_endian) (float_to_bytes host_big_endian) /\
  rewrites 8 (bytes_to_double host_big_endian) (double_to_bytes host_big_endian) /\
  rewrites 8 bytes_to_time_point time_point_to_bytes /\
  rewrites 3 bytes_to_hh_mm_ss hh_mm_ss_to_bytes /\
  rewrites 16 bytes_to_date_range date_range_to_bytes /\
  rewrites 6 bytes_to_time_range time_range_to_bytes /\
  rewrites 2 bytes_to_zone_offset zone_offset_to_bytes /\
  rewrites 10 bytes_to_zoned_time zoned_time_to_bytes /\
  rewrites 4 (fun p => bytes_to_fixp32 p scale) fixp32_to_bytes /\
  rewrites 8 (fun p => bytes_to_fixp64 p scale) fixp64_to_bytes.
Proof.
  repeat apply conj.
  - rewrites_with (is_unsigned 8) (be_split 1) unsigned_of
      uint8_to_bytes_run bytes_to_uint8_wire (unsigned_of_ok 1).
  - rewrites_with (is_unsigned 16) (be_split 2) unsigned_of
      uint16_to_bytes_run bytes_to_uint16_wire (unsigned_of_ok 2).
  - rewrites_with (is_unsigned 32) (be_split 4) unsigned_of
      uint32_to_bytes_run bytes_to_uint32_wire (unsigned_of_ok 4).
  - rewrites_with (is_unsigned 64) (be_split 8) unsigned_of
      uint64_to_bytes_run bytes_to_uint64_wire (unsigned_of_ok 8).
  - rewrites_with (is_signed 8) (be_split 1) signed_of
      int8_to_bytes_run bytes_to_int8_wire (signed_of_ok 1).
  - rewrites_with (is_signed 16) (be_split 2) signed_of
      int16_to_bytes_run bytes_to_int16_wire (signed_of_ok 2).
  - rewrites_with (is_signed 32) (be_split 4) signed_of
      int32_to_bytes_run bytes_to_int32_wire (signed_of_ok 4).
  - rewrites_with (is_signed 64) (be_split 8) signed_of
      int64_to_bytes_run bytes_to_int64_wire (signed_of_ok 8).
  - rewrites_with (is_unsigned 32) (be_split 4) unsigned_of
      float_to_bytes_run bytes_to_float_wire (unsigned_of_ok 4).
  - rewrites_with (is_unsigned 64) (be_split 8) unsigned_of
      double_to_bytes_run bytes_to_double_wire (unsigned_of_ok 8).
  - rewrites_with (is_signed 64) (be_split 8) signed_of
      int64_to_bytes_run bytes_to_int64_wire (signed_of_ok 8).
  - rewrites_with hh_mm_ss_ok wire_hh_mm_ss hh_mm_ss_of
      hh_mm_ss_to_bytes_run bytes_to_hh_mm_ss_wire hh_mm_ss_of_ok.
  - rewrites_with date_range_ok wire_date_range date_range_of
      date_range_to_bytes_run bytes_to_date_range_wire date_range_of_ok.
  - rewrites_with time_range_ok wire_time_range time_range_of
      time_range_to_bytes_run bytes_to_time_range_wire time_range_of_ok.
  - rewrites_with (is_signed 16) (be_split 2) signed_of
      int16_to_bytes_run bytes_to_int16_wire (signed_of_ok 2).
  - rewrites_with zoned_time_ok wire_zoned_time zoned_time_of
      zoned_time_to_bytes_run bytes_to_zoned_time_wire zoned_time_of_ok.
  - apply fixp32_rewrites.
  - apply fixp64_rewrites.
Qed.

Lemma codec_rewrites_witness :
  memory ((let* v := bytes_to_int32 1 in int32_to_bytes v 1)
            (init [0x00; 0xDE; 0xAD; 0xBE; 0xEF; 0x00]))
  = [0x00; 0xDE; 0xAD; 0xBE; 0xEF; 0x00]
  /\ memory ((let* v := bytes_to_zoned_time 0 in zoned_time_to_bytes v 0)
               (init [0xFF; 1; 2; 3; 4; 5; 6; 7; 0x80; 0x00]))
     = [0xFF; 1; 2; 3; 4; 5; 6; 7; 0x80; 0x00]
  /\ memory ((let* v := bytes_to_float false 0 in float_to_bytes false v 0)
               (init [0x7F; 0xC0; 0x00; 0x01]))
     = [0x7F; 0xC0; 0x00; 0x01].
Proof.
  destruct (codec_rewrites false 0)
    as (_ & _ & _ & _ & _ & _ & Hi32 & _ & Hf & _ & _ & _ & _ & _ & _ & Hz & _).
  repeat apply conj.
  - apply (Hi32 (init [0x00; 0xDE; 0xAD; 0xBE; 0xEF; 0x00]) 1 [0xDE; 0xAD; 0xBE; 0xEF]);
      [reflexivity | repeat constructor; unfold byte; lia |].
    apply (bytes_at_middle [0x00] [0xDE; 0xAD; 0xBE; 0xEF] [0x00]).
  - apply (Hz (init [0xFF; 1; 2; 3; 4; 5; 6; 7; 0x80; 0x00]) 0
              [0xFF; 1; 2; 3; 4; 5; 6; 7; 0x80; 0x00]);
      [reflexivity | repeat constructor; unfold byte; lia |].
    apply (bytes_at_middle [] [0xFF; 1; 2; 3; 4; 5; 6; 7; 0x80; 0x00] []).
  - apply (Hf (init [0x7F; 0xC0; 0x00; 0x01]) 0 [0x7F; 0xC0; 0x00; 0x01]);
      [reflexivity | repeat constructor; unfold byte; lia |].
    apply (bytes_at_middle [] [0x7F; 0xC0; 0x00; 0x01] []).
Defined.

(** ** The wire forms *)

Ltac encodes_with n enc_run :=
  apply (encodes_intro _ _ _ n);
  [ intros; rewrite ?length_app, ?wire_hh_mm_ss_length, ?be_split_length; reflexivity
  | intros; apply enc_run; first [assumption | lia] ].

(** C8. Integers are written most significant byte first, whatever the
    host: none of the eight integer encoders takes a host parameter, and each
    of them writes, at any address where they fit, the [n] bytes
    [be_split n v] of the value [v] and changes no other byte. Byte [k] of
    these [n] bytes holds the bits of [v] from [8 (n - 1 - k)] on, and a
    negative value is written as its two's complement. In particular
    [uint32_to_bytes] of [0x01020304] writes [01 02 03 04] and
    [int16_to_bytes] of [-1] writes [FF FF], at any address of any
    memory. *)
Theorem integers_big_endian :
  encodes (is_unsigned 8) uint8_to_bytes (be_split 1) /\
  encodes (is_unsigned 16) uint16_to_bytes (be_split 2) /\
  encodes (is_unsigned 32) uint32_to_bytes (be_split 4) /\
  encodes (is_unsigned 64) uint64_to_bytes (be_split 8) /\
  encodes (is_signed 8) int8_to_bytes (be_split 1) /\
  encodes (is_signed 16) int16_to_bytes (be_split 2) /\
  encodes (is_signed 32) int32_to_bytes (be_split 4) /\
  encodes (is_signed 64) int64_to_bytes (be_split 8) /\
  (forall (n k : nat) (v : Z),
     (k < n)%nat ->
     be_split n v !! k = Some ((v / 2 ^ (8 * (Z.of_nat n - 1 - Z.of_nat k))) mod 256)) /\
  (forall (n : nat) (v : Z), be_split n v = be_split n (v mod 2 ^ (8 * Z.of_nat n))) /\
  (forall (s : state) (p : Z),
     in_bounds s p 4 ->
     result (uint32_to_bytes 0x01020304 p s) = Done tt
     /\ writes (mem s) p [0x01; 0x02; 0x03; 0x04]
          (memory (uint32_to_bytes 0x01020304 p s))) /\
  (forall (s : state) (p : Z),
     in_bounds s p 2 ->
     result (int16_to_bytes (-1) p s) = Done tt
     /\ writes (mem s) p [0xFF; 0xFF] (memory (int16_to_bytes (-1) p s))).
Proof.
  assert (encodes (is_unsigned 32) uint32_to_bytes (be_split 4)) as Hu32
    by encodes_with 4 uint32_to_bytes_run.
  assert (encodes (is_signed 16) int16_to_bytes (be_split 2)) as Hi16
    by encodes_with 2 int16_to_bytes_run.
  repeat match goal with |- _ /\ _ => split end.
  - encodes_with 1 uint8_to_bytes_run.
  - encodes_with 2 uint16_to_bytes_run.
  - exact Hu32.
  - encodes_with 8 uint64_to_bytes_run.
  - encodes_with 1 int8_to_bytes_run.
  - exact Hi16.
  - encodes_with 4 int32_to_bytes_run.
  - encodes_with 8 int64_to_bytes_run.
  - intros n k v Hk. apply be_split_lookup, Hk.
  - intros n v. apply be_split_mod. symmetry. apply Z.mod_mod.
    apply Z.pow_nonzero; lia.
  - intros s p Hp. apply (Hu32 s p 0x01020304); [unfold is_unsigned; lia | exact Hp].
  - intros s p Hp. apply (Hi16 s p (-1)); [unfold is_signed; lia | exact Hp].
Qed.

Lemma integers_big_endian_witness :
  (result (uint32_to_bytes 0x01020304 1 (init [7; 7; 7; 7; 7; 7])) = Done tt
   /\ writes [7; 7; 7; 7; 7; 7] 1 [0x01; 0x02; 0x03; 0x04]
        (memory (uint32_to_bytes 0x01020304 1 (init [7; 7; 7; 7; 7; 7]))))
  /\ (result (int16_to_bytes (-1) 0 (init [0; 0])) = Done tt
      /\ writes [0; 0] 0 [0xFF; 0xFF] (memory (int16_to_bytes (-1) 0 (init [0; 0]))))
  /\ (result (uint64_to_bytes 0x0102030405060708 2 (init [7; 7; 7; 7; 7; 7; 7; 7; 7; 7; 7]))
      = Done tt
      /\ writes [7; 7; 7; 7; 7; 7; 7; 7; 7; 7; 7] 2 [1; 2; 3; 4; 5; 6; 7; 8]
           (memory (uint64_to_bytes 0x0102030405060708 2
                      (init [7; 7; 7; 7; 7; 7; 7; 7; 7; 7; 7])))).
Proof.
  destruct integers_big_endian
    as (_ & _ & _ & Hu64 & _ & _ & _ & _ & _ & _ & Hex32 & Hex16).
  split; [|split].
  - apply (Hex32 (init [7; 7; 7; 7; 7; 7]) 1). split; cbn; lia.
  - apply (Hex16 (init [0; 0]) 0). split; cbn; lia.
  - apply (Hu64 (init [7; 7; 7; 7; 7; 7; 7; 7; 7; 7; 7]) 2 0x0102030405060708);
      [unfold is_unsigned | split; cbn]; lia.
Defined.

(** X2. Every primitive encoder writes the bytes of the value, most
    significant first, from the address it is given on, and changes no other
    byte of the memory: 1, 2, 4 and 8 bytes for the integers, the two's
    complement for the signed ones, the 4 and 8 bytes of the IEEE bit pattern
    for float and double whatever the byte order of the host, and the
    parameter as it is for bool. Byte [k] of the [n] bytes holds the bits
    from [8 (n - 1 - k)] on. *)
Theorem primitive_wire (host_big_endian : bool) :
  encodes (is_unsigned 8) uint8_to_bytes (be_split 1) /\
  encodes (is_unsigned 16) uint16_to_bytes (be_split 2) /\
  encodes (is_unsigned 32) uint32_to_bytes (be_split 4) /\
  encodes (is_unsigned 64) uint64_to_bytes (be_split 8) /\
  encodes (is_signed 8) int8_to_bytes (be_split 1) /\
  encodes (is_signed 16) int16_to_bytes (be_split 2) /\
  encodes (is_signed 32) int32_to_bytes (be_split 4) /\
  encodes (is_signed 64) int64_to_bytes (be_split 8) /\
  encodes (is_unsigned 32) (float_to_bytes host_big_endian) (be_split 4) /\
  encodes (is_unsigned 64) (double_to_bytes host_big_endian) (be_split 8) /\
  encodes byte bool_to_bytes (fun v => [v]) /\
  (forall (n k : nat) (v : Z),
     (k < n)%nat ->
     be_split n v !! k = Some ((v / 2 ^ (8 * (Z.of_nat n - 1 - Z.of_nat k))) mod 256)).
Proof.
  repeat apply conj.
  - encodes_with 1 uint8_to_bytes_run.
  - encodes_with 2 uint16_to_bytes_run.
  - encodes_with 4 uint32_to_bytes_run.
  - encodes_with 8 uint64_to_bytes_run.
  - encodes_with 1 int8_to_bytes_run.
  - encodes_with 2 int16_to_bytes_run.
  - encodes_with 4 int32_to_bytes_run.
  - encodes_with 8 int64_to_bytes_run.
  - encodes_with 4 float_to_bytes_run.
  - encodes_with 8 double_to_bytes_run.
  - encodes_with 1 bool_to_bytes_run.
  - intros n k v Hk. apply be_split_lookup, Hk.
Qed.

Lemma primitive_wire_witness :
  (result (int32_to_bytes (-2) 1 (init [7; 7; 7; 7; 7; 7])) = Done tt
   /\ writes [7; 7; 7; 7; 7; 7] 1 [0xFF; 0xFF; 0xFF; 0xFE]
        (memory (int32_to_bytes (-2) 1 (init [7; 7; 7; 7; 7; 7]))))
  /\ (result (float_to_bytes true 0x3F800000 0 (init [7; 7; 7; 7; 7])) = Done tt
      /\ writes [7; 7; 7; 7; 7] 0 [0x3F; 0x80; 0x00; 0x00]
           (memory (float_to_bytes true 0x3F800000 0 (init [7; 7; 7; 7; 7]))))
  /\ (result (float_to_bytes false 0x3F800000 0 (init [7; 7; 7; 7; 7])) = Done tt
      /\ writes [7; 7; 7; 7; 7] 0 [0x3F; 0x80; 0x00; 0x00]
           (memory (float_to_bytes false 0x3F800000 0 (init [7; 7; 7; 7; 7])))).
Proof.
  destruct (primitive_wire true) as (_ & _ & _ & _ & _ & _ & Hi32 & _ & Hbe & _).
  destruct (primitive_wire false) as (_ & _ & _ & _ & _ & _ & _ & _ & Hle & _).
  split; [|split].
  - apply (Hi32 (init [7; 7; 7; 7; 7; 7]) 1 (-2)); [unfold is_signed | split; cbn]; lia.
  - apply (Hbe (init [7; 7; 7; 7; 7]) 0 0x3F800000); [unfold is_unsigned | split; cbn]; lia.
  - apply (Hle (init [7; 7; 7; 7; 7]) 0 0x3F800000); [unfold is_unsigned | split; cbn]; lia.
Defined.

(** X3. The wire forms of the domain types: a time_point is the 8 bytes of
    an int64, a zone_offset the 2 bytes of an int16, an hh_mm_ss the three
    bytes hours, minutes, seconds, a time_range the 3 bytes of [from] and the
    3 bytes of [to], a date_range the 8 bytes of [from] and the 8 bytes of
    [to], a zoned_time the 8 bytes of the time and the 2 bytes of the offset,
    and a fixed-point value the 4 or 8 bytes of [unscaled] alone. Each
    encoder writes these bytes at the address it is given and changes no
    other byte. *)
Theorem domain_wire :
  encodes (is_signed 64) time_point_to_bytes (be_split 8) /\
  encodes (is_signed 16) zone_offset_to_bytes (be_split 2) /\
  encodes hh_mm_ss_ok hh_mm_ss_to_bytes
    (fun v => [hours v; minutes v; seconds v]) /\
  encodes time_range_ok time_range_to_bytes
    (fun v => wire_hh_mm_ss (time_from v) ++ wire_hh_mm_ss (time_to v)) /\
  encodes date_range_ok date_range_to_bytes
    (fun v => be_split 8 (date_from v) ++ be_split 8 (date_to v)) /\
  encodes zoned_time_ok zoned_time_to_bytes
    (fun v => be_split 8 (time v) ++ be_split 2 (offset v)) /\
  encodes fixp32_ok fixp32_to_bytes (fun v => be_split 4 (unscaled32 v)) /\
  encodes fixp64_ok fixp64_to_bytes (fun v => be_split 8 (unscaled64 v)).
Proof.
  repeat apply conj.
  - encodes_with 8 int64_to_bytes_run.
  - encodes_with 2 int16_to_bytes_run.
  - apply (encodes_intro _ _ _ 3); [reflexivity|].
    intros m r p v Hv Hp Hn.
    destruct (hh_mm_ss_to_bytes_run m r p v Hp Hn) as (m' & E & W).
    exists m'. split; [exact E|].
    destruct Hv as (Hh & Hm & Hs). unfold is_unsigned in *.
    unfold wire_hh_mm_ss in W. cbn in W. unfold uint8_t, wrap in W.
    rewrite !Z.mod_small in W by lia. exact W.
  - encodes_with 6 time_range_to_bytes_run.
  - encodes_with 16 date_range_to_bytes_run.
  - encodes_with 10 zoned_time_to_bytes_run.
  - apply (encodes_intro _ _ _ 4); [intros; rewrite be_split_length; reflexivity|].
    intros m r p v [Hv _] Hp Hn. apply fixp32_to_bytes_run; assumption.
  - apply (encodes_intro _ _ _ 8); [intros; rewrite be_split_length; reflexivity|].
    intros m r p v [Hv _] Hp Hn. apply fixp64_to_bytes_run; assumption.
Qed.

Lemma domain_wire_witness :
  (result (zoned_time_to_bytes (Zoned_time 1 (-60)) 0 (init (repeat 7 11%nat))) = Done tt
   /\ writes (repeat 7 11%nat) 0 [0; 0; 0; 0; 0; 0; 0; 1; 0xFF; 0xC4]
        (memory (zoned_time_to_bytes (Zoned_time 1 (-60)) 0 (init (repeat 7 11%nat)))))
  /\ (result (time_range_to_bytes (Time_range (Hh_mm_ss 8 30 0) (Hh_mm_ss 17 0 59)) 1
                (init (repeat 7 8%nat))) = Done tt
      /\ writes (repeat 7 8%nat) 1 [8; 30; 0; 17; 0; 59]
           (memory (time_range_to_bytes (Time_range (Hh_mm_ss 8 30 0) (Hh_mm_ss 17 0 59)) 1
                      (init (repeat 7 8%nat))))).
Proof.
  destruct domain_wire as (_ & _ & _ & Htr & _ & Hz & _).
  split.
  - apply (Hz (init (repeat 7 11%nat)) 0 (Zoned_time 1 (-60))).
    + split; unfold is_signed; cbn; lia.
    + split; cbn; lia.
  - apply (Htr (init (repeat 7 8%nat)) 1
             (Time_range (Hh_mm_ss 8 30 0) (Hh_mm_ss 17 0 59))).
    + repeat split; cbn; lia.
    + split; cbn; lia.
Defined.

(** ** Signed and unsigned codecs *)

(** What is written at a place is determined by the bytes. *)
Lemma writes_fun (m : list Z) (p : Z) (bs : list Z) (m1 m2 : list Z) :
  writes m p bs m1 -> writes m p bs m2 -> m1 = m2.
Proof.
  intros (Hl1 & [_ Hat1] & Ho1) (Hl2 & [_ Hat2] & Ho2).
  apply list_eq. intros i.
  destruct (decide (i < Z.to_nat p \/ Z.to_nat p + length bs <= i)%nat) as [Ho|Hi].
  - rewrite Ho1, Ho2 by exact Ho. reflexivity.
  - assert (Hk : (i - Z.to_nat p < length bs)%nat) by lia.
    apply lookup_lt_is_Some_2 in Hk as [b Hb].
    pose proof (Hat1 _ _ Hb) as E1. pose proof (Hat2 _ _ Hb) as E2.
    replace (Z.to_nat p + (i - Z.to_nat p))%nat with i in E1, E2 by lia.
    congruence.
Qed.

Lemma decoders_agree_intro (n : nat) (decu decs : Z -> M Z) :
  (forall m r p v, is_unsigned (8 * Z.of_nat n) v -> bytes_at m p (be_split n v) ->
     exists r', decu p (State m r) = (Done v, State m r')) ->
  (forall m r p v, is_signed (8 * Z.of_nat n) v -> bytes_at m p (be_split n v) ->
     exists r', decs p (State m r) = (Done v, State m r')) ->
  n <> 0%nat ->
  decoders_agree n decu decs.
Proof.
  intros Hu Hs Hn [m r] p bs Hlen Hb Hat. cbn [mem] in Hat.
  destruct (unsigned_of_ok n bs Hlen Hb) as [Hr Hw].
  destruct (signed_of_ok n bs Hlen Hn Hb) as [Hr' Hw'].
  exists (unsigned_of bs). unfold result.
  destruct (Hu m r p (unsigned_of bs) Hr) as [r1 ->]; [rewrite Hw; exact Hat|].
  destruct (Hs m r p (signed_of bs) Hr') as [r2 ->]; [rewrite Hw'; exact Hat|].
  unfold signed_of, unsigned_of. rewrite Hlen. split; reflexivity.
Qed.

Lemma encoders_agree_intro (n : nat) (encu encs : Z -> Z -> M unit) :
  (forall m r p v, 0 <= p -> p + Z.of_nat n <= Z.of_nat (length m) ->
     exists m', encu v p (State m r) = (Done tt, State m' r)
                /\ writes m p (be_split n v) m') ->
  (forall m r p v, is_signed (8 * Z.of_nat n) v ->
     0 <= p -> p + Z.of_nat n <= Z.of_nat (length m) ->
     exists m', encs v p (State m r) = (Done tt, State m' r)
                /\ writes m p (be_split n v) m') ->
  encoders_agree n encu encs.
Proof.
  intros Hu Hs [m r] p v Hv [Hp Hn]. cbn [mem] in Hn.
  destruct (Hu m r p (wrap (8 * Z.of_nat n) v) Hp Hn) as (m1 & -> & W1).
  destruct (Hs m r p v Hv Hp Hn) as (m2 & -> & W2).
  rewrite (be_split_mod n _ v) in W1 by (unfold wrap; apply Z.mod_mod; lia).
  rewrite (writes_fun _ _ _ _ _ W1 W2). reflexivity.
Qed.

(** X4. Signed integers travel as two's complement: on any bytes, the
    decoder of [intN_t] returns what the decoder of [uintN_t] returns,
    converted to the signed type; and the encoder of [intN_t] runs exactly
    as the encoder of [uintN_t] does on the value converted to the unsigned
    type, for N = 8, 16, 32 and 64. *)
Theorem signed_unsigned_agree :
  (decoders_agree 1 bytes_to_uint8 bytes_to_int8
   /\ decoders_agree 2 bytes_to_uint16 bytes_to_int16
   /\ decoders_agree 4 bytes_to_uint32 bytes_to_int32
   /\ decoders_agree 8 bytes_to_uint64 bytes_to_int64)
  /\ (encoders_agree 1 uint8_to_bytes int8_to_bytes
      /\ encoders_agree 2 uint16_to_bytes int16_to_bytes
      /\ encoders_agree 4 uint32_to_bytes int32_to_bytes
      /\ encoders_agree 8 uint64_to_bytes int64_to_bytes).
Proof.
  split; repeat apply conj.
  - apply decoders_agree_intro; [intros; apply bytes_to_uint8_wire
                               | intros; apply bytes_to_int8_wire | lia]; assumption.
  - apply decoders_agree_intro; [intros; apply bytes_to_uint16_wire
                               | intros; apply bytes_to_int16_wire | lia]; assumption.
  - apply decoders_agree_intro; [intros; apply bytes_to_uint32_wire
                               | intros; apply bytes_to_int32_wire | lia]; assumption.
  - apply decoders_agree_intro; [intros; apply bytes_to_uint64_wire
                               | intros; apply bytes_to_int64_wire | lia]; assumption.
  - apply encoders_agree_intro; intros;
      [apply uint8_to_bytes_run | apply int8_to_bytes_run]; assumption.
  - apply encoders_agree_intro; intros;
      [apply uint16_to_bytes_run | apply int16_to_bytes_run]; assumption.
  - apply encoders_agree_intro; intros;
      [apply uint32_to_bytes_run | apply int32_to_bytes_run]; assumption.
  - apply encoders_agree_intro; intros;
      [apply uint64_to_bytes_run | apply int64_to_bytes_run]; assumption.
Qed.

Lemma signed_unsigned_agree_witness :
  (exists u : Z,
     result (bytes_to_uint16 0 (init [0xFF; 0xC4])) = Done u
     /\ result (bytes_to_int16 0 (init [0xFF; 0xC4])) = Done (swrap 16 u))
  /\ int32_to_bytes (-2) 0 (init [0; 0; 0; 0])
     = uint32_to_bytes (wrap 32 (-2)) 0 (init [0; 0; 0; 0]).
Proof.
  destruct signed_unsigned_agree as [(_ & Hd & _) (_ & _ & He & _)].
  split.
  - apply (Hd (init [0xFF; 0xC4]) 0 [0xFF; 0xC4]);
      [reflexivity | repeat constructor; unfold byte; lia |].
    apply (bytes_at_middle [] [0xFF; 0xC4] []).
  - apply (He (init [0; 0; 0; 0]) 0 (-2)); [unfold is_signed | split; cbn]; lia.
Defined.

(** ** bool *)

(** X5. [bool_to_bytes] stores its parameter as it is and [bytes_to_bool]
    answers 1 for every byte that is not 0: a value other than 0 and 1 is on
    the wire unchanged and reads back as 1. *)
Theorem bool_not_normalised_on_wire (s : state) (p v : Z) :
  in_bounds s p 1 -> byte v ->
  result ((bool_to_bytes v p ;; bytes_to_bool p) s) = Done (if v =? 0 then 0 else 1)
  /\ memory (bool_to_bytes v p s) !! Z.to_nat p = Some v.
Proof.
  intros [Hp Hn] Hv. destruct s as [m r]. cbn [mem] in Hn.
  destruct (bool_to_bytes_run m r p v Hp Hn) as (m' & E & W).
  apply writes_bytes_at in W as Hat.
  destruct (bytes_to_bool_run m' r p v Hat) as (r' & E').
  unfold result, memory. rewrite (bind_Done _ _ _ _ _ E), E', E. cbn [fst snd mem].
  split.
  - destruct (v =? 0); reflexivity.
  - destruct Hat as [_ Hat]. specialize (Hat 0%nat v eq_refl).
    rewrite Nat.add_0_r in Hat. exact Hat.
Qed.

Lemma bool_not_normalised_on_wire_witness :
  result ((bool_to_bytes 2 0 ;; bytes_to_bool 0) (init [0])) = Done 1
  /\ memory (bool_to_bytes 2 0 (init [0])) !! Z.to_nat 0 = Some 2.
Proof.
  apply (bool_not_normalised_on_wire (init [0]) 0 2); [split; cbn | unfold byte]; lia.
Defined.

(** ** Floating point between hosts *)

(** X6. A float or a double written on a host of one byte order reads back
    as the same bit pattern on a host of the other. *)
Theorem float_between_hosts (writer reader : bool) (s : state) (p v : Z) :
  (in_bounds s p 4 -> is_unsigned 32 v ->
   result ((float_to_bytes writer v p ;; bytes_to_float reader p) s) = Done v)
  /\ (in_bounds s p 8 -> is_unsigned 64 v ->
      result ((double_to_bytes writer v p ;; bytes_to_double reader p) s) = Done v).
Proof.
  split; intros [Hp Hn] Hv.
  - apply (decode_encoded _ _ s p (be_split 4 v)).
    + apply float_to_bytes_run; lia.
    + intros m' r. apply bytes_to_float_wire. exact Hv.
  - apply (decode_encoded _ _ s p (be_split 8 v)).
    + apply double_to_bytes_run; lia.
    + intros m' r. apply bytes_to_double_wire. exact Hv.
Qed.

Lemma float_between_hosts_witness :
  result ((float_to_bytes true 0x3F800000 0 ;; bytes_to_float false 0) (init [0; 0; 0; 0]))
  = Done 0x3F800000
  /\ result ((double_to_bytes false 0x3FF0000000000000 0 ;; bytes_to_double true 0)
               (init (repeat 0 8%nat)))
     = Done 0x3FF0000000000000.
Proof.
  split.
  - apply (proj1 (float_between_hosts true false (init [0; 0; 0; 0]) 0 0x3F800000));
      [split; cbn | unfold is_unsigned]; lia.
  - apply (proj2 (float_between_hosts false true (init (repeat 0 8%nat)) 0
                    0x3FF0000000000000));
      [split; cbn | unfold is_unsigned]; lia.
Defined.

(** ** The bytes a codec function needs *)

Lemma touches_load (a : Z) : touches (load a) a 1.
Proof.
  intros s. unfold load, in_bounds. cbn [snd mem]. split; [|split].
  - destruct (a <? 0); [reflexivity|]. destruct (mem s !! Z.to_nat a); reflexivity.
  - intros [Ha Hlen]. destruct (Z.ltb_spec a 0) as [?|_]; [lia|].
    destruct (lookup_lt_is_Some_2 (mem s) (Z.to_nat a)) as [b ->]; [lia|].
    exists b. reflexivity.
  - intros Hout. exists a. destruct (Z.ltb_spec a 0) as [?|Hge].
    + split; [reflexivity | lia].
    + destruct (mem s !! Z.to_nat a) eqn:E.
      * apply lookup_lt_Some in E. lia.
      * split; [reflexivity | lia].
Qed.

Lemma touches_store (a v : Z) : touches (store a v) a 1.
Proof.
  intros s. unfold store, in_bounds. split; [|split].
  - destruct ((0 <=? a) && (a <? Z.of_nat (length (mem s)))); cbn [snd mem];
      [apply length_insert | reflexivity].
  - intros [Ha Hlen].
    destruct (Z.leb_spec 0 a) as [_|?]; [|lia].
    destruct (Z.ltb_spec a (Z.of_nat (length (mem s)))) as [_|?]; [|lia].
    exists tt. reflexivity.
  - intros Hout. exists a.
    destruct (Z.leb_spec 0 a) as [?|?];
      destruct (Z.ltb_spec a (Z.of_nat (length (mem s)))) as [?|?];
      cbn [andb fst]; split; try reflexivity; lia.
Qed.

Lemma touches_map {A B : Type} (m : M A) (f : A -> B) (p n : Z) :
  touches m p n -> touches (bind m (fun a => ret (f a))) p n.
Proof.
  intros H s. destruct (H s) as (Hl & Hin & Hout). unfold bind.
  destruct (m s) as [[a|a| |] s1]; cbn [fst snd] in *;
    (split; [exact Hl|]); split.
  - intros _. eexists. reflexivity.
  - intros Hn. destruct (Hout Hn) as (a' & E & _). discriminate.
  - intros Hi. destruct (Hin Hi) as (a' & E). discriminate.
  - intros Hn. destruct (Hout Hn) as (a' & E & Ha'). injection E as ->.
    exists a'. split; [reflexivity | exact Ha'].
  - intros Hi. destruct (Hin Hi) as (a' & E). discriminate.
  - intros Hn. destruct (Hout Hn) as (a' & E & _). discriminate.
  - intros Hi. destruct (Hin Hi) as (a' & E). discriminate.
  - intros Hn. destruct (Hout Hn) as (a' & E & _). discriminate.
Qed.

(** Two parts that lie side by side. *)
Lemma touches_bind {A B : Type} (m : M A) (k : A -> M B) (p1 n1 p2 n2 : Z) :
  touches m p1 n1 -> (forall a, touches (k a) p2 n2) ->
  0 <= n1 -> 0 <= n2 -> p1 + n1 = p2 \/ p2 + n2 = p1 ->
  touches (bind m k) (Z.min p1 p2) (n1 + n2).
Proof.
  intros H1 H2 Hn1 Hn2 Hadj s. destruct (H1 s) as (Hl & Hin & Hout). unfold bind.
  assert (in_bounds s (Z.min p1 p2) (n1 + n2)
          <-> in_bounds s p1 n1 /\ in_bounds s p2 n2) as Hsplit
    by (unfold in_bounds; lia).
  destruct (m s) as [[a|a| |] s1] eqn:E; cbn [fst snd] in *.
  - destruct (H2 a s1) as (Hl2 & Hin2 & Hout2).
    assert (in_bounds s1 p2 n2 <-> in_bounds s p2 n2) as Hs1
      by (unfold in_bounds; rewrite Hl; reflexivity).
    split; [congruence|]. split.
    + intros Hi. apply Hin2, Hs1, Hsplit, Hi.
    + intros Hn. destruct Hout2 as (a' & E' & Ha').
      { intros Hi2. apply Hn, Hsplit. split; [|apply Hs1, Hi2].
        assert (in_bounds s p1 n1 \/ ~ in_bounds s p1 n1) as [Hi1|Hn1']
          by (unfold in_bounds; lia); [exact Hi1|].
        destruct (Hout Hn1') as (a' & E' & _). discriminate. }
      exists a'. split; [exact E'|]. rewrite <- Hl. exact Ha'.
  - split; [exact Hl|]. split.
    + intros Hi. apply Hsplit in Hi as [Hi _]. destruct (Hin Hi) as (a' & E'). discriminate.
    + intros _. assert (in_bounds s p1 n1 \/ ~ in_bounds s p1 n1) as [Hi1|Hn1']
        by (unfold in_bounds; lia).
      * destruct (Hin Hi1) as (a' & E'). discriminate.
      * destruct (Hout Hn1') as (a' & E' & Ha'). injection E' as ->.
        exists a'. split; [reflexivity | exact Ha'].
  - split; [exact Hl|]. 
    assert (in_bounds s p1 n1 \/ ~ in_bounds s p1 n1) as [Hi1|Hn1']
      by (unfold in_bounds; lia).
    + destruct (Hin Hi1) as (a' & E'). discriminate.
    + destruct (Hout Hn1') as (a' & E' & _). discriminate.
  - split; [exact Hl|]. 
    assert (in_bounds s p1 n1 \/ ~ in_bounds s p1 n1) as [Hi1|Hn1']
      by (unfold in_bounds; lia).
    + destruct (Hin Hi1) as (a' & E'). discriminate.
    + destruct (Hout Hn1') as (a' & E' & _). discriminate.
Qed.

Lemma touches_at {A : Type} (m : M A) (p n p' n' : Z) :
  touches m p n -> p = p' -> n = n' -> touches m p' n'.
Proof. intros H <- <-. exact H. Qed.

Lemma touches_needs {A : Type} (n : Z) (f : Z -> M A) :
  (forall p, touches (f p) p n) -> needs n f.
Proof.
  intros H s p. destruct (H p s) as (_ & Hin & Hout). split; assumption.
Qed.

Ltac touch_with leaf :=
  lazymatch goal with
  | |- touches (load _) _ _ => apply touches_load
  | |- touches (store _ _) _ _ => apply touches_store
  | |- touches (bind _ (fun x => ret _)) _ _ => apply touches_map; touch_with leaf
  | |- touches (bind _ _) _ _ =>
      eapply touches_bind; [touch_with leaf | intros ?; touch_with leaf | lia | lia | lia]
  | |- _ => leaf
  end.

Ltac at_region_with leaf := eapply touches_at; [touch_with leaf | lia | lia].

Ltac at_region := at_region_with ltac:(idtac; fail).

Lemma bytes_to_uint8_touches (p : Z) : touches (bytes_to_uint8 p) p 1.
Proof. unfold bytes_to_uint8. at_region. Qed.

Lemma bytes_to_uint16_touches (p : Z) : touches (bytes_to_uint16 p) p 2.
Proof. unfold bytes_to_uint16. at_region. Qed.

Lemma bytes_to_uint32_touches (p : Z) : touches (bytes_to_uint32 p) p 4.
Proof. unfold bytes_to_uint32. at_region. Qed.

Lemma bytes_to_uint64_touches (p : Z) : touches (bytes_to_uint64 p) p 8.
Proof. unfold bytes_to_uint64. at_region. Qed.

Lemma bytes_to_int8_touches (p : Z) : touches (bytes_to_int8 p) p 1.
Proof. unfold bytes_to_int8. at_region. Qed.

Lemma bytes_to_int16_touches (p : Z) : touches (bytes_to_int16 p) p 2.
Proof. unfold bytes_to_int16. cbv zeta. at_region. Qed.

Lemma bytes_to_int32_touches (p : Z) : touches (bytes_to_int32 p) p 4.
Proof. unfold bytes_to_int32. cbv zeta. at_region. Qed.

Lemma bytes_to_int64_touches (p : Z) : touches (bytes_to_int64 p) p 8.
Proof. unfold bytes_to_int64. cbv zeta. at_region. Qed.

Lemma bytes_to_bool_touches (p : Z) : touches (bytes_to_bool p) p 1.
Proof. unfold bytes_to_bool. at_region. Qed.

Lemma bytes_to_float_touches (p : Z) (h : bool) : touches (bytes_to_float h p) p 4.
Proof.
  unfold bytes_to_float. rewrite is_big_endian_host.
  destruct h; cbn [Z.eqb negb]; at_region.
Qed.

Lemma bytes_to_double_touches (p : Z) (h : bool) : touches (bytes_to_double h p) p 8.
Proof.
  unfold bytes_to_double. rewrite is_big_endian_host.
  destruct h; cbn [Z.eqb negb]; at_region.
Qed.

Lemma uint8_to_bytes_touches (p : Z) (v : Z) : touches (uint8_to_bytes v p) p 1.
Proof. unfold uint8_to_bytes. at_region. Qed.

Lemma uint16_to_bytes_touches (p : Z) (v : Z) : touches (uint16_to_bytes v p) p 2.
Proof. unfold uint16_to_bytes. at_region. Qed.

Lemma uint32_to_bytes_touches (p : Z) (v : Z) : touches (uint32_to_bytes v p) p 4.
Proof. unfold uint32_to_bytes. at_region. Qed.

Lemma uint64_to_bytes_touches (p : Z) (v : Z) : touches (uint64_to_bytes v p) p 8.
Proof. unfold uint64_to_bytes. at_region. Qed.

Lemma int8_to_bytes_touches (p : Z) (v : Z) : touches (int8_to_bytes v p) p 1.
Proof. unfold int8_to_bytes. at_region. Qed.

Lemma int16_to_bytes_touches (p : Z) (v : Z) : touches (int16_to_bytes v p) p 2.
Proof. unfold int16_to_bytes. cbv zeta. at_region. Qed.

Lemma int32_to_bytes_touches (p : Z) (v : Z) : touches (int32_to_bytes v p) p 4.
Proof. unfold int32_to_bytes. cbv zeta. at_region. Qed.

Lemma int64_to_bytes_touches (p : Z) (v : Z) : touches (int64_to_bytes v p) p 8.
Proof. unfold int64_to_bytes. cbv zeta. at_region. Qed.

Lemma bool_to_bytes_touches (p : Z) (v : Z) : touches (bool_to_bytes v p) p 1.
Proof. unfold bool_to_bytes. at_region. Qed.

Lemma float_to_bytes_touches (p : Z) (h : bool) (v : Z) : touches (float_to_bytes h v p) p 4.
Proof.
  unfold float_to_bytes. rewrite is_big_endian_host. cbv zeta.
  destruct h; cbn [Z.eqb negb]; at_region.
Qed.

Lemma double_to_bytes_touches (p : Z) (h : bool) (v : Z) : touches (double_to_bytes h v p) p 8.
Proof.
  unfold double_to_bytes. rewrite is_big_endian_host. cbv zeta.
  destruct h; cbn [Z.eqb negb]; at_region.
Qed.

Ltac codec_leaf :=
  first [ apply bytes_to_uint8_touches | apply bytes_to_int16_touches
        | apply bytes_to_int32_touches | apply bytes_to_int64_touches
        | apply uint8_to_bytes_touches | apply int16_to_bytes_touches
        | apply int32_to_bytes_touches | apply int64_to_bytes_touches ].

Lemma bytes_to_hh_mm_ss_touches (p : Z) : touches (bytes_to_hh_mm_ss p) p 3.
Proof. unfold bytes_to_hh_mm_ss. at_region_with ltac:(idtac; codec_leaf). Qed.

Lemma hh_mm_ss_to_bytes_touches (p : Z) (v : hh_mm_ss) : touches (hh_mm_ss_to_bytes v p) p 3.
Proof. unfold hh_mm_ss_to_bytes. at_region_with ltac:(idtac; codec_leaf). Qed.

Lemma bytes_to_time_range_touches (p : Z) : touches (bytes_to_time_range p) p 6.
Proof.
  unfold bytes_to_time_range.
  at_region_with ltac:(idtac; apply bytes_to_hh_mm_ss_touches).
Qed.

Lemma time_range_to_bytes_touches (p : Z) (v : time_range) :
  touches (time_range_to_bytes v p) p 6.
Proof.
  unfold time_range_to_bytes.
  at_region_with ltac:(idtac; apply hh_mm_ss_to_bytes_touches).
Qed.

Lemma bytes_to_date_range_touches (p : Z) : touches (bytes_to_date_range p) p 16.
Proof.
  unfold bytes_to_date_range, bytes_to_time_point, sizeof_time_point.
  at_region_with ltac:(idtac; codec_leaf).
Qed.

Lemma date_range_to_bytes_touches (p : Z) (v : date_range) :
  touches (date_range_to_bytes v p) p 16.
Proof.
  unfold date_range_to_bytes, time_point_to_bytes, sizeof_time_point.
  at_region_with ltac:(idtac; codec_leaf).
Qed.

Lemma bytes_to_zoned_time_touches (p : Z) : touches (bytes_to_zoned_time p) p 10.
Proof.
  unfold bytes_to_zoned_time, bytes_to_time_point, bytes_to_zone_offset,
    sizeof_time_point.
  at_region_with ltac:(idtac; codec_leaf).
Qed.

Lemma zoned_time_to_bytes_touches (p : Z) (v : zoned_time) :
  touches (zoned_time_to_bytes v p) p 10.
Proof.
  unfold zoned_time_to_bytes, time_point_to_bytes, zone_offset_to_bytes,
    sizeof_time_point.
  at_region_with ltac:(idtac; codec_leaf).
Qed.

Lemma bytes_to_fixp32_touches (p : Z) (scale : Z) : touches (bytes_to_fixp32 p scale) p 4.
Proof. unfold bytes_to_fixp32. at_region_with ltac:(idtac; codec_leaf). Qed.

Lemma bytes_to_fixp64_touches (p : Z) (scale : Z) : touches (bytes_to_fixp64 p scale) p 8.
Proof. unfold bytes_to_fixp64. at_region_with ltac:(idtac; codec_leaf). Qed.

Lemma touches_codec {A : Type} (n : Z) (dec : Z -> M A) (enc : A -> Z -> M unit) :
  (forall p, touches (dec p) p n) -> (forall v p, touches (enc v p) p n) ->
  codec_needs n dec enc.
Proof.
  intros Hd He. split; [|intros v]; apply touches_needs; auto.
Qed.

(** X7. No codec function checks a length: the decoder and the encoder of a
    type complete exactly when all bytes of its wire form, from the address
    they are given, lie inside the memory, and stop at an access outside the
    memory otherwise. The wire forms take 1, 2, 4 and 8 bytes for the
    integers, 1 for bool, 4 for float, 8 for double and time_point, 3 for
    hh_mm_ss, 16 for date_range, 6 for time_range, 2 for zone_offset, 10 for
    zoned_time, and 4 and 8 for the fixed-point types. *)
Theorem codec_bounds (host_big_endian : bool) (scale : Z) :
  codec_needs 1 bytes_to_uint8 uint8_to_bytes /\
  codec_needs 2 bytes_to_uint16 uint16_to_bytes /\
  codec_needs 4 bytes_to_uint32 uint32_to_bytes /\
  codec_needs 8 bytes_to_uint64 uint64_to_bytes /\
  codec_needs 1 bytes_to_int8 int8_to_bytes /\
  codec_needs 2 bytes_to_int16 int16_to_bytes /\
  codec_needs 4 bytes_to_int32 int32_to_bytes /\
  codec_needs 8 bytes_to_int64 int64_to_bytes /\
  codec_needs 1 bytes_to_bool bool_to_bytes /\
  codec_needs 4 (bytes_to_float host_big_endian) (float_to_bytes host_big_endian) /\
  codec_needs 8 (bytes_to_double host_big_endian) (double_to_bytes host_big_endian) /\
  codec_needs 8 bytes_to_time_point time_point_to_bytes /\
  codec_needs 3 bytes_to_hh_mm_ss hh_mm_ss_to_bytes /\
  codec_needs 16 bytes_to_date_range date_range_to_bytes /\
  codec_needs 6 bytes_to_time_range time_range_to_bytes /\
  codec_needs 2 bytes_to_zone_offset zone_offset_to_bytes /\
  codec_needs 10 bytes_to_zoned_time zoned_time_to_bytes /\
  codec_needs 4 (fun p => bytes_to_fixp32 p scale) fixp32_to_bytes /\
  codec_needs 8 (fun p => bytes_to_fixp64 p scale) fixp64_to_bytes.
Proof.
  repeat match goal with |- codec_needs _ _ _ /\ _ => split end.
  - apply touches_codec; intros; [apply bytes_to_uint8_touches | apply uint8_to_bytes_touches].
  - apply touches_codec; intros; [apply bytes_to_uint16_touches | apply uint16_to_bytes_touches].
  - apply touches_codec; intros; [apply bytes_to_uint32_touches | apply uint32_to_bytes_touches].
  - apply touches_codec; intros; [apply bytes_to_uint64_touches | apply uint64_to_bytes_touches].
  - apply touches_codec; intros; [apply bytes_to_int8_touches | apply int8_to_bytes_touches].
  - apply touches_codec; intros; [apply bytes_to_int16_touches | apply int16_to_bytes_touches].
  - apply touches_codec; intros; [apply bytes_to_int32_touches | apply int32_to_bytes_touches].
  - apply touches_codec; intros; [apply bytes_to_int64_touches | apply int64_to_bytes_touches].
  - apply touches_codec; intros; [apply bytes_to_bool_touches | apply bool_to_bytes_touches].
  - apply touches_codec; intros; [apply bytes_to_float_touches | apply float_to_bytes_touches].
  - apply touches_codec; intros; [apply bytes_to_double_touches | apply double_to_bytes_touches].
  - apply touches_codec; intros; [apply bytes_to_int64_touches | apply int64_to_bytes_touches].
  - apply touches_codec; intros; [apply bytes_to_hh_mm_ss_touches | apply hh_mm_ss_to_bytes_touches].
  - apply touches_codec; intros; [apply bytes_to_date_range_touches | apply date_range_to_bytes_touches].
  - apply touches_codec; intros; [apply bytes_to_time_range_touches | apply time_range_to_bytes_touches].
  - apply touches_codec; intros; [apply bytes_to_int16_touches | apply int16_to_bytes_touches].
  - apply touches_codec; intros; [apply bytes_to_zoned_time_touches | apply zoned_time_to_bytes_touches].
  - apply touches_codec; intros; [apply bytes_to_fixp32_touches | apply int32_to_bytes_touches].
  - apply touches_codec; intros; [apply bytes_to_fixp64_touches | apply int64_to_bytes_touches].
Qed.

Lemma codec_bounds_witness :
  (exists a, result (bytes_to_uint32 1 (init [0; 1; 2; 3; 4])) = Done a)
  /\ (exists a, result (bytes_to_uint32 2 (init [0; 1; 2; 3; 4])) = OutOfBounds a
               /\ ~ (0 <= a < Z.of_nat (length (mem (init [0; 1; 2; 3; 4])))))
  /\ (exists a, result (zoned_time_to_bytes (Zoned_time 1 2) 0 (init (repeat 0 9%nat)))
               = OutOfBounds a
               /\ ~ (0 <= a < Z.of_nat (length (mem (init (repeat 0 9%nat)))))).
Proof.
  destruct (codec_bounds false 0)
    as (_ & _ & [Hu32 _] & _ & _ & _ & _ & _ & _ & _ & _ & _ & _ & _ & _ & _ & [_ Hz] & _).
  repeat apply conj.
  - apply (Hu32 (init [0; 1; 2; 3; 4]) 1). split; cbn; lia.
  - apply (Hu32 (init [0; 1; 2; 3; 4]) 2). intros [_ H]. cbn in H. lia.
  - apply (Hz (Zoned_time 1 2) (init (repeat 0 9%nat)) 0). intros [_ H]. cbn in H. lia.
Defined.

(** ** The entry that ends the scan *)

Section ScanEnds.

Variables (buf buf_len : Z) (m : list Z).
Hypothesis buf_len_size_t : buf_len < 2 ^ 64.

Ltac enter_loop i H :=
  cbn [tlv_scan]; destruct (Z.ltb_spec i buf_len) as [_|?]; [|lia];
  step_load H 0%nat.

Ltac not_type t c :=
  destruct (Z.eqb_spec t c) as [?|_]; [first [contradiction | lia | discriminate]|].

(** The length field that breaks the loop: the reserved length, and a field
    that the buffer does not hold. *)
Lemma tlv_length_reserved (r : list Z) (j : Z) :
  0 <= j -> j + 2 <= buf_len ->
  bytes_at m (buf + j) [0xFF; 0xFF; 0xFF] ->
  exists r', tlv_length buf buf_len j (State m r) = (Done None, State m r').
Proof.
  intros Hj Hle H. unfold tlv_length. rewrite !size_t_small by lia.
  destruct (Z.ltb_spec buf_len (j + 1)) as [?|_]; [lia|].
  step_load H 0%nat. cbn [Z.eqb Pos.eqb].
  destruct (Z.ltb_spec buf_len (j + 2)) as [?|_]; [lia|].
  step_load H 1%nat. step_load H 2%nat.
  eexists. reflexivity.
Qed.

Lemma tlv_length_none (r : list Z) (j : Z) :
  0 <= j -> buf_len < j + 1 -> j + 1 < 2 ^ 64 ->
  tlv_length buf buf_len j (State m r) = (Done None, State m r).
Proof.
  intros Hj Hlt Hmax. unfold tlv_length. rewrite (size_t_small (j + 1)) by lia.
  destruct (Z.ltb_spec buf_len (j + 1)) as [_|?]; [|lia]. reflexivity.
Qed.

Lemma tlv_length_mark (r : list Z) (j : Z) :
  0 <= j -> j + 1 <= buf_len -> buf_len < j + 2 -> j + 2 < 2 ^ 64 ->
  bytes_at m (buf + j) [0xFF] ->
  exists r', tlv_length buf buf_len j (State m r) = (Done None, State m r').
Proof.
  intros Hj Hle Hlt Hmax H. unfold tlv_length.
  rewrite (size_t_small (j + 1)), (size_t_small (j + 2)) by lia.
  destruct (Z.ltb_spec buf_len (j + 1)) as [?|_]; [lia|].
  step_load H 0%nat. cbn [Z.eqb Pos.eqb].
  destruct (Z.ltb_spec buf_len (j + 2)) as [_|?]; [|lia].
  eexists. reflexivity.
Qed.

(** An NDEF entry with its length in one byte. *)
Lemma tlv_scan_ndef_short (f : nat) (r : list Z) (i off len : Z) :
  0 <= i -> i + 2 <= buf_len ->
  bytes_at m (buf + i) [TLV_TYPE_NDEF; len] -> 0 <= len < 0xFF ->
  exists r',
    tlv_scan (S f) buf buf_len i off (State m r) = (Done (len, i + 2), State m r').
Proof.
  intros Hi Hle H Hlen. enter_loop i H.
  cbn [Z.eqb Pos.eqb TLV_TYPE_NDEF TLV_TYPE_NULL TLV_TYPE_TERMINATOR].
  rewrite size_t_small by lia.
  split_bytes H 1%nat (buf + (i + 1)) H0 H1.
  destruct (tlv_length_short buf buf_len m buf_len_size_t (r ++ [buf + i]) (i + 1) len)
    as [r' E]; try lia; [exact H1|].
  run E. exists r'. unfold ret. do 3 f_equal. lia.
Qed.

(** An NDEF entry with its length in two bytes. *)
Lemma tlv_scan_ndef_long (f : nat) (r : list Z) (i off len : Z) :
  0 <= i -> i + 4 <= buf_len ->
  bytes_at m (buf + i) [TLV_TYPE_NDEF; 0xFF; len / 256; len mod 256] ->
  0 <= len < 0xFFFF ->
  exists r',
    tlv_scan (S f) buf buf_len i off (State m r) = (Done (len, i + 4), State m r').
Proof.
  intros Hi Hle H Hlen. enter_loop i H.
  cbn [Z.eqb Pos.eqb TLV_TYPE_NDEF TLV_TYPE_NULL TLV_TYPE_TERMINATOR].
  rewrite size_t_small by lia.
  split_bytes H 1%nat (buf + (i + 1)) H0 H1.
  destruct (tlv_length_long buf buf_len m buf_len_size_t (r ++ [buf + i]) (i + 1) len)
    as [r' E]; try lia; [exact H1|].
  run E. exists r'. unfold ret. do 3 f_equal. lia.
Qed.

(** The reserved length [0xFFFF]. *)
Lemma tlv_scan_reserved (f : nat) (r : list Z) (i off t : Z) :
  0 <= i -> i + 3 <= buf_len ->
  t <> TLV_TYPE_NULL -> t <> TLV_TYPE_TERMINATOR ->
  bytes_at m (buf + i) [t; 0xFF; 0xFF; 0xFF] ->
  exists r',
    tlv_scan (S f) buf buf_len i off (State m r) = (Done (0, off), State m r').
Proof.
  intros Hi Hle Hn Ht H. enter_loop i H.
  not_type t TLV_TYPE_NULL. not_type t TLV_TYPE_TERMINATOR.
  rewrite size_t_small by lia.
  split_bytes H 1%nat (buf + (i + 1)) H0 H1.
  destruct (tlv_length_reserved (r ++ [buf + i]) (i + 1)) as [r' E];
    try lia; [exact H1|].
  run E. exists r'. reflexivity.
Qed.

(** A type byte at the end of the buffer. *)
Lemma tlv_scan_lone_type (f : nat) (r : list Z) (i off t : Z) :
  0 <= i -> i + 1 = buf_len -> buf_len + 1 < 2 ^ 64 ->
  t <> TLV_TYPE_NULL -> t <> TLV_TYPE_TERMINATOR ->
  bytes_at m (buf + i) [t] ->
  exists r',
    tlv_scan (S f) buf buf_len i off (State m r) = (Done (0, off), State m r').
Proof.
  intros Hi Hle Hmax Hn Ht H. enter_loop i H.
  not_type t TLV_TYPE_NULL. not_type t TLV_TYPE_TERMINATOR.
  rewrite size_t_small by lia.
  rewrite (bind_Done _ _ _ _ _ (tlv_length_none _ (i + 1) ltac:(lia) ltac:(lia) ltac:(lia))).
  eexists. reflexivity.
Qed.

(** A type byte and the mark of the extended form at the end of the
    buffer. *)
Lemma tlv_scan_lone_mark (f : nat) (r : list Z) (i off t : Z) :
  0 <= i -> i + 2 = buf_len -> buf_len + 1 < 2 ^ 64 ->
  t <> TLV_TYPE_NULL -> t <> TLV_TYPE_TERMINATOR ->
  bytes_at m (buf + i) [t; 0xFF] ->
  exists r',
    tlv_scan (S f) buf buf_len i off (State m r) = (Done (0, off), State m r').
Proof.
  intros Hi Hle Hmax Hn Ht H. enter_loop i H.
  not_type t TLV_TYPE_NULL. not_type t TLV_TYPE_TERMINATOR.
  rewrite size_t_small by lia.
  split_bytes H 1%nat (buf + (i + 1)) H0 H1.
  destruct (tlv_length_mark (r ++ [buf + i]) (i + 1)) as [r' E];
    try lia; [exact H1|].
  run E. exists r'. reflexivity.
Qed.

(** An entry that is passed over and whose value runs to the end of the
    buffer or past it. *)
Lemma tlv_scan_overlong (f : nat) (r : list Z) (i off t len : Z) :
  0 <= i -> i + 2 <= buf_len -> buf_len <= i + 2 + len -> buf_len + 0xFF < 2 ^ 64 ->
  t <> TLV_TYPE_NULL -> t <> TLV_TYPE_TERMINATOR -> t <> TLV_TYPE_NDEF ->
  bytes_at m (buf + i) [t; len] -> 0 <= len < 0xFF ->
  exists r',
    tlv_scan (S (S f)) buf buf_len i off (State m r) = (Done (0, off), State m r').
Proof.
  intros Hi Hle Hge Hmax Hn Ht Hd H Hlen.
  remember (S f) as f1 eqn:Ef. enter_loop i H.
  not_type t TLV_TYPE_NULL. not_type t TLV_TYPE_TERMINATOR.
  rewrite size_t_small by lia.
  split_bytes H 1%nat (buf + (i + 1)) H0 H1.
  destruct (tlv_length_short buf buf_len m buf_len_size_t (r ++ [buf + i]) (i + 1) len)
    as [r' E]; try lia; [exact H1|].
  run E. not_type t TLV_TYPE_NDEF.
  rewrite size_t_small by lia. subst f1. cbn [tlv_scan].
  destruct (Z.ltb_spec (i + 1 + 1 + len) buf_len) as [?|_]; [lia|].
  exists r'. reflexivity.
Qed.

(** The same with the length in two bytes. *)
Lemma tlv_scan_overlong_long (f : nat) (r : list Z) (i off t len : Z) :
  0 <= i -> i + 4 <= buf_len -> buf_len <= i + 4 + len -> buf_len + 0xFFFF < 2 ^ 64 ->
  t <> TLV_TYPE_NULL -> t <> TLV_TYPE_TERMINATOR -> t <> TLV_TYPE_NDEF ->
  bytes_at m (buf + i) [t; 0xFF; len / 256; len mod 256] -> 0 <= len < 0xFFFF ->
  exists r',
    tlv_scan (S (S f)) buf buf_len i off (State m r) = (Done (0, off), State m r').
Proof.
  intros Hi Hle Hge Hmax Hn Ht Hd H Hlen.
  remember (S f) as f1 eqn:Ef. enter_loop i H.
  not_type t TLV_TYPE_NULL. not_type t TLV_TYPE_TERMINATOR.
  rewrite size_t_small by lia.
  split_bytes H 1%nat (buf + (i + 1)) H0 H1.
  destruct (tlv_length_long buf buf_len m buf_len_size_t (r ++ [buf + i]) (i + 1) len)
    as [r' E]; try lia; [exact H1|].
  run E. not_type t TLV_TYPE_NDEF.
  rewrite size_t_small by lia. subst f1. cbn [tlv_scan].
  destruct (Z.ltb_spec (i + 1 + 3 + len) buf_len) as [?|_]; [lia|].
  exists r'. reflexivity.
Qed.

End ScanEnds.

(** The scan of a buffer, up to the entry after those passed over. *)
Lemma scan_buffer_at (es : list tlv) (back : list Z) (f : nat) (off : Z) :
  Forall skipped es ->
  Z.of_nat (length (tlv_stream es)) + Z.of_nat (length back) < 2 ^ 64 ->
  exists r',
    scan_buffer (length es + f) off (tlv_stream es ++ back)
    = result (tlv_scan f 0 (Z.of_nat (length (tlv_stream es)) + Z.of_nat (length back))
                (Z.of_nat (length (tlv_stream es))) off
                (State (tlv_stream es ++ back) r')).
Proof.
  intros Hes Hlen.
  destruct (scan_buffer_skip es back f off Hes) as [r' E].
  - rewrite length_app. lia.
  - exists r'. rewrite E, length_app, Nat2Z.inj_add. reflexivity.
Qed.

Lemma bytes_at_back (front bs back : list Z) :
  bytes_at (front ++ bs ++ back) (0 + Z.of_nat (length front)) bs.
Proof. rewrite Z.add_0_l. apply bytes_at_middle. Qed.

Lemma bytes_at_end (front bs : list Z) :
  bytes_at (front ++ bs) (0 + Z.of_nat (length front)) bs.
Proof.
  rewrite <- (app_nil_r bs) at 1. apply bytes_at_back.
Qed.

Lemma tlv_bytes_short_length (t : Z) (v : list Z) :
  Z.of_nat (length (tlv_bytes (TlvShort t v))) = 2 + Z.of_nat (length v).
Proof. cbn [tlv_bytes length]. lia. Qed.

Lemma tlv_bytes_long_length (t : Z) (v : list Z) :
  Z.of_nat (length (tlv_bytes (TlvLong t v))) = 4 + Z.of_nat (length v).
Proof. cbn [tlv_bytes length]. lia. Qed.

(** X8. [get_ndef_tlv_offset] finds the first NDEF entry of a container:
    after any entries that are passed over (null entries and well-formed
    entries of other types), an NDEF entry with the value [v] makes it return
    the length of [v] and set [*offset_p] to the index of the first byte of
    [v], whether the length is given in one byte or, after [0xFF], in two;
    what follows the entry does not matter. *)
Theorem get_ndef_tlv_offset_finds
        (es : list tlv) (v rest : list Z) (offset : Z) (fuel : nat) :
  Forall skipped es ->
  (length es < fuel)%nat ->
  Z.of_nat (length (tlv_stream es)) + 4 + Z.of_nat (length v) + Z.of_nat (length rest)
  < 2 ^ 64 ->
  (Z.of_nat (length v) < 0xFF ->
   scan_buffer fuel offset (tlv_stream es ++ tlv_bytes (TlvShort TLV_TYPE_NDEF v) ++ rest)
   = Done (Z.of_nat (length v), Z.of_nat (length (tlv_stream es)) + 2)
   /\ bytes_at (tlv_stream es ++ tlv_bytes (TlvShort TLV_TYPE_NDEF v) ++ rest)
        (Z.of_nat (length (tlv_stream es)) + 2) v)
  /\ (Z.of_nat (length v) < 0xFFFF ->
      scan_buffer fuel offset (tlv_stream es ++ tlv_bytes (TlvLong TLV_TYPE_NDEF v) ++ rest)
      = Done (Z.of_nat (length v), Z.of_nat (length (tlv_stream es)) + 4)
      /\ bytes_at (tlv_stream es ++ tlv_bytes (TlvLong TLV_TYPE_NDEF v) ++ rest)
           (Z.of_nat (length (tlv_stream es)) + 4) v).
Proof.
  intros Hes Hfuel Hlen.
  destruct fuel as [|f0]; [lia|].
  replace (S f0) with (length es + S (f0 - length es))%nat by lia.
  set (f := (f0 - length es)%nat).
  split; intros Hv; split.
  - destruct (scan_buffer_at es (tlv_bytes (TlvShort TLV_TYPE_NDEF v) ++ rest) (S f)
                offset Hes) as [r' ->].
    { rewrite length_app, Nat2Z.inj_add, tlv_bytes_short_length. lia. }
    pose proof (bytes_at_back (tlv_stream es) (tlv_bytes (TlvShort TLV_TYPE_NDEF v)) rest)
      as H.
    cbn [tlv_bytes] in H.
    apply (bytes_at_split _ _ (0 + (Z.of_nat (length (tlv_stream es)) + 2)) _ 2) in H
      as [H _]; [|lia|cbn [length]; lia]. cbn [take] in H.
    rewrite length_app, Nat2Z.inj_add, tlv_bytes_short_length.
    edestruct (tlv_scan_ndef_short 0) as [r2 E]; [.. | rewrite E; reflexivity];
      try exact H; lia.
  - pose proof (bytes_at_middle (tlv_stream es) (tlv_bytes (TlvShort TLV_TYPE_NDEF v)) rest)
      as H.
    cbn [tlv_bytes] in H |- *.
    apply (bytes_at_split _ _ (Z.of_nat (length (tlv_stream es)) + 2) _ 2) in H
      as [_ H]; [|lia|cbn [length]; lia]. exact H.
  - destruct (scan_buffer_at es (tlv_bytes (TlvLong TLV_TYPE_NDEF v) ++ rest) (S f)
                offset Hes) as [r' ->].
    { rewrite length_app, Nat2Z.inj_add, tlv_bytes_long_length. lia. }
    pose proof (bytes_at_back (tlv_stream es) (tlv_bytes (TlvLong TLV_TYPE_NDEF v)) rest)
      as H.
    cbn [tlv_bytes] in H.
    apply (bytes_at_split _ _ (0 + (Z.of_nat (length (tlv_stream es)) + 4)) _ 4) in H
      as [H _]; [|lia|cbn [length]; lia]. cbn [take] in H.
    rewrite length_app, Nat2Z.inj_add, tlv_bytes_long_length.
    edestruct (tlv_scan_ndef_long 0) as [r2 E]; [.. | rewrite E; reflexivity];
      try exact H; lia.
  - pose proof (bytes_at_middle (tlv_stream es) (tlv_bytes (TlvLong TLV_TYPE_NDEF v)) rest)
      as H.
    cbn [tlv_bytes] in H |- *.
    apply (bytes_at_split _ _ (Z.of_nat (length (tlv_stream es)) + 4) _ 4) in H
      as [_ H]; [|lia|cbn [length]; lia]. exact H.
Qed.

Lemma get_ndef_tlv_offset_finds_witness :
  (scan_buffer 3 99 ([0x00; 0x01; 0x01; 0xAA] ++ [0x03; 0x02; 0xD1; 0xD2] ++ [0xFE])
   = Done (2, 6)
   /\ bytes_at ([0x00; 0x01; 0x01; 0xAA] ++ [0x03; 0x02; 0xD1; 0xD2] ++ [0xFE]) 6
        [0xD1; 0xD2])
  /\ (scan_buffer 3 99
        ([0x00; 0x01; 0x01; 0xAA] ++ [0x03; 0xFF; 0x00; 0x02; 0xD1; 0xD2] ++ [0xFE])
      = Done (2, 8)
      /\ bytes_at
           ([0x00; 0x01; 0x01; 0xAA] ++ [0x03; 0xFF; 0x00; 0x02; 0xD1; 0xD2] ++ [0xFE]) 8
           [0xD1; 0xD2]).
Proof.
  assert (Forall skipped [TlvNull; TlvShort 0x01 [0xAA]]) as Hes.
  { repeat constructor;
      unfold TLV_TYPE_NULL, TLV_TYPE_TERMINATOR, TLV_TYPE_NDEF; cbn; lia. }
  destruct (get_ndef_tlv_offset_finds [TlvNull; TlvShort 0x01 [0xAA]] [0xD1; 0xD2]
              [0xFE] 99 3 Hes) as [Hs Hl]; [cbn; lia | cbn; lia |].
  split; [apply Hs | apply Hl]; cbn; lia.
Defined.

(** X9. Entries that cannot be read in full end the scan with 0 and leave
    [*offset_p] as it was, without a load past the buffer: an entry of any
    type with the reserved length [0xFFFF], a type byte that is the last
    byte of the buffer, a type byte and the mark [0xFF] that are its last two
    bytes, and an entry of another type than NDEF, with its length in one
    byte or, after [0xFF], in two, whose declared length reaches or passes
    the end of the buffer. *)
Theorem get_ndef_tlv_offset_malformed
        (es : list tlv) (t : Z) (rest : list Z) (offset : Z) (fuel : nat) :
  Forall skipped es ->
  (length es + 1 < fuel)%nat ->
  t <> TLV_TYPE_NULL -> t <> TLV_TYPE_TERMINATOR ->
  Z.of_nat (length (tlv_stream es)) + 0x200 + Z.of_nat (length rest) < 2 ^ 64 ->
  scan_buffer fuel offset (tlv_stream es ++ [t; 0xFF; 0xFF; 0xFF] ++ rest)
  = Done (0, offset)
  /\ scan_buffer fuel offset (tlv_stream es ++ [t]) = Done (0, offset)
  /\ scan_buffer fuel offset (tlv_stream es ++ [t; 0xFF]) = Done (0, offset)
  /\ (forall (len : Z) (v : list Z),
        t <> TLV_TYPE_NDEF -> 0 <= len < 0xFF -> Z.of_nat (length v) <= len ->
        scan_buffer fuel offset (tlv_stream es ++ [t; len] ++ v) = Done (0, offset))
  /\ (forall (len : Z) (v : list Z),
        t <> TLV_TYPE_NDEF -> 0 <= len < 0xFFFF -> Z.of_nat (length v) <= len ->
        Z.of_nat (length (tlv_stream es)) + 0x20004 < 2 ^ 64 ->
        scan_buffer fuel offset
          (tlv_stream es ++ [t; 0xFF; len / 256; len mod 256] ++ v)
        = Done (0, offset)).
Proof.
  intros Hes Hfuel Hn Ht Hlen.
  destruct fuel as [|[|f0]]; [lia..|].
  replace (S (S f0)) with (length es + S (S (f0 - length es)))%nat by lia.
  set (f := (f0 - length es)%nat).
  repeat apply conj.
  - destruct (scan_buffer_at es ([t; 0xFF; 0xFF; 0xFF] ++ rest) (S (S f)) offset Hes)
      as [r' ->]; [rewrite length_app; cbn [length]; lia|].
    pose proof (bytes_at_back (tlv_stream es) [t; 0xFF; 0xFF; 0xFF] rest) as H.
    rewrite length_app in *. cbn [length] in *.
    edestruct (tlv_scan_reserved 0) as [r2 E]; [.. | rewrite E; reflexivity];
      try exact H; first [exact Hn | exact Ht | exact Hd | lia].
  - destruct (scan_buffer_at es [t] (S (S f)) offset Hes)
      as [r' ->]; [cbn [length]; lia|].
    pose proof (bytes_at_end (tlv_stream es) [t]) as H. cbn [length] in *.
    edestruct (tlv_scan_lone_type 0) as [r2 E]; [.. | rewrite E; reflexivity];
      try exact H; first [exact Hn | exact Ht | exact Hd | lia].
  - destruct (scan_buffer_at es [t; 0xFF] (S (S f)) offset Hes)
      as [r' ->]; [cbn [length]; lia|].
    pose proof (bytes_at_end (tlv_stream es) [t; 0xFF]) as H. cbn [length] in *.
    edestruct (tlv_scan_lone_mark 0) as [r2 E]; [.. | rewrite E; reflexivity];
      try exact H; first [exact Hn | exact Ht | exact Hd | lia].
  - intros len v Hd Hl Hv.
    destruct (scan_buffer_at es ([t; len] ++ v) (S (S f)) offset Hes)
      as [r' ->]; [rewrite length_app; cbn [length]; lia|].
    pose proof (bytes_at_back (tlv_stream es) [t; len] v) as H.
    rewrite length_app in *. cbn [length] in *.
    edestruct (tlv_scan_overlong 0) as [r2 E]; [.. | rewrite E; reflexivity];
      try exact H; first [exact Hn | exact Ht | exact Hd | lia].
  - intros len v Hd Hl Hv Hmax.
    destruct (scan_buffer_at es ([t; 0xFF; len / 256; len mod 256] ++ v) (S (S f))
                offset Hes)
      as [r' ->]; [rewrite length_app; cbn [length]; lia|].
    pose proof (bytes_at_back (tlv_stream es) [t; 0xFF; len / 256; len mod 256] v) as H.
    rewrite length_app in *. cbn [length] in *.
    edestruct (tlv_scan_overlong_long 0) as [r2 E]; [.. | rewrite E; reflexivity];
      try exact H; first [exact Hn | exact Ht | exact Hd | exact Hl | lia].
Qed.

Lemma get_ndef_tlv_offset_malformed_witness :
  scan_buffer 3 99 ([0x00] ++ [0x03; 0xFF; 0xFF; 0xFF] ++ [0x03; 0x01; 0xD1])
  = Done (0, 99)
  /\ scan_buffer 3 99 ([0x00] ++ [0x03]) = Done (0, 99)
  /\ scan_buffer 3 99 ([0x00] ++ [0x03; 0xFF]) = Done (0, 99)
  /\ scan_buffer 3 99 ([0x00] ++ [0x01; 0x05] ++ [0xAA; 0xBB]) = Done (0, 99)
  /\ scan_buffer 3 99 ([0x00] ++ [0x01; 0xFF; 0x01; 0x00] ++ [0xAA; 0xBB]) = Done (0, 99).
Proof.
  destruct (get_ndef_tlv_offset_malformed [TlvNull] 0x03 [0x03; 0x01; 0xD1] 99 3)
    as (H1 & H2 & H3 & _);
    [repeat constructor | cbn; lia | discriminate | discriminate | cbn; lia |].
  destruct (get_ndef_tlv_offset_malformed [TlvNull] 0x01 [] 99 3)
    as (_ & _ & _ & H4 & H5);
    [repeat constructor | cbn; lia | discriminate | discriminate | cbn; lia |].
  repeat apply conj; [exact H1 | exact H2 | exact H3 | |].
  - apply (H4 0x05 [0xAA; 0xBB]); [discriminate | lia | cbn; lia].
  - apply (H5 0x100 [0xAA; 0xBB]); [discriminate | lia | cbn; lia | cbn; lia].
Defined.

(** ** One byte past the buffer *)

Lemma reads_within_refl (s : state) (lo hi : Z) : reads_within s s lo hi.
Proof. split; [reflexivity|]. exists []. rewrite app_nil_r. split; [reflexivity|constructor]. Qed.

Lemma reads_within_trans (s1 s2 s3 : state) (lo hi : Z) :
  reads_within s1 s2 lo hi -> reads_within s2 s3 lo hi -> reads_within s1 s3 lo hi.
Proof.
  intros [M1 (e1 & R1 & F1)] [M2 (e2 & R2 & F2)]. split; [congruence|].
  exists (e1 ++ e2). split.
  - rewrite R2, R1, app_assoc. reflexivity.
  - apply Forall_app. split; assumption.
Qed.

Lemma load_within (a : Z) (s : state) (lo hi : Z) :
  0 <= a < Z.of_nat (length (mem s)) -> lo <= a <= hi ->
  exists b s', load a s = (Done b, s') /\ reads_within s s' lo hi.
Proof.
  intros Ha Hr. destruct (lookup_lt_is_Some_2 (mem s) (Z.to_nat a)) as [b Hb]; [lia|].
  exists b, (State (mem s) (reads s ++ [a])). split.
  - destruct s as [m r]. apply load_Done; [lia | exact Hb].
  - split; [reflexivity|]. exists [a]. split; [reflexivity|].
    repeat constructor; lia.
Qed.

Section Slack.

Variables (buf buf_len : Z).
Hypothesis buf_pos : 0 <= buf.
Hypothesis buf_len_max : buf_len + 2 ^ 16 + 3 < 2 ^ 64.

(** With one byte after the buffer in the memory, the length field is read
    without leaving the memory. *)
Lemma tlv_length_slack (j : Z) (s : state) :
  0 <= j -> j <= buf_len + 1 ->
  buf + buf_len + 1 <= Z.of_nat (length (mem s)) ->
  exists res s',
    tlv_length buf buf_len j s = (Done res, s')
    /\ reads_within s s' buf (buf + buf_len)
    /\ match res with
       | None => True
       | Some (len, j') => 0 <= len < 2 ^ 16 /\ j < j' <= j + 3 /\ j' <= buf_len + 1
       end.
Proof.
  intros Hj Hjmax Hmem. unfold tlv_length.
  rewrite !size_t_small by lia.
  destruct (Z.ltb_spec buf_len (j + 1)) as [Hlt|Hge].
  { exists None, s. split; [reflexivity|]. split; [apply reads_within_refl | exact I]. }
  destruct (load_within (buf + j) s buf (buf + buf_len)) as (b & s1 & E1 & W1); [lia..|].
  run E1. assert (Hm1 : mem s1 = mem s) by apply W1.
  destruct (Z.eqb_spec b 255) as [Eb|Nb].
  - destruct (Z.ltb_spec buf_len (j + 2)) as [Hlt2|Hge2].
    { exists None, s1. split; [reflexivity|]. split; [exact W1 | exact I]. }
    destruct (load_within (buf + (j + 1)) s1 buf (buf + buf_len)) as (hi & s2 & E2 & W2);
      [rewrite Hm1; lia | lia |].
    run E2. assert (Hm2 : mem s2 = mem s) by (destruct W2; congruence).
    destruct (load_within (buf + (j + 2)) s2 buf (buf + buf_len)) as (lo & s3 & E3 & W3);
      [rewrite Hm2; lia | lia |].
    run E3.
    pose proof (reads_within_trans _ _ _ _ _ W1 (reads_within_trans _ _ _ _ _ W2 W3)) as W.
    match goal with
    | |- context [if ?len =? 65535 then _ else _] =>
        pose proof (wrap_range 16 (int32_t (int32_t (uint16_t hi ≪ 8) + uint16_t lo))
                      ltac:(lia)) as Hlen;
        destruct (len =? 65535)
    end.
    + exists None, s3. split; [reflexivity|]. split; [exact W | exact I].
    + eexists (Some (_, _)), s3. split; [reflexivity|]. split; [exact W|].
      split; [exact Hlen | lia].
  - destruct (load_within (buf + j) s1 buf (buf + buf_len)) as (b' & s2 & E2 & W2);
      [rewrite Hm1; lia | lia |].
    run E2.
    eexists (Some (_, _)), s2. split; [reflexivity|].
    split; [exact (reads_within_trans _ _ _ _ _ W1 W2)|].
    split; [apply (wrap_range 16); lia | lia].
Qed.

(** With one byte after the buffer in the memory and more fuel than the
    buffer has bytes, the scan returns, and no load leaves
    [buf .. buf + buf_len]. *)
Lemma tlv_scan_slack (fuel : nat) (index off : Z) (s : state) :
  0 <= index ->
  (Z.to_nat (buf_len - index) < fuel)%nat ->
  buf + buf_len + 1 <= Z.of_nat (length (mem s)) ->
  exists len off' s',
    tlv_scan fuel buf buf_len index off s = (Done (len, off'), s')
    /\ reads_within s s' buf (buf + buf_len)
    /\ 0 <= len < 2 ^ 16
    /\ (off' = off \/ 0 <= off' <= buf_len + 1).
Proof.
  revert index s. induction fuel as [|fuel IH]; intros index s Hi Hf Hmem; [lia|].
  cbn [tlv_scan].
  destruct (Z.ltb_spec index buf_len) as [Hlt|Hge].
  2:{ exists 0, off, s. split; [reflexivity|]. split; [apply reads_within_refl|].
      split; [lia | left; reflexivity]. }
  destruct (load_within (buf + index) s buf (buf + buf_len)) as (t & s1 & E1 & W1);
    [lia..|].
  run E1. assert (Hm1 : mem s1 = mem s) by apply W1.
  destruct (t =? TLV_TYPE_NULL).
  { rewrite size_t_small by lia.
    destruct (IH (index + 1) s1) as (len & off' & s' & E & W & Hl & Ho);
      [lia | lia | rewrite Hm1; exact Hmem |].
    exists len, off', s'. split; [exact E|].
    split; [exact (reads_within_trans _ _ _ _ _ W1 W)|]. split; assumption. }
  destruct (t =? TLV_TYPE_TERMINATOR).
  { exists 0, off, s1. split; [reflexivity|]. split; [exact W1|].
    split; [lia | left; reflexivity]. }
  rewrite size_t_small by lia.
  destruct (tlv_length_slack (index + 1) s1) as (res & s2 & E2 & W2 & Hres);
    [lia | lia | rewrite Hm1; exact Hmem |].
  run E2. assert (Hm2 : mem s2 = mem s) by (destruct W2; congruence).
  pose proof (reads_within_trans _ _ _ _ _ W1 W2) as W12.
  destruct res as [[len j']|].
  2:{ exists 0, off, s2. split; [reflexivity|]. split; [exact W12|].
      split; [lia | left; reflexivity]. }
  destruct Hres as (Hlen & Hj & Hj').
  destruct (t =? TLV_TYPE_NDEF).
  { exists len, j', s2. split; [reflexivity|]. split; [exact W12|].
    split; [exact Hlen | right; lia]. }
  rewrite size_t_small by lia.
  destruct (IH (j' + len) s2) as (len' & off' & s' & E & W & Hl & Ho);
    [lia | lia | rewrite Hm2; exact Hmem |].
  exists len', off', s'. split; [exact E|].
  split; [exact (reads_within_trans _ _ _ _ _ W12 W)|]. split; assumption.
Qed.

End Slack.

(** X10. The loads of [get_ndef_tlv_offset] go at most one byte past the
    buffer: when the memory holds the buffer and one more byte, a call with
    more fuel than the buffer has bytes returns, for every content of the
    buffer; the memory is left as it was, every address loaded lies in
    [buf .. buf + buf_len], the result is a length of 16 bits, and
    [*offset_p] is as it was or an index of at most [buf_len + 1]. *)
Theorem get_ndef_tlv_offset_one_past
        (fuel : nat) (buf buf_len offset : Z) (s : state) :
  0 <= buf_len ->
  buf_len + 2 ^ 16 + 3 < 2 ^ 64 ->
  (Z.to_nat buf_len < fuel)%nat ->
  in_bounds s buf (buf_len + 1) ->
  exists (len off' : Z) (s' : state),
    get_ndef_tlv_offset fuel buf buf_len offset s = (Done (len, off'), s')
    /\ reads_within s s' buf (buf + buf_len)
    /\ 0 <= len < 2 ^ 16
    /\ (off' = offset \/ 0 <= off' <= buf_len + 1).
Proof.
  intros Hlen Hmax Hfuel [Hbuf Hin]. unfold get_ndef_tlv_offset.
  apply tlv_scan_slack; first [assumption | lia].
Qed.

Lemma get_ndef_tlv_offset_one_past_witness :
  (exists (len off' : Z) (s' : state),
     get_ndef_tlv_offset 4 0 3 99 (init [0x03; 0xFF; 0x00; 0x05])
     = (Done (len, off'), s')
     /\ reads_within (init [0x03; 0xFF; 0x00; 0x05]) s' 0 (0 + 3)
     /\ 0 <= len < 2 ^ 16
     /\ (off' = 99 \/ 0 <= off' <= 3 + 1))
  /\ get_ndef_tlv_offset 4 0 3 99 (init [0x03; 0xFF; 0x00; 0x05])
     = (Done (5, 4), State [0x03; 0xFF; 0x00; 0x05] [0; 1; 2; 3]).
Proof.
  split; [|reflexivity].
  apply (get_ndef_tlv_offset_one_past 4 0 3 99 (init [0x03; 0xFF; 0x00; 0x05]));
    [lia | lia | lia | split; cbn; lia].
Defined.

(** ** What a result of the scan stands for *)

Lemma memory_byte (m : list Z) (a : Z) (b : Z) :
  Forall byte m -> m !! Z.to_nat a = Some b -> byte b.
Proof. intros Hm Hb. exact (proj1 (Forall_lookup _ _) Hm _ _ Hb). Qed.

Section Sound.

Variables (buf buf_len : Z).
Hypothesis buf_pos : 0 <= buf.
Hypothesis buf_len_max : buf_len + 2 ^ 16 + 3 < 2 ^ 64.

(** A length field that was read, in the one form or the other. *)
Lemma tlv_length_inv (j len j' : Z) (s s' : state) :
  0 <= j -> j <= buf_len + 1 -> Forall byte (mem s) ->
  tlv_length buf buf_len j s = (Done (Some (len, j')), s') ->
  (j' = j + 1 /\ j + 1 <= buf_len /\ len <> 0xFF
   /\ bytes_at (mem s) (buf + j) [len])
  \/ (j' = j + 3 /\ j + 2 <= buf_len /\ 0 <= len < 0xFFFF
      /\ bytes_at (mem s) (buf + j) [0xFF; len / 256; len mod 256]).
Proof.
  intros Hj Hjmax Hm H. unfold tlv_length in H.
  rewrite !size_t_small in H by lia.
  destruct (Z.ltb_spec buf_len (j + 1)) as [Hlt|Hge]; [inv_ret H|].
  inv_bind H b s1 H1. apply load_inv in H1 as (_ & Hb & ->).
  destruct (Z.eqb_spec b 255) as [->|Nb].
  - destruct (Z.ltb_spec buf_len (j + 2)) as [Hlt2|Hge2]; [inv_ret H|].
    inv_bind H hi s2 H2. apply load_inv in H2 as (_ & Hhi & ->).
    inv_bind H lo s3 H3. apply load_inv in H3 as (_ & Hlo & ->).
    cbn [mem] in *.
    pose proof (memory_byte _ _ _ Hm Hhi) as Bhi.
    pose proof (memory_byte _ _ _ Hm Hlo) as Blo.
    rewrite uint16_expr in H by assumption.
    unfold be_combine in H. cbn [fold_left] in H.
    destruct (Z.eqb_spec ((0 * 256 + hi) * 256 + lo) 65535) as [?|Nr]; inv_ret H.
    right. unfold byte in *.
    assert ((0 * 256 + hi) * 256 + lo = lo + hi * 256) as -> by lia.
    assert ((0 * 256 + hi) * 256 + lo = lo + hi * 256) as E by lia. rewrite E in Nr.
    rewrite Z.div_add, Z.mod_add, Z.div_small, Z.mod_small by lia. cbn [Z.add].
    repeat apply conj; try lia.
    intros k x Hk. destruct k as [|[|[|k]]]; cbn in Hk; try discriminate;
      injection Hk as <-.
    + rewrite Nat.add_0_r. exact Hb.
    + replace (Z.to_nat (buf + j) + 1)%nat with (Z.to_nat (buf + (j + 1))) by lia.
      exact Hhi.
    + replace (Z.to_nat (buf + j) + 2)%nat with (Z.to_nat (buf + (j + 2))) by lia.
      exact Hlo.
  - inv_bind H b' s2 H2. apply load_inv in H2 as (_ & Hb' & ->). cbn [mem] in *.
    inv_ret H.
    pose proof (memory_byte _ _ _ Hm Hb) as Bb. unfold byte in Bb.
    unfold uint16_t. rewrite wrap_small by lia.
    left. repeat apply conj; try lia.
    intros k x Hk. destruct k as [|k]; cbn in Hk; try discriminate.
    injection Hk as <-. rewrite Nat.add_0_r. exact Hb.
Qed.

Lemma tlv_scan_sound (fuel : nat) (index off len off' : Z) (s s' : state) :
  0 <= index -> Forall byte (mem s) ->
  tlv_scan fuel buf buf_len index off s = (Done (len, off'), s') ->
  (len = 0 /\ off' = off)
  \/ exists i : Z,
       index <= i < buf_len
       /\ ((off' = i + 2 /\ off' <= buf_len /\ len <> 0xFF
            /\ bytes_at (mem s) (buf + i) [TLV_TYPE_NDEF; len])
           \/ (off' = i + 4 /\ off' <= buf_len + 1 /\ 0 <= len < 0xFFFF
               /\ bytes_at (mem s) (buf + i)
                    [TLV_TYPE_NDEF; 0xFF; len / 256; len mod 256])).
Proof.
  revert index s. induction fuel as [|fuel IH]; intros index s Hi Hm H;
    cbn [tlv_scan] in H; [discriminate|].
  destruct (Z.ltb_spec index buf_len) as [Hlt|Hge]; [|inv_ret H; left; auto].
  inv_bind H t s0 H0. apply load_inv in H0 as (_ & Ht & ->).
  destruct (Z.eqb_spec t TLV_TYPE_NULL) as [_|_].
  { rewrite size_t_small in H by lia.
    apply IH in H; [|lia|exact Hm].
    destruct H as [H|(i & Hi' & H)]; [left; exact H|].
    right. exists i. split; [lia | exact H]. }
  destruct (Z.eqb_spec t TLV_TYPE_TERMINATOR) as [_|_]; [inv_ret H; left; auto|].
  rewrite size_t_small in H by lia.
  inv_bind H res s1 H1. pose proof (tlv_length_mem _ _ _ _ _ _ H1) as Hm1.
  cbn [mem] in Hm1.
  destruct res as [[l j']|]; [|inv_ret H; left; auto].
  apply tlv_length_inv in H1; [|lia..|exact Hm]. cbn [mem] in H1.
  destruct (Z.eqb_spec t TLV_TYPE_NDEF) as [->|_].
  - inv_ret H. right. exists index. split; [lia|].
    destruct H1 as [(-> & Hle & Hn & Hat)|(-> & Hle & Hn & Hat)]; [left|right].
    + repeat apply conj; try lia.
      apply bytes_at_cons. split; [lia | split; [exact Ht|]].
      replace (buf + index + 1) with (buf + (index + 1)) by lia. exact Hat.
    + repeat apply conj; try lia.
      apply bytes_at_cons. split; [lia | split; [exact Ht|]].
      replace (buf + index + 1) with (buf + (index + 1)) by lia. exact Hat.
  - assert (index + 1 < j' <= index + 4 /\ 0 <= l < 2 ^ 16) as Hj.
    { destruct H1 as [(-> & _ & _ & Hat)|(-> & _ & Hl & _)]; [|lia].
      split; [lia|]. destruct Hat as [_ Hat]. specialize (Hat 0%nat l eq_refl).
      pose proof (proj1 (Forall_lookup _ _) Hm _ _ Hat) as Bl.
      unfold byte in Bl. lia. }
    rewrite size_t_small in H by lia.
    apply IH in H; [|lia|rewrite Hm1; exact Hm].
    rewrite Hm1 in H.
    destruct H as [H|(i & Hi' & H)]; [left; exact H|].
    right. exists i. split; [lia | exact H].
Qed.

End Sound.

(** X11. What [get_ndef_tlv_offset] returns stands for an entry of the
    buffer: either the result is 0 with [*offset_p] as it was, or the
    memory holds, at an index [i] of the buffer, the type byte of an NDEF
    entry followed by the returned length in one byte (and then [*offset_p]
    is [i + 2], inside the buffer) or, after [0xFF], in two bytes (and then
    [*offset_p] is [i + 4]). The length is never checked against what is left
    of the buffer. *)
Theorem get_ndef_tlv_offset_sound
        (fuel : nat) (buf buf_len offset len off' : Z) (s s' : state) :
  0 <= buf ->
  buf_len + 2 ^ 16 + 3 < 2 ^ 64 ->
  Forall byte (mem s) ->
  get_ndef_tlv_offset fuel buf buf_len offset s = (Done (len, off'), s') ->
  (len = 0 /\ off' = offset)
  \/ exists i : Z,
       0 <= i < buf_len
       /\ ((off' = i + 2 /\ off' <= buf_len /\ len <> 0xFF
            /\ bytes_at (mem s) (buf + i) [TLV_TYPE_NDEF; len])
           \/ (off' = i + 4 /\ off' <= buf_len + 1 /\ 0 <= len < 0xFFFF
               /\ bytes_at (mem s) (buf + i)
                    [TLV_TYPE_NDEF; 0xFF; len / 256; len mod 256])).
Proof.
  intros Hbuf Hmax Hm H. unfold get_ndef_tlv_offset in H.
  apply (tlv_scan_sound buf buf_len Hbuf Hmax) in H; [exact H | lia | exact Hm].
Qed.

Lemma get_ndef_tlv_offset_sound_witness :
  (2 = 0 /\ 4 = 99)
  \/ exists i : Z,
       0 <= i < 6
       /\ ((4 = i + 2 /\ 4 <= 6 /\ 2 <> 0xFF
            /\ bytes_at (mem (init [0x00; 0x00; 0x03; 0x02; 0xD1; 0xD2])) (0 + i)
                 [TLV_TYPE_NDEF; 2])
           \/ (4 = i + 4 /\ 4 <= 6 + 1 /\ 0 <= 2 < 0xFFFF
               /\ bytes_at (mem (init [0x00; 0x00; 0x03; 0x02; 0xD1; 0xD2])) (0 + i)
                    [TLV_TYPE_NDEF; 0xFF; 2 / 256; 2 mod 256])).
Proof.
  apply (get_ndef_tlv_offset_sound 7 0 6 99 2 4
           (init [0x00; 0x00; 0x03; 0x02; 0xD1; 0xD2])
           (State [0x00; 0x00; 0x03; 0x02; 0xD1; 0xD2] [0; 1; 2; 3; 3])).
  - lia.
  - lia.
  - repeat constructor; unfold byte; lia.
  - reflexivity.
Defined.

Lemma get_ndef_tlv_offset_ends_witness :
  result (get_ndef_tlv_offset 4 0 3 99 (init [0x01; 0xFF; 0x00])) <> OutOfFuel.
Proof.
  apply (get_ndef_tlv_offset_ends 4 0 3 99 (init [0x01; 0xFF; 0x00])); lia.
Defined.

(** ** Prefix and suffix checks *)

Lemma strlen_length (cs : list Z) : c_chars cs -> strlen cs = Z.of_nat (length cs).
Proof.
  induction cs as [|c cs IH]; intros H; [reflexivity|].
  apply Forall_cons in H as [Hc H]. cbn [strlen length].
  destruct (Z.eqb_spec c 0) as [?|_]; [contradiction|]. rewrite IH by exact H. lia.
Qed.

(** [strncmp] loads from the first [n] characters of [s1] only. *)
Lemma strncmp_reads (n : nat) (s2 : list Z) (s1 c : Z) (s s' : state) :
  strncmp s1 s2 n s = (Done c, s') ->
  reads_within s s' s1 (s1 + Z.of_nat n - 1).
Proof.
  revert s2 s1 s. induction n as [|n IH]; intros s2 s1 s H; cbn [strncmp] in H.
  - inv_ret H. apply reads_within_refl.
  - inv_bind H c1 s0 H0. apply load_inv in H0 as (Hs1 & Hc1 & ->).
    assert (reads_within s (State (mem s) (reads s ++ [s1])) s1 (s1 + Z.of_nat (S n) - 1))
      as W1.
    { split; [reflexivity|]. exists [s1]. split; [reflexivity|].
      repeat constructor; lia. }
    destruct (negb (c1 =? hd 0 s2)); [inv_ret H; exact W1|].
    destruct (c1 =? 0); [inv_ret H; exact W1|].
    apply IH in H. destruct W1 as [M1 (e1 & R1 & F1)], H as [M2 (e2 & R2 & F2)].
    split; [congruence|]. exists (e1 ++ e2). split.
    + rewrite R2, R1, app_assoc. reflexivity.
    + apply Forall_app. split; [exact F1|].
      eapply Forall_impl; [exact F2|]. cbn. intros a Ha. lia.
Qed.

(** The bytes at a place are determined by the memory. *)
Lemma bytes_at_inj (m : list Z) (p : Z) (l1 l2 : list Z) :
  bytes_at m p l1 -> bytes_at m p l2 -> length l1 = length l2 -> l1 = l2.
Proof.
  intros [_ H1] [_ H2] Hlen. apply list_eq. intros i.
  destruct (l1 !! i) as [b|] eqn:E1.
  - destruct (lookup_lt_is_Some_2 l2 i) as [b' E2].
    { rewrite <- Hlen. apply lookup_lt_Some in E1. exact E1. }
    rewrite E2. apply H1 in E1. apply H2 in E2. congruence.
  - symmetry. apply lookup_ge_None. rewrite <- Hlen. apply lookup_ge_None. exact E1.
Qed.

Lemma bytes_at_prefix (m : list Z) (p : Z) (bs cs : list Z) :
  bytes_at m p bs -> (length cs <= length bs)%nat ->
  (bytes_at m p cs <-> cs `prefix_of` bs).
Proof.
  intros Hbs Hlen. split.
  - intros Hcs. exists (drop (length cs) bs).
    rewrite <- (take_drop (length cs) bs) at 1. f_equal.
    apply (bytes_at_inj m p).
    + rewrite <- (take_drop (length cs) bs) in Hbs. apply bytes_at_app in Hbs. apply Hbs.
    + exact Hcs.
    + rewrite length_take. lia.
  - intros [k ->]. apply bytes_at_app in Hbs. apply Hbs.
Qed.

Lemma bytes_at_suffix (m : list Z) (p : Z) (bs cs : list Z) :
  bytes_at m p bs -> (length cs <= length bs)%nat ->
  (bytes_at m (p + Z.of_nat (length bs) - Z.of_nat (length cs)) cs <-> cs `suffix_of` bs).
Proof.
  intros Hbs Hlen. split.
  - intros Hcs. exists (take (length bs - length cs) bs).
    rewrite <- (take_drop (length bs - length cs) bs) at 1. f_equal.
    apply (bytes_at_inj m (p + Z.of_nat (length bs) - Z.of_nat (length cs))).
    + rewrite <- (take_drop (length bs - length cs) bs) in Hbs.
      apply bytes_at_app in Hbs as [_ Hbs]. rewrite length_take in Hbs.
      replace (p + Z.of_nat (length bs) - Z.of_nat (length cs))
        with (p + Z.of_nat ((length bs - length cs) `min` length bs)) by lia.
      exact Hbs.
    + exact Hcs.
    + rewrite length_drop. lia.
  - intros [k ->]. apply bytes_at_app in Hbs as [_ Hbs].
    rewrite length_app in *.
    replace (p + Z.of_nat (length k + length cs) - Z.of_nat (length cs))
      with (p + Z.of_nat (length k)) by lia.
    exact Hbs.
Qed.

(** [strncmp] of [n] characters of the memory against a string of [n]
    characters: it returns, 0 exactly when the memory holds the string, and
    it loads from these [n] characters only. *)
Lemma strncmp_run (cs : list Z) (p : Z) (s : state) :
  c_chars cs -> 0 <= p ->
  (cs <> [] -> p + Z.of_nat (length cs) <= Z.of_nat (length (mem s))) ->
  exists c s',
    strncmp p cs (length cs) s = (Done c, s')
    /\ (c = 0 <-> cs = [] \/ bytes_at (mem s) p cs)
    /\ reads_within s s' p (p + Z.of_nat (length cs) - 1).
Proof.
  intros Hcs Hp Hlen. destruct cs as [|x cs].
  { exists 0, s. split; [reflexivity|]. split; [|apply reads_within_refl].
    split; [left|]; reflexivity. }
  specialize (Hlen ltac:(discriminate)). destruct s as [m r].
  destruct (strncmp_total (length (x :: cs)) (x :: cs) p m r Hp Hlen) as (c & r' & E).
  exists c, (State m r'). split; [exact E|]. split.
  - apply (strncmp_spec _ _ _ _ _ Hcs E).
  - apply (strncmp_reads _ _ _ _ _ _ E).
Qed.

Lemma starts_with_run (s : state) (a : Z) (bs cs : list Z) :
  c_chars cs -> bytes_at (mem s) a bs ->
  exists s',
    starts_with (Ptr a) (Z.of_nat (length bs)) cs s
    = (Done (if bool_decide (cs `prefix_of` bs) then 1 else 0), s')
    /\ reads_within s s' a (a + Z.of_nat (length bs) - 1).
Proof.
  intros Hcs Hat. unfold starts_with. rewrite strlen_length by exact Hcs.
  rewrite Nat2Z.id.
  destruct (Z.ltb_spec (Z.of_nat (length bs)) (Z.of_nat (length cs))) as [Hlt|Hge].
  - exists s. split; [|apply reads_within_refl].
    rewrite bool_decide_eq_false_2; [reflexivity|].
    intros Hpre. apply prefix_length in Hpre. lia.
  - destruct (bytes_at_in_bounds _ _ _ Hat) as [Ha Hin].
    destruct (strncmp_run cs a s Hcs Ha) as (c & s' & E & Hc & W).
    { intros Hne. destruct bs as [|b bs].
      - destruct cs; [congruence | cbn [length] in *; lia].
      - specialize (Hin ltac:(discriminate)). lia. }
    exists s'. rewrite (bind_Done _ _ _ _ _ E). split.
    + unfold ret. f_equal. f_equal.
      destruct (Z.eqb_spec c 0) as [Hz|Hnz].
      * rewrite bool_decide_eq_true_2; [reflexivity|].
        apply Hc in Hz as [->|Hz]; [apply prefix_nil|].
        apply (bytes_at_prefix (mem s) a); [exact Hat | lia | exact Hz].
      * rewrite bool_decide_eq_false_2; [reflexivity|].
        intros Hpre. apply Hnz, Hc. right.
        apply (bytes_at_prefix (mem s) a bs); [exact Hat | lia | exact Hpre].
    + destruct W as [M (e & R & F)]. split; [exact M|]. exists e. split; [exact R|].
      eapply Forall_impl; [exact F|]. cbn. intros x Hx. lia.
Qed.

Lemma ends_with_run (s : state) (a : Z) (bs cs : list Z) :
  c_chars cs -> bytes_at (mem s) a bs ->
  exists s',
    ends_with (Ptr a) (Z.of_nat (length bs)) (Some cs) s
    = (Done (if bool_decide (cs `suffix_of` bs) then 1 else 0), s')
    /\ reads_within s s' a (a + Z.of_nat (length bs) - 1).
Proof.
  intros Hcs Hat. unfold ends_with. rewrite strlen_length by exact Hcs.
  rewrite Nat2Z.id.
  destruct (Z.ltb_spec (Z.of_nat (length bs)) (Z.of_nat (length cs))) as [Hlt|Hge].
  - exists s. split; [|apply reads_within_refl].
    rewrite bool_decide_eq_false_2; [reflexivity|].
    intros Hsuf. apply suffix_length in Hsuf. lia.
  - destruct (bytes_at_in_bounds _ _ _ Hat) as [Ha Hin].
    destruct (strncmp_run cs (a + Z.of_nat (length bs) - Z.of_nat (length cs)) s Hcs)
      as (c & s' & E & Hc & W); [lia | |].
    { intros Hne. destruct bs as [|b bs].
      - destruct cs; [congruence | cbn [length] in *; lia].
      - specialize (Hin ltac:(discriminate)). lia. }
    exists s'. rewrite (bind_Done _ _ _ _ _ E). split.
    + unfold ret. f_equal. f_equal.
      destruct (Z.eqb_spec c 0) as [Hz|Hnz].
      * rewrite bool_decide_eq_true_2; [reflexivity|].
        apply Hc in Hz as [->|Hz]; [apply suffix_nil|].
        apply (bytes_at_suffix (mem s) a); [exact Hat | lia | exact Hz].
      * rewrite bool_decide_eq_false_2; [reflexivity|].
        intros Hsuf. apply Hnz, Hc. right.
        apply (bytes_at_suffix (mem s) a bs); [exact Hat | lia | exact Hsuf].
    + destruct W as [M (e & R & F)]. split; [exact M|]. exists e. split; [exact R|].
      eapply Forall_impl; [exact F|]. cbn. intros x Hx. lia.
Qed.

(** X13. [starts_with] answers 1 exactly when the [str_len] bytes at [str]
    begin with the characters of the string, for every string and every
    content of the memory, and 0 otherwise, so also for a string longer than
    [str_len] and for [NULL]; it loads from the [str_len] bytes only.
    [type_valid] is this check against the scheme
    [https://pma.inftech.hs-mannheim.de/eput]: a type of fewer than 39 bytes
    is rejected without a load, and the comparison is byte for byte. *)
Theorem starts_with_prefix (s : state) (a : Z) (bs : list Z) :
  bytes_at (mem s) a bs ->
  (forall cs : list Z,
     c_chars cs ->
     exists s',
       starts_with (Ptr a) (Z.of_nat (length bs)) cs s
       = (Done (if bool_decide (cs `prefix_of` bs) then 1 else 0), s')
       /\ reads_within s s' a (a + Z.of_nat (length bs) - 1))
  /\ (exists s',
        type_valid (Ptr a) (Z.of_nat (length bs)) s
        = (Done (if bool_decide (RECORD_TYPE_SCHEME `prefix_of` bs) then 1 else 0), s')
        /\ reads_within s s' a (a + Z.of_nat (length bs) - 1))
  /\ ((length bs < 39)%nat ->
      type_valid (Ptr a) (Z.of_nat (length bs)) s = (Done 0, s))
  /\ (forall (len : Z) (cs : list Z), starts_with NULL len cs s = (Done 0, s)).
Proof.
  intros Hat. repeat apply conj.
  - intros cs Hcs. apply starts_with_run; assumption.
  - apply starts_with_run; [exact scheme_no_nul | exact Hat].
  - intros Hlen. unfold type_valid, starts_with.
    change (strlen RECORD_TYPE_SCHEME) with 39.
    destruct (Z.ltb_spec (Z.of_nat (length bs)) 39) as [_|?]; [reflexivity | lia].
  - reflexivity.
Qed.

(** X14. [ends_with] answers 1 exactly when the [str_len] bytes at [str] end
    with the characters of the string, and 0 otherwise, so also for a string
    longer than [str_len], for a [NULL] string and for a [NULL] suffix; the
    empty suffix is found in every string. It loads from the [str_len]
    bytes only. *)
Theorem ends_with_suffix (s : state) (a : Z) (bs : list Z) :
  bytes_at (mem s) a bs ->
  (forall cs : list Z,
     c_chars cs ->
     exists s',
       ends_with (Ptr a) (Z.of_nat (length bs)) (Some cs) s
       = (Done (if bool_decide (cs `suffix_of` bs) then 1 else 0), s')
       /\ reads_within s s' a (a + Z.of_nat (length bs) - 1))
  /\ ends_with (Ptr a) (Z.of_nat (length bs)) (Some []) s = (Done 1, s)
  /\ (forall (len : Z) (p : pointer), ends_with p len None s = (Done 0, s))
  /\ (forall (len : Z) (cs : option (list Z)), ends_with NULL len cs s = (Done 0, s)).
Proof.
  intros Hat. repeat apply conj.
  - intros cs Hcs. apply ends_with_run; assumption.
  - unfold ends_with. cbn [strlen Z.to_nat strncmp].
    destruct (Z.ltb_spec (Z.of_nat (length bs)) 0) as [?|_]; [lia|]. reflexivity.
  - intros len [|p]; reflexivity.
  - reflexivity.
Qed.

Lemma starts_with_prefix_witness :
  (exists s',
     type_valid (Ptr 1) 41 (init ([0x00] ++ RECORD_TYPE_SCHEME ++ [0x2F; 0x31])) = (Done 1, s')
     /\ reads_within (init ([0x00] ++ RECORD_TYPE_SCHEME ++ [0x2F; 0x31])) s' 1 (1 + 41 - 1))
  /\ (exists s',
        starts_with (Ptr 0) 4 [0x65; 0x70; 0x75; 0x74] (init [0x65; 0x50; 0x75; 0x74])
        = (Done 0, s')
        /\ reads_within (init [0x65; 0x50; 0x75; 0x74]) s' 0 (0 + 4 - 1)).
Proof.
  split.
  - destruct (starts_with_prefix (init ([0x00] ++ RECORD_TYPE_SCHEME ++ [0x2F; 0x31])) 1
                (RECORD_TYPE_SCHEME ++ [0x2F; 0x31])) as (_ & H & _).
    + apply (bytes_at_middle [0x00] (RECORD_TYPE_SCHEME ++ [0x2F; 0x31]) []).
    + exact H.
  - destruct (starts_with_prefix (init [0x65; 0x50; 0x75; 0x74]) 0
                [0x65; 0x50; 0x75; 0x74]) as (H & _).
    + apply (bytes_at_middle [] [0x65; 0x50; 0x75; 0x74] []).
    + apply (H [0x65; 0x70; 0x75; 0x74]).
      repeat constructor; discriminate.
Defined.

Lemma ends_with_suffix_witness :
  (exists s',
     ends_with (Ptr 0) 5 (Some [0x70; 0x75; 0x74]) (init [0x2F; 0x65; 0x70; 0x75; 0x74])
     = (Done 1, s')
     /\ reads_within (init [0x2F; 0x65; 0x70; 0x75; 0x74]) s' 0 (0 + 5 - 1))
  /\ (exists s',
        ends_with (Ptr 0) 2 (Some [0x70; 0x75; 0x74]) (init [0x75; 0x74]) = (Done 0, s')
        /\ reads_within (init [0x75; 0x74]) s' 0 (0 + 2 - 1)).
Proof.
  split.
  - destruct (ends_with_suffix (init [0x2F; 0x65; 0x70; 0x75; 0x74]) 0
                [0x2F; 0x65; 0x70; 0x75; 0x74]) as (H & _).
    + apply (bytes_at_middle [] [0x2F; 0x65; 0x70; 0x75; 0x74] []).
    + apply (H [0x70; 0x75; 0x74]). repeat constructor; discriminate.
  - destruct (ends_with_suffix (init [0x75; 0x74]) 0 [0x75; 0x74]) as (H & _).
    + apply (bytes_at_middle [] [0x75; 0x74] []).
    + apply (H [0x70; 0x75; 0x74]). repeat constructor; discriminate.
Defined.

(** ** The record decoder on a header *)

Lemma land_pow2 (b k : Z) :
  0 <= k -> Z.land b (2 ^ k) = if Z.testbit b k then 2 ^ k else 0.
Proof.
  intros Hk. apply Z.bits_inj'. intros n Hn.
  rewrite Z.land_spec, Z.pow2_bits_eqb by lia.
  destruct (Z.eqb_spec k n) as [->|Hne].
  - destruct (Z.testbit b n); [rewrite Z.pow2_bits_true by lia | rewrite Z.bits_0];
      reflexivity.
  - rewrite andb_false_r.
    destruct (Z.testbit b k); [rewrite Z.pow2_bits_false by lia | rewrite Z.bits_0];
      reflexivity.
Qed.

Lemma flag_test (flags k : Z) :
  0 <= k < 8 -> (0 <? uint8_t (Z.land flags (2 ^ k))) = Z.testbit flags k.
Proof.
  intros Hk. rewrite land_pow2 by lia.
  assert (0 < 2 ^ k < 256).
  { split; [apply Z.pow_pos_nonneg; lia|].
    change 256 with (2 ^ 8). apply Z.pow_lt_mono_r; lia. }
  destruct (Z.testbit flags k).
  - unfold uint8_t. rewrite wrap_small by (change (2 ^ 8) with 256; lia).
    apply Z.ltb_lt. lia.
  - reflexivity.
Qed.

Lemma tnf_bits (flags : Z) : uint8_t (Z.land flags 0x07) = flags mod 8.
Proof.
  change 0x07 with (Z.ones 3). rewrite Z.land_ones by lia.
  change (2 ^ 3) with 8. unfold uint8_t. apply wrap_small.
  change (2 ^ 8) with 256. pose proof (Z.mod_pos_bound flags 8). lia.
Qed.

Lemma bytes_to_uint32_reads (m r : list Z) (p v : Z) :
  is_unsigned 32 v -> bytes_at m p (be_split 4 v) ->
  bytes_to_uint32 p (State m r) = (Done v, State m (r ++ [p; p + 1; p + 2; p + 3])).
Proof.
  intros Hv H. rewrite be_split_4 in H. unfold bytes_to_uint32.
  step_load H 0%nat. step_load H 1%nat. step_load H 2%nat. step_load H 3%nat.
  rewrite uint32_expr by apply byte_uint8_t.
  rewrite <- be_split_4, be_split_unsigned by exact Hv.
  unfold ret. rewrite <- !app_assoc. reflexivity.
Qed.

Lemma record_size_header (flags tl il pl : Z) :
  record_size flags tl il pl = header_size flags + tl + il + pl.
Proof. reflexivity. Qed.

Lemma int32_t_small (x : Z) : - 2 ^ 31 <= x < 2 ^ 31 -> int32_t x = x.
Proof. intros H. apply swrap_small; [lia | exact H]. Qed.

Lemma uint32_t_small (x : Z) : 0 <= x < 2 ^ 32 -> uint32_t x = x.
Proof. apply wrap_small. Qed.

(** The sum of the length check, when nothing wraps. *)
Lemma record_total (h pl : Z) :
  0 <= h -> 0 <= pl -> h + pl < 2 ^ 31 ->
  uint32_t (uint32_t (int32_t h) + pl) = h + pl
  /\ int32_t (h + pl) = h + pl.
Proof.
  intros Hh Hp Hs.
  rewrite (int32_t_small h), (uint32_t_small h),
    (uint32_t_small (h + pl)), (int32_t_small (h + pl)) by lia.
  split; reflexivity.
Qed.

Lemma run_eq {A : Type} (a b : A) (m r r' : list Z) :
  a = b -> r = r' -> (Done a, State m r) = (Done b, State m r').
Proof. intros -> ->. reflexivity. Qed.

Ltac header_load H k b a :=
  rewrite (bytes_at_load _ _ _ _ k b a H) by (reflexivity || (cbn; lia));
  cbv beta iota.

(** The length check and the two returns, once the header is read. *)
Ltac header_done h pl :=
  unfold ret; cbv beta iota;
  destruct (record_total h pl) as [E1 E2]; [lia..|];
  rewrite ?(uint32_t_small pl) by lia; rewrite E1, E2;
  match goal with
  | |- context [?a <? ?b] => destruct (a <? b)
  end;
  (apply run_eq;
   [ repeat (f_equal; try lia)
   | unfold seqZ; simpl; rewrite <- !app_assoc; simpl; repeat (f_equal; try lia) ]).

Lemma get_record_run (m r : list Z) (buf buf_len : Z) (rec : ndef_record)
      (flags tl il pl : Z) :
  header_ok flags tl il pl ->
  bytes_at m buf (record_header flags tl il pl) ->
  record_size flags tl il pl < 2 ^ 31 ->
  get_record buf buf_len rec (State m r)
  = (Done (if buf_len <? record_size flags tl il pl
           then (ERR_REC_BUF_TRUNCATED, rec)
           else (record_size flags tl il pl, record_at buf flags tl il pl)),
     State m (r ++ if buf_len <? 2 then [] else seqZ buf (header_size flags))).
Proof.
  intros (Hf & Htl & Hil & Hid & Hpl) H Hsize.
  unfold get_record.
  destruct (Z.ltb_spec buf_len 2) as [Hlt|Hge].
  { unfold record_size in *.
    destruct (Z.ltb_spec buf_len
                (2 + (if Z.testbit flags 4 then 1 else 4)
                 + (if Z.testbit flags 3 then 1 else 0) + tl + il + pl)) as [_|Hc].
    - rewrite app_nil_r. reflexivity.
    - unfold byte in *. destruct (Z.testbit flags 4), (Z.testbit flags 3); lia. }
  unfold record_header in H.
  change 0x10 with (2 ^ 4). change 0x08 with (2 ^ 3).
  unfold bytes_to_uint32, bind.
  header_load H 0%nat flags buf.
  rewrite !flag_test by lia. rewrite tnf_bits.
  header_load H 1%nat tl (buf + 1).
  unfold record_size, record_at, header_size in *. unfold byte in *.
  destruct (Z.testbit flags 4) eqn:Esr, (Z.testbit flags 3) eqn:Eil; cbn [app] in H;
    cbv iota.
  - change (2 ^ 8) with 256 in Hpl.
    header_load H 2%nat pl (buf + 2). unfold ret at 1. cbv beta iota.
    header_load H 3%nat il (buf + (2 + 1)).
    destruct (Z.ltb_spec 0 il) as [Hpos|Hz]; header_done (2 + 1 + 1 + tl + il) pl.
  - change (2 ^ 8) with 256 in Hpl. rewrite (Hid eq_refl) in *.
    header_load H 2%nat pl (buf + 2).
    header_done (2 + 1 + 0 + tl + 0) pl.
  - rewrite be_split_4 in H. cbn [app] in H.
    header_load H 2%nat (uint8_t (pl ≫ 24)) (buf + 2).
    header_load H 3%nat (uint8_t (pl ≫ 16)) (buf + 2 + 1).
    header_load H 4%nat (uint8_t (pl ≫ 8)) (buf + 2 + 2).
    header_load H 5%nat (uint8_t pl) (buf + 2 + 3).
    rewrite uint32_expr by apply byte_uint8_t.
    rewrite <- be_split_4, be_split_unsigned by exact Hpl.
    unfold ret at 1. cbv beta iota.
    header_load H 6%nat il (buf + (2 + 4)).
    destruct (Z.ltb_spec 0 il) as [Hpos|Hz]; header_done (2 + 4 + 1 + tl + il) pl.
  - rewrite be_split_4 in H. cbn [app] in H. rewrite (Hid eq_refl) in *.
    header_load H 2%nat (uint8_t (pl ≫ 24)) (buf + 2).
    header_load H 3%nat (uint8_t (pl ≫ 16)) (buf + 2 + 1).
    header_load H 4%nat (uint8_t (pl ≫ 8)) (buf + 2 + 2).
    header_load H 5%nat (uint8_t pl) (buf + 2 + 3).
    rewrite uint32_expr by apply byte_uint8_t.
    rewrite <- be_split_4, be_split_unsigned by exact Hpl.
    header_done (2 + 4 + 0 + tl + 0) pl.
Qed.

(** X15. On a header that is in the memory and declares a record of less
    than 2^31 bytes, [get_record] reads the bytes of the header and no
    others, and leaves the memory as it is. When [buf_len] is below the
    size of the record it returns [ERR_REC_BUF_TRUNCATED] and the record of
    the caller is untouched; otherwise it returns the size of the record and
    stores the type-name format (the 3 low bits of the flags), the three
    lengths, and the pointers to the type, the id and the payload, which
    follow the header in this order; the id pointer is [NULL] when the id is
    empty. *)
Theorem get_record_decodes (s : state) (buf buf_len : Z) (rec : ndef_record)
        (flags tl il pl : Z) :
  header_ok flags tl il pl ->
  bytes_at (mem s) buf (record_header flags tl il pl) ->
  record_size flags tl il pl < 2 ^ 31 ->
  get_record buf buf_len rec s
  = (Done (if buf_len <? record_size flags tl il pl
           then (ERR_REC_BUF_TRUNCATED, rec)
           else (record_size flags tl il pl, record_at buf flags tl il pl)),
     State (mem s)
       (reads s ++ if buf_len <? 2 then [] else seqZ buf (header_size flags))).
Proof.
  destruct s as [m r]. apply get_record_run.
Qed.

Lemma get_record_decodes_witness :
  get_record 1 8 empty_record (init [0xFF; 0x1B; 0x01; 0x02; 0x01; 0x55; 0x49; 0xD1; 0xD2])
  = (Done (8, Ndef_record 3 1 (Ptr 5) 1 (Ptr 6) 2 (Ptr 7)),
     State [0xFF; 0x1B; 0x01; 0x02; 0x01; 0x55; 0x49; 0xD1; 0xD2] [1; 2; 3; 4])
  /\ get_record 1 7 empty_record (init [0xFF; 0x1B; 0x01; 0x02; 0x01; 0x55; 0x49; 0xD1; 0xD2])
     = (Done (ERR_REC_BUF_TRUNCATED, empty_record),
        State [0xFF; 0x1B; 0x01; 0x02; 0x01; 0x55; 0x49; 0xD1; 0xD2] [1; 2; 3; 4])
  /\ get_record 0 6 empty_record (init [0xC3; 0x00; 0x00; 0x00; 0x01; 0x00])
     = (Done (ERR_REC_BUF_TRUNCATED, empty_record),
        State [0xC3; 0x00; 0x00; 0x00; 0x01; 0x00] [0; 1; 2; 3; 4; 5]).
Proof.
  assert (header_ok 0x1B 1 1 2) as Hok.
  { unfold header_ok, byte. cbn. repeat apply conj; first [lia | discriminate]. }
  assert (header_ok 0xC3 0 0 256) as Hok'.
  { unfold header_ok, byte. cbn. repeat apply conj; first [lia | reflexivity]. }
  repeat apply conj.
  - apply (get_record_decodes
             (init [0xFF; 0x1B; 0x01; 0x02; 0x01; 0x55; 0x49; 0xD1; 0xD2]) 1 8
             empty_record 0x1B 1 1 2 Hok); [|reflexivity].
    apply (bytes_at_middle [0xFF] [0x1B; 0x01; 0x02; 0x01] [0x55; 0x49; 0xD1; 0xD2]).
  - apply (get_record_decodes
             (init [0xFF; 0x1B; 0x01; 0x02; 0x01; 0x55; 0x49; 0xD1; 0xD2]) 1 7
             empty_record 0x1B 1 1 2 Hok); [|reflexivity].
    apply (bytes_at_middle [0xFF] [0x1B; 0x01; 0x02; 0x01] [0x55; 0x49; 0xD1; 0xD2]).
  - apply (get_record_decodes
             (init [0xC3; 0x00; 0x00; 0x00; 0x01; 0x00]) 0 6
             empty_record 0xC3 0 0 256 Hok'); [|reflexivity].
    apply (bytes_at_middle [] [0xC3; 0x00; 0x00; 0x00; 0x01; 0x00] []).
Defined.

(** ** The message decoder on a message *)

Lemma record_header_length (flags tl il pl : Z) :
  Z.of_nat (length (record_header flags tl il pl)) = header_size flags.
Proof.
  unfold record_header, header_size.
  destruct (Z.testbit flags 4), (Z.testbit flags 3); reflexivity.
Qed.

Lemma record_bytes_length (flags : Z) (ty idb pay : list Z) :
  Z.of_nat (length (record_bytes flags ty idb pay))
  = record_size flags (Z.of_nat (length ty)) (Z.of_nat (length idb))
      (Z.of_nat (length pay)).
Proof.
  unfold record_bytes. rewrite !length_app, !Nat2Z.inj_add, record_header_length.
  rewrite record_size_header. lia.
Qed.

(** The type check on a record whose type is in the memory. *)
Lemma wrong_type_run (s : state) (buf flags il pl : Z) (ty : list Z) :
  bytes_at (mem s) (buf + header_size flags) ty ->
  exists s',
    wrong_type (record_at buf flags (Z.of_nat (length ty)) il pl) s
    = (Done (negb (accepted flags ty)), s')
    /\ mem s' = mem s.
Proof.
  intros Hat. unfold wrong_type, accepted. cbn [tnf type type_length record_at].
  destruct (flags mod 8 =? TNF_URI); cbn [negb andb].
  - destruct (starts_with_run s (buf + header_size flags) ty RECORD_TYPE_SCHEME
                scheme_no_nul Hat) as (s' & E & W).
    exists s'. unfold type_valid. rewrite (bind_Done _ _ _ _ _ E).
    split; [|apply W].
    destruct (bool_decide (RECORD_TYPE_SCHEME `prefix_of` ty)); reflexivity.
  - exists s. split; reflexivity.
Qed.

(** X17. [get_records] on a message: when the memory holds two records, one
    after the other, the call returns, in this order of precedence,
    [ERR_REC_BUF_TRUNCATED] with both records of the caller untouched when
    [buf_len] is below the size of the first record; [ERR_REC_WRONG_TYPE]
    with the first record stored in [data_rec] when that record is not of
    the URI format or its type does not start with the scheme;
    [ERR_REC_BUF_TRUNCATED] with the first record stored when [buf_len] is
    below the size of both records; [ERR_REC_WRONG_TYPE] with both records
    stored when the second record fails the type check; and otherwise
    [SUCCESS], with the first record in [data_rec] and the second, decoded
    where the first one ends, in [meta_rec]. *)
Theorem get_records_decodes
        (s : state) (buf buf_len : Z) (meta0 data0 : ndef_record)
        (f1 : Z) (ty1 id1 pay1 : list Z) (f2 : Z) (ty2 id2 pay2 : list Z) :
  let n1 := Z.of_nat (length (record_bytes f1 ty1 id1 pay1)) in
  let n2 := Z.of_nat (length (record_bytes f2 ty2 id2 pay2)) in
  let rec1 := record_of buf f1 ty1 id1 pay1 in
  let rec2 := record_of (buf + n1) f2 ty2 id2 pay2 in
  record_ok f1 ty1 id1 pay1 ->
  record_ok f2 ty2 id2 pay2 ->
  bytes_at (mem s) buf (record_bytes f1 ty1 id1 pay1 ++ record_bytes f2 ty2 id2 pay2) ->
  n1 + n2 < 2 ^ 31 ->
  buf_len < 2 ^ 64 ->
  result (get_records buf buf_len meta0 data0 s)
  = Done (if buf_len <? n1 then (ERR_REC_BUF_TRUNCATED, meta0, data0)
          else if negb (accepted f1 ty1) then (ERR_REC_WRONG_TYPE, meta0, rec1)
          else if buf_len <? n1 + n2 then (ERR_REC_BUF_TRUNCATED, meta0, rec1)
          else if negb (accepted f2 ty2) then (ERR_REC_WRONG_TYPE, rec2, rec1)
          else (SUCCESS, rec2, rec1)).
Proof.
  intros n1 n2 rec1 rec2 Hok1 Hok2 Hat Hsize Hmax.
  destruct s as [m r]. cbn [mem] in Hat.
  assert (Hn1 : n1 = record_size f1 (Z.of_nat (length ty1)) (Z.of_nat (length id1))
                       (Z.of_nat (length pay1))) by apply record_bytes_length.
  assert (Hn2 : n2 = record_size f2 (Z.of_nat (length ty2)) (Z.of_nat (length id2))
                       (Z.of_nat (length pay2))) by apply record_bytes_length.
  assert (0 <= n1 /\ 0 <= n2) as [Hp1 Hp2] by (subst n1 n2; lia).
  apply (bytes_at_app_at _ _ (buf + n1)) in Hat as [Hr1 Hr2]; [|reflexivity].
  unfold record_bytes in Hr1, Hr2.
  apply (bytes_at_app_at _ _ (buf + header_size f1)) in Hr1 as [Hh1 Hb1];
    [|rewrite record_header_length; reflexivity].
  apply (bytes_at_app_at _ _ (buf + n1 + header_size f2)) in Hr2 as [Hh2 Hb2];
    [|rewrite record_header_length; reflexivity].
  apply bytes_at_app in Hb1 as [Hty1 _]. apply bytes_at_app in Hb2 as [Hty2 _].
  rewrite get_records_unfold. unfold result.
  rewrite (bind_Done _ _ _ _ _ (get_record_run m r buf buf_len data0 f1 _ _ _
                                  Hok1 Hh1 ltac:(lia))).
  rewrite <- Hn1.
  destruct (Z.ltb_spec buf_len n1) as [Hlt1|Hge1]; [reflexivity|].
  destruct (Z.ltb_spec n1 0) as [?|_]; [lia|].
  destruct (wrong_type_run
              (State m (r ++ if buf_len <? 2 then [] else seqZ buf (header_size f1)))
              buf f1 (Z.of_nat (length id1)) (Z.of_nat (length pay1)) ty1 Hty1)
    as ([m1 r1] & E1 & Hm1).
  cbn [mem] in Hm1. subst m1.
  rewrite (bind_Done _ _ _ _ _ E1).
  destruct (negb (accepted f1 ty1)); [reflexivity|].
  rewrite size_t_small by lia.
  rewrite (bind_Done _ _ _ _ _ (get_record_run m r1 (buf + n1) (buf_len - n1) meta0 f2
                                  _ _ _ Hok2 Hh2 ltac:(lia))).
  rewrite <- Hn2.
  destruct (Z.ltb_spec (buf_len - n1) n2) as [Hlt2|Hge2];
    destruct (Z.ltb_spec buf_len (n1 + n2)) as [Hlt|Hge]; try lia; [reflexivity|].
  destruct (Z.ltb_spec n2 0) as [?|_]; [lia|].
  destruct (wrong_type_run
              (State m (r1 ++ if buf_len - n1 <? 2 then []
                              else seqZ (buf + n1) (header_size f2)))
              (buf + n1) f2 (Z.of_nat (length id2)) (Z.of_nat (length pay2)) ty2 Hty2)
    as ([m2 r2] & E2 & Hm2).
  cbn [mem] in Hm2. subst m2.
  rewrite (bind_Done _ _ _ _ _ E2).
  destruct (negb (accepted f2 ty2)); reflexivity.
Qed.

Lemma get_records_decodes_witness :
  result (get_records 0 86 empty_record empty_record (init two_records))
  = Done (SUCCESS, Ndef_record 3 39 (Ptr 46) 0 NULL 1 (Ptr 85),
          Ndef_record 3 39 (Ptr 3) 0 NULL 1 (Ptr 42))
  /\ result (get_records 0 85 empty_record empty_record (init two_records))
     = Done (ERR_REC_BUF_TRUNCATED, empty_record,
             Ndef_record 3 39 (Ptr 3) 0 NULL 1 (Ptr 42))
  /\ result (get_records 0 42 empty_record empty_record (init two_records))
     = Done (ERR_REC_BUF_TRUNCATED, empty_record, empty_record)
  /\ result (get_records 0 8 empty_record empty_record
               (init ([0x13; 0x01; 0x00; 0x55] ++ [0x11; 0x01; 0x00; 0x54])))
     = Done (ERR_REC_WRONG_TYPE, empty_record, Ndef_record 3 1 (Ptr 3) 0 NULL 0 (Ptr 4)).
Proof.
  assert (record_ok 0x13 RECORD_TYPE_SCHEME [] [0xD0]) as He0.
  { unfold record_ok, header_ok, byte. cbn. repeat apply conj; first [lia | reflexivity]. }
  assert (record_ok 0x13 RECORD_TYPE_SCHEME [] [0xD1]) as He1.
  { unfold record_ok, header_ok, byte. cbn. repeat apply conj; first [lia | reflexivity]. }
  assert (bytes_at (mem (init two_records)) 0
            (record_bytes 0x13 RECORD_TYPE_SCHEME [] [0xD0]
             ++ record_bytes 0x13 RECORD_TYPE_SCHEME [] [0xD1])) as Hat.
  { apply (bytes_at_middle [] two_records []). }
  assert (record_ok 0x13 [0x55] [] []) as Hs0.
  { unfold record_ok, header_ok, byte. cbn. repeat apply conj; first [lia | reflexivity]. }
  assert (record_ok 0x11 [0x54] [] []) as Hs1.
  { unfold record_ok, header_ok, byte. cbn. repeat apply conj; first [lia | reflexivity]. }
  repeat apply conj.
  - apply (get_records_decodes (init two_records) 0 86 empty_record empty_record
             0x13 RECORD_TYPE_SCHEME [] [0xD0] 0x13 RECORD_TYPE_SCHEME [] [0xD1]
             He0 He1 Hat); reflexivity.
  - apply (get_records_decodes (init two_records) 0 85 empty_record empty_record
             0x13 RECORD_TYPE_SCHEME [] [0xD0] 0x13 RECORD_TYPE_SCHEME [] [0xD1]
             He0 He1 Hat); reflexivity.
  - apply (get_records_decodes (init two_records) 0 42 empty_record empty_record
             0x13 RECORD_TYPE_SCHEME [] [0xD0] 0x13 RECORD_TYPE_SCHEME [] [0xD1]
             He0 He1 Hat); reflexivity.
  - apply (get_records_decodes
             (init ([0x13; 0x01; 0x00; 0x55] ++ [0x11; 0x01; 0x00; 0x54])) 0 8
             empty_record empty_record 0x13 [0x55] [] [] 0x11 [0x54] [] [] Hs0 Hs1);
      [|reflexivity..].
    apply (bytes_at_middle [] ([0x13; 0x01; 0x00; 0x55] ++ [0x11; 0x01; 0x00; 0x54]) []).
Defined.

(** ** Results inside the buffer *)

(** X16. For a buffer of less than 2^31 bytes, a call of [get_record] that
    returns gives [ERR_REC_BUF_TRUNCATED] with the record of the caller
    untouched, or a length between 0 and [buf_len]: the next record, at
    [buf + n], starts inside the buffer or at its end, and [buf_len - n] does
    not wrap. [get_records] then returns one of [SUCCESS],
    [ERR_REC_BUF_TRUNCATED] and [ERR_REC_WRONG_TYPE]. *)
Theorem get_record_result_in_buffer (buf buf_len : Z) (s : state) :
  0 <= buf_len < 2 ^ 31 ->
  (forall rec rec' n s',
     get_record buf buf_len rec s = (Done (n, rec'), s') ->
     (n = ERR_REC_BUF_TRUNCATED /\ rec' = rec) \/ 0 <= n <= buf_len)
  /\ (forall meta0 data0 meta data r s',
        get_records buf buf_len meta0 data0 s = (Done (r, meta, data), s') ->
        r = SUCCESS \/ r = ERR_REC_BUF_TRUNCATED \/ r = ERR_REC_WRONG_TYPE).
Proof.
  intros Hlen.
  assert (Hrec : forall b bl rec rec' n (s0 s' : state),
             0 <= bl < 2 ^ 31 ->
             get_record b bl rec s0 = (Done (n, rec'), s') ->
             (n = ERR_REC_BUF_TRUNCATED /\ rec' = rec) \/ 0 <= n <= bl).
  { intros b bl rec rec' n s0 s' Hbl H.
    apply get_record_cases in H as [H|(total & -> & Ht & Hle)]; [left; exact H|].
    right. unfold int32_t. rewrite swrap_small by (unfold is_signed; lia). lia. }
  split.
  - intros rec rec' n s' H. exact (Hrec _ _ _ _ _ _ _ Hlen H).
  - intros meta0 data0 meta data r s' H. rewrite get_records_unfold in H.
    inv_bind H x s1 H1. destruct x as [n d].
    apply Hrec in H1; [|exact Hlen].
    destruct (Z.ltb_spec n 0) as [Hneg|Hpos].
    { inv_ret H. destruct H1 as [[-> _]|?]; [right; left; reflexivity | lia]. }
    destruct H1 as [[-> _]|Hn]; [unfold ERR_REC_BUF_TRUNCATED in Hpos; lia|].
    inv_bind H bad s2 H2. destruct bad; [inv_ret H; right; right; reflexivity|].
    inv_bind H y s3 H3. destruct y as [k m'].
    rewrite size_t_small in H3 by lia.
    apply Hrec in H3; [|lia].
    destruct (Z.ltb_spec k 0) as [Hneg|Hpos'].
    { inv_ret H. destruct H3 as [[-> _]|?]; [right; left; reflexivity | lia]. }
    inv_bind H bad s4 H4. destruct bad; inv_ret H; auto.
Qed.

Lemma get_record_result_in_buffer_witness :
  ((0 = ERR_REC_BUF_TRUNCATED
    /\ Ndef_record 3 0 (Ptr 6) 0 NULL 0xFFFFFFFA (Ptr 6) = empty_record)
   \/ 0 <= 0 <= 6)
  /\ (ERR_REC_WRONG_TYPE = SUCCESS \/ ERR_REC_WRONG_TYPE = ERR_REC_BUF_TRUNCATED
      \/ ERR_REC_WRONG_TYPE = ERR_REC_WRONG_TYPE).
Proof.
  destruct (get_record_result_in_buffer 0 6 (init [0x03; 0x00; 0xFF; 0xFF; 0xFF; 0xFA]))
    as [H1 H2]; [lia|].
  split.
  - apply (H1 empty_record (Ndef_record 3 0 (Ptr 6) 0 NULL 0xFFFFFFFA (Ptr 6)) 0
              (State [0x03; 0x00; 0xFF; 0xFF; 0xFF; 0xFA] [0; 1; 2; 3; 4; 5])).
    reflexivity.
  - apply (H2 empty_record empty_record empty_record
              (Ndef_record 3 0 (Ptr 6) 0 NULL 0xFFFFFFFA (Ptr 6)) ERR_REC_WRONG_TYPE
              (State [0x03; 0x00; 0xFF; 0xFF; 0xFF; 0xFA] [0; 1; 2; 3; 4; 5])).
    reflexivity.
Defined.

(** ** The assertion of the option checker *)

(** X18. [is_option_selected] aborts at its assertion, before any load, when
    [option] is not below [bitmap_len * 8], so for every option on an empty
    bitmap. Otherwise it loads one byte, at [bitmap + option / 8], within the
    first 32 bytes of the bitmap, leaves the memory as it is and returns 0
    or 1. *)
Theorem is_option_selected_outcome (s : state) (bitmap bitmap_len option : Z) :
  is_unsigned 8 option ->
  0 <= bitmap_len ->
  (size_t (bitmap_len * 8) <= option ->
   is_option_selected bitmap bitmap_len option s = (AssertFailed, s))
  /\ (option < size_t (bitmap_len * 8) ->
      in_bounds s bitmap bitmap_len ->
      exists v : Z,
        is_option_selected bitmap bitmap_len option s
        = (Done v, State (mem s) (reads s ++ [bitmap + option / 8]))
        /\ (v = 0 \/ v = 1)
        /\ 0 <= option / 8 < Z.min bitmap_len 32).
Proof.
  intros [Ho0 Ho] Hlen. change (2 ^ 8) with 256 in Ho. split.
  - intros Hge. unfold is_option_selected, assert.
    destruct (Z.ltb_spec option (size_t (bitmap_len * 8))) as [?|_]; [lia|].
    reflexivity.
  - intros Hpre [Hb Hin]. destruct s as [m r]. cbn [mem reads] in *.
    assert (size_t (bitmap_len * 8) <= bitmap_len * 8) as Hw by (apply wrap_le; lia).
    assert (0 <= option / 8 < bitmap_len) as Hidx.
    { split; [apply Z.div_pos; lia|]. apply Z.div_lt_upper_bound; lia. }
    assert (option / 8 < 32) as H32 by (apply Z.div_lt_upper_bound; lia).
    assert (Z.to_nat (bitmap + option / 8) < length m)%nat as Hlt by lia.
    destruct (lookup_lt_is_Some_2 m _ Hlt) as [b Hlook].
    unfold is_option_selected, assert.
    destruct (Z.ltb_spec option (size_t (bitmap_len * 8))) as [_|?]; [|lia].
    unfold bind at 1. cbv beta iota.
    assert (size_t (option / 8) = option / 8) as -> by (apply wrap_small; lia).
    assert (0 <= bitmap + option / 8) as Ha by lia.
    rewrite (bind_Done _ _ _ _ _ (load_Done m r _ b Ha Hlook)).
    cbv beta zeta. unfold ret. eexists. split; [reflexivity|]. split; [|lia].
    match goal with |- context [if ?c then _ else _] => destruct c end; auto.
Qed.

Lemma is_option_selected_outcome_witness :
  is_option_selected 0 0 0 (init []) = (AssertFailed, init [])
  /\ is_option_selected 0 1 8 (init [0xFF; 0xFF]) = (AssertFailed, init [0xFF; 0xFF])
  /\ exists v : Z,
       is_option_selected 0 2 8 (init [0x00; 0x01])
       = (Done v, State (mem (init [0x00; 0x01])) (reads (init [0x00; 0x01]) ++ [0 + 8 / 8]))
       /\ (v = 0 \/ v = 1)
       /\ 0 <= 8 / 8 < Z.min 2 32.
Proof.
  split; [|split].
  - apply (is_option_selected_outcome (init []) 0 0 0); [unfold is_unsigned; lia | lia|].
    now vm_compute.
  - apply (is_option_selected_outcome (init [0xFF; 0xFF]) 0 1 8);
      [unfold is_unsigned; lia | lia|].
    now vm_compute.
  - apply (is_option_selected_outcome (init [0x00; 0x01]) 0 2 8);
      [unfold is_unsigned; lia | lia | now vm_compute | split; cbn; lia].
Defined.

(** ** What only reads *)

Lemma read_only_ret {A : Type} (a : A) : read_only (ret a).
Proof. intros s. reflexivity. Qed.

Lemma read_only_load (a : Z) : read_only (load a).
Proof.
  intros s. unfold memory, load.
  destruct (a <? 0); [reflexivity|]. destruct (mem s !! Z.to_nat a); reflexivity.
Qed.

Lemma read_only_assert (c : bool) : read_only (assert c).
Proof. intros s. unfold memory, assert. destruct c; reflexivity. Qed.

Lemma read_only_out_of_fuel {A : Type} : read_only (@out_of_fuel A).
Proof. intros s. reflexivity. Qed.

Lemma read_only_bind {A B : Type} (m : M A) (k : A -> M B) :
  read_only m -> (forall a, read_only (k a)) -> read_only (bind m k).
Proof.
  intros H1 H2 s. specialize (H1 s). unfold memory, bind in *.
  destruct (m s) as [[a|a| |] s1]; cbn [snd] in *; try exact H1.
  rewrite <- H1. apply H2.
Qed.

Ltac ro_with leaf :=
  repeat lazymatch goal with
    | |- read_only (ret _) => apply read_only_ret
    | |- read_only (load _) => apply read_only_load
    | |- read_only (assert _) => apply read_only_assert
    | |- read_only out_of_fuel => apply read_only_out_of_fuel
    | |- read_only (bind _ _) => apply read_only_bind; [|intros ?]
    | |- read_only (if ?c then _ else _) => destruct c
    | |- read_only (match ?x with _ => _ end) => destruct x
    | |- read_only _ => leaf
    end.

Ltac ro := ro_with ltac:(idtac; fail).

Lemma strncmp_read_only (n : nat) (s1 : Z) (s2 : list Z) : read_only (strncmp s1 s2 n).
Proof.
  revert s1 s2. induction n as [|n IH]; intros s1 s2; cbn [strncmp].
  - ro.
  - ro_with ltac:(idtac; apply IH).
Qed.

Lemma starts_with_read_only (p : pointer) (len : Z) (cs : list Z) :
  read_only (starts_with p len cs).
Proof. unfold starts_with. cbv zeta. ro_with ltac:(idtac; apply strncmp_read_only). Qed.

Lemma ends_with_read_only (p : pointer) (len : Z) (cs : option (list Z)) :
  read_only (ends_with p len cs).
Proof. unfold ends_with. cbv zeta. ro_with ltac:(idtac; apply strncmp_read_only). Qed.

Lemma bytes_to_uint32_read_only (p : Z) : read_only (bytes_to_uint32 p).
Proof. unfold bytes_to_uint32. ro. Qed.

Lemma get_record_read_only (buf buf_len : Z) (rec : ndef_record) :
  read_only (get_record buf buf_len rec).
Proof.
  unfold get_record. cbv zeta. ro_with ltac:(idtac; apply bytes_to_uint32_read_only).
Qed.

Lemma wrong_type_read_only (rec : ndef_record) : read_only (wrong_type rec).
Proof.
  unfold wrong_type, type_valid. ro_with ltac:(idtac; apply starts_with_read_only).
Qed.

Lemma get_records_read_only (buf buf_len : Z) (meta_rec data_rec : ndef_record) :
  read_only (get_records buf buf_len meta_rec data_rec).
Proof.
  rewrite get_records_unfold.
  ro_with ltac:(idtac; first [apply get_record_read_only | apply wrong_type_read_only]).
Qed.

Lemma tlv_length_read_only (buf buf_len index : Z) :
  read_only (tlv_length buf buf_len index).
Proof. unfold tlv_length. cbv zeta. ro. Qed.

Lemma tlv_scan_read_only (fuel : nat) (buf buf_len index off : Z) :
  read_only (tlv_scan fuel buf buf_len index off).
Proof.
  revert index. induction fuel as [|fuel IH]; intros index; cbn [tlv_scan].
  - ro.
  - ro_with ltac:(idtac; first [apply IH | apply tlv_length_read_only]).
Qed.

Lemma is_option_selected_read_only (bitmap bitmap_len option : Z) :
  read_only (is_option_selected bitmap bitmap_len option).
Proof. unfold is_option_selected. cbv zeta. ro. Qed.

(** X19. The parsers only read: however a call ends, with a result, at an
    access outside the memory or at the assertion, [get_ndef_tlv_offset],
    [get_record], [get_records], [type_valid], [starts_with], [ends_with]
    and [is_option_selected] leave every byte of the memory as it was. *)
Theorem parsers_read_only :
  (forall fuel buf buf_len off, read_only (get_ndef_tlv_offset fuel buf buf_len off))
  /\ (forall buf buf_len rec, read_only (get_record buf buf_len rec))
  /\ (forall buf buf_len meta_rec data_rec,
        read_only (get_records buf buf_len meta_rec data_rec))
  /\ (forall p len, read_only (type_valid p len))
  /\ (forall p len cs, read_only (starts_with p len cs))
  /\ (forall p len cs, read_only (ends_with p len cs))
  /\ (forall bitmap bitmap_len option,
        read_only (is_option_selected bitmap bitmap_len option)).
Proof.
  repeat apply conj; intros.
  - apply tlv_scan_read_only.
  - apply get_record_read_only.
  - apply get_records_read_only.
  - apply starts_with_read_only.
  - apply starts_with_read_only.
  - apply ends_with_read_only.
  - apply is_option_selected_read_only.
Qed.
